(** * eddymotion.model: chunked fit/predict engine and model adapters

    A shallow embedding of [src/eddymotion/model.py].

    Conventions of the embedding.
    - A numpy array is a shape together with its entries in C (row-major)
      order: [ndarray].
    - Floating-point entries are exact rationals ([Q]): the arithmetic of
      numpy is taken without rounding.  A cast that the module asks for
      ([astype("float32")], [dtype="float32"]) is not arithmetic and is
      embedded: [float32] rounds to single precision.  A NaN that numpy
      stores and goes on with is the value [NaN] of [float].
    - A Python exception is a value of [exn]; a function that may raise
      returns a [result]; code that mutates [self] before raising returns
      the mutated object next to the result.  [NonFinite] is no exception of
      Python: a function of numpy that returns it has NaN for its value, and
      the caller says how the module goes on.
    - What lies outside the module is the class [External]: the wrapped
      numerical models (DIPY), the cast of numpy to single precision, and the
      exception of the interpreter for a keyword given twice. *)

From Stdlib Require Import String.
From Stdlib Require Import List Bool Arith PeanoNat ZArith QArith Qround Qabs.
From Stdlib Require Import Lia Lqa.
Import ListNotations.
Local Open Scope string_scope.
Local Open Scope list_scope.
Local Open Scope nat_scope.

Set Implicit Arguments.

(** ** Exceptions and results

    The exceptions of Python that the module meets.  [NonFinite] is none of
    them: it marks a value that numpy gives as NaN or as an infinity, which
    the exact numbers of this development do not have.  Where the program
    goes on with such a value, the caller turns the mark back into NaN
    ([or_nan]); nothing is raised there. *)

Inductive exn : Type :=
| ValueError (msg : string)
| IndexError (msg : string)
| TypeError (msg : string)
| KeyError (key : string)
| AttributeError (msg : string)
| AxisError (msg : string)
| NonFinite (msg : string)
| ExternalError (msg : string).

Inductive result (A : Type) : Type :=
| Ok (a : A)
| Err (e : exn).

Arguments Ok {A} a.
Arguments Err {A} e.

Definition bind {A B : Type} (r : result A) (k : A -> result B) : result B :=
  match r with
  | Ok a => k a
  | Err e => Err e
  end.

Declare Scope result_scope.
Delimit Scope result_scope with result.
Notation "'let*' x ':=' r 'in' k" := (bind r (fun x => k))
  (at level 10, x name, r at level 100, k at level 200) : result_scope.
Open Scope result_scope.

(** Every call in turn, stopping at the first that raises. *)
Fixpoint map_result {A B : Type} (f : A -> result B) (xs : list A)
  : result (list B) :=
  match xs with
  | [] => Ok []
  | x :: xs' =>
      let* y := f x in
      let* ys := map_result f xs' in
      Ok (y :: ys)
  end.

(** [executor(delayed(f)(x) for x in xs)]: the results come back in the order
    of the tasks; a task that raises makes the whole call raise.  The tasks
    are pure, so running them one after the other gives the same list; when
    several raise, the embedding reports the one with the least index. *)
Definition parallel {A B : Type} (f : A -> result B) (xs : list A)
  : result (list B) := map_result f xs.

(** [enumerate(xs)] *)
Definition enumerate {A : Type} (xs : list A) : list (nat * A) :=
  combine (seq 0 (length xs)) xs.

(** [l[index] = x] on a Python list (in range: the callers only use indices
    below [len(l)]; Python raises out of range, where this keeps [l]). *)
Fixpoint set_item {A : Type} (l : list A) (index : nat) (x : A) : list A :=
  match l, index with
  | [], _ => []
  | _ :: t, O => x :: t
  | h :: t, S i => h :: set_item t i x
  end.

(** [for sub, index in results: target[index] = sub] *)
Definition store_results {A : Type} (target : list A) (results : list (A * nat))
  : list A :=
  fold_left (fun acc r => set_item acc (snd r) (fst r)) results target.

(** ** Arrays *)

Record ndarray (A : Type) : Type := mk_nd {
  shape : list nat;
  elems : list A
}.

Arguments mk_nd {A} shape elems.

Definition size_of (sh : list nat) : nat := fold_right Nat.mul 1 sh.

Definition wf_nd {A : Type} (a : ndarray A) : Prop :=
  length (elems a) = size_of (shape a).

Definition ndim {A : Type} (a : ndarray A) : nat := length (shape a).

(** [l[st:en]] *)
Definition slice {A : Type} (l : list A) (st en : nat) : list A :=
  firstn (en - st) (skipn st l).

(** [sh[:-1]] and [sh[-1]] *)
Definition but_last (sh : list nat) : list nat := removelast sh.

Definition last_dim (sh : list nat) : option nat :=
  match sh with
  | [] => None
  | _ => Some (last sh 0)
  end.

(** The entries cut into consecutive rows of [w] entries, [k] of them. *)
Fixpoint rows_of {A : Type} (w k : nat) (l : list A) : list (list A) :=
  match k with
  | O => []
  | S k' => firstn w l :: rows_of w k' (skipn w l)
  end.

(** [data.reshape(-1, data.shape[-1])]: numpy cannot infer the [-1] when the
    last axis is empty. *)
Definition reshape_rows {A : Type} (data : ndarray A) : result (ndarray A) :=
  match last_dim (shape data) with
  | None => Err (IndexError "tuple index out of range")
  | Some O => Err (ValueError "cannot reshape array of size 0")
  | Some (S g) =>
      Ok (mk_nd [size_of (but_last (shape data)); S g] (elems data))
  end.

(** [xs[flags]] on the leading rows: keeps the rows whose flag is set. *)
Fixpoint select_rows {A : Type} (flags : list bool) (rows : list (list A))
  : list (list A) :=
  match flags, rows with
  | f :: flags', r :: rows' =>
      if f then r :: select_rows flags' rows' else select_rows flags' rows'
  | _, _ => []
  end.

Definition count_true (flags : list bool) : nat :=
  length (filter (fun b : bool => b) flags).

Fixpoint is_prefix (p l : list nat) : bool :=
  match p, l with
  | [], _ => true
  | x :: p', y :: l' => Nat.eqb x y && is_prefix p' l'
  | _ :: _, [] => false
  end.

(** [data[mask, ...]] for a boolean [mask]: the mask must have the extent of
    the leading axes of [data]; the result has one row per set flag, followed
    by the remaining axes. *)
Definition bool_index {A : Type} (data : ndarray A) (mask : ndarray bool)
  : result (ndarray A) :=
  if is_prefix (shape mask) (shape data) then
    let rest := skipn (ndim mask) (shape data) in
    let w := size_of rest in
    let rows := rows_of w (length (elems mask)) (elems data) in
    Ok (mk_nd (count_true (elems mask) :: rest)
              (concat (select_rows (elems mask) rows)))
  else Err (IndexError "boolean index did not match indexed array").

(** *** [numpy.array_split] along the first axis, with a number of sections *)

Fixpoint cumsum_from (acc : nat) (l : list nat) : list nat :=
  match l with
  | [] => []
  | x :: l' => (acc + x) :: cumsum_from (acc + x) l'
  end.

Definition cumsum (l : list nat) : list nat := cumsum_from 0 l.

Definition section_sizes (Ntotal Nsections : nat) : list nat :=
  let Neach_section := Ntotal / Nsections in
  let extras := Ntotal mod Nsections in
  [0] ++ repeat (Neach_section + 1) extras
      ++ repeat Neach_section (Nsections - extras).

Definition div_points (Ntotal Nsections : nat) : list nat :=
  cumsum (section_sizes Ntotal Nsections).

(** The sub-array of the rows [st <= row < en]. *)
Definition sub_rows {A : Type} (ary : ndarray A) (st en : nat) : ndarray A :=
  let w := size_of (tl (shape ary)) in
  mk_nd ((Nat.min en (hd 0 (shape ary)) - st) :: tl (shape ary))
        (slice (elems ary) (st * w) (en * w)).

Definition array_split {A : Type} (ary : ndarray A) (n : Z)
  : result (list (ndarray A)) :=
  match shape ary with
  | [] => Err (IndexError "tuple index out of range")
  | Ntotal :: _ =>
      if (n <=? 0)%Z then
        Err (ValueError "number sections must be larger than 0.")
      else
        let Nsections := Z.to_nat n in
        let dp := div_points Ntotal Nsections in
        Ok (map (fun i => sub_rows ary (nth i dp 0) (nth (S i) dp 0))
                (seq 0 Nsections))
  end.

(** *** [numpy.squeeze], [numpy.hstack], [reshape] *)

Definition squeeze {A : Type} (a : ndarray A) : ndarray A :=
  mk_nd (filter (fun d => negb (Nat.eqb d 1)) (shape a)) (elems a).

Definition atleast_1d {A : Type} (a : ndarray A) : ndarray A :=
  match shape a with
  | [] => mk_nd [1] (elems a)
  | _ => a
  end.

Definition list_eqb (l1 l2 : list nat) : bool :=
  if list_eq_dec Nat.eq_dec l1 l2 then true else false.

(** The extents that [concatenate] requires to agree along [axis 1]: all
    but the second. *)
Definition off_axis1 (sh : list nat) : list nat :=
  match sh with
  | d0 :: _ :: rest => d0 :: rest
  | _ => sh
  end.

Definition axis1 (sh : list nat) : nat := nth 1 sh 0.

(** [numpy.hstack]: one-dimensional arrays are joined end to end; arrays of
    more dimensions are joined along their second axis. *)
Definition hstack {A : Type} (arrs : list (ndarray A)) : result (ndarray A) :=
  let arrs := map atleast_1d arrs in
  match arrs with
  | [] => Err (ValueError "need at least one array to concatenate")
  | a0 :: _ =>
      if Nat.eqb (ndim a0) 1 then
        if forallb (fun a => Nat.eqb (ndim a) 1) arrs then
          Ok (mk_nd [list_sum (map (fun a => hd 0 (shape a)) arrs)]
                    (concat (map (@elems A) arrs)))
        else Err (ValueError "all the input arrays must have same number of dimensions")
      else
        if forallb (fun a => list_eqb (off_axis1 (shape a)) (off_axis1 (shape a0))
                             && Nat.eqb (ndim a) (ndim a0)) arrs then
          let d0 := hd 0 (shape a0) in
          let inner := size_of (skipn 2 (shape a0)) in
          let blocks (i : nat) :=
            concat (map (fun a =>
                           let w := axis1 (shape a) * inner in
                           slice (elems a) (i * w) (S i * w)) arrs) in
          Ok (mk_nd (d0 :: list_sum (map (fun a => axis1 (shape a)) arrs)
                        :: skipn 2 (shape a0))
                    (concat (map blocks (seq 0 d0))))
        else Err (ValueError "all the input array dimensions except for the concatenation axis must match exactly")
  end.

(** [a.reshape(sh)] *)
Definition reshape {A : Type} (a : ndarray A) (sh : list nat)
  : result (ndarray A) :=
  if Nat.eqb (length (elems a)) (size_of sh) then Ok (mk_nd sh (elems a))
  else Err (ValueError "cannot reshape array").

(** [retval[mask, ...] = values] on an array [retval] of the extent of
    [mask]: the values fill the set positions in order; a single value is
    broadcast to all of them. *)
Fixpoint scatter {A : Type} (flags : list bool) (old vals : list A) : list A :=
  match flags, old with
  | f :: flags', o :: old' =>
      if f then
        match vals with
        | v :: vals' => v :: scatter flags' old' vals'
        | [] => o :: scatter flags' old' []
        end
      else o :: scatter flags' old' vals
  | _, _ => old
  end.

Fixpoint drop_leading_ones (sh : list nat) : list nat :=
  match sh with
  | 1 :: sh' => drop_leading_ones sh'
  | _ => sh
  end.

Definition mask_assign {A : Type} (retval : ndarray A) (mask : ndarray bool)
  (values : ndarray A) : result (ndarray A) :=
  let k := count_true (elems mask) in
  match drop_leading_ones (shape values), elems values with
  | [], [v] =>
      Ok (mk_nd (shape retval) (scatter (elems mask) (elems retval) (repeat v k)))
  | [d], vs =>
      if Nat.eqb d k then
        Ok (mk_nd (shape retval) (scatter (elems mask) (elems retval) vs))
      else Err (ValueError "NumPy boolean array indexing assignment cannot assign input values to the output values where the mask is true")
  | _, _ =>
      Err (ValueError "could not broadcast input array")
  end.

(** *** Two-dimensional arrays given by their rows *)

Record matrix (A : Type) : Type := mk_mat {
  nrows : nat;
  ncols : nat;
  mrows : list (list A)
}.

Arguments mk_mat {A} nrows ncols mrows.

Definition column {A : Type} (j : nat) (rows : list (list A)) : list A :=
  flat_map (fun r => match nth_error r j with
                     | Some x => [x]
                     | None => []
                     end) rows.

(** [m.T] *)
Definition transpose {A : Type} (m : matrix A) : matrix A :=
  mk_mat (ncols m) (nrows m)
         (map (fun j => column j (mrows m)) (seq 0 (ncols m))).

(** [m[i, :]] *)
Definition row_at {A : Type} (m : matrix A) (i : nat) : result (list A) :=
  match nth_error (mrows m) i with
  | Some r => Ok r
  | None => Err (IndexError "index is out of bounds for axis 0")
  end.

(** [m[:k, :]] *)
Definition first_rows {A : Type} (k : nat) (m : matrix A) : matrix A :=
  mk_mat (Nat.min k (nrows m)) (ncols m) (firstn k (mrows m)).

(** What [numpy.asanyarray] gives for a gradient: a vector or a table. *)
Inductive gradient_like (A : Type) : Type :=
| Vec (v : list A)
| Mat (m : matrix A).

Arguments Vec {A} v.
Arguments Mat {A} m.

(** ** Keyword arguments *)

Definition kwargs (A : Type) : Type := list (string * A).

Fixpoint kw_get {A : Type} (k : string) (kw : kwargs A) : option A :=
  match kw with
  | [] => None
  | (k', v) :: kw' => if String.eqb k k' then Some v else kw_get k kw'
  end.

Definition kw_has {A : Type} (k : string) (kw : kwargs A) : bool :=
  match kw_get k kw with
  | Some _ => true
  | None => false
  end.

Definition kw_remove {A : Type} (k : string) (kw : kwargs A) : kwargs A :=
  filter (fun kv => negb (String.eqb k (fst kv))) kw.

(** [{k: v for k, v in kwargs.items() if k in allowed}] *)
Definition kw_only {A : Type} (allowed : list string) (kw : kwargs A)
  : kwargs A :=
  filter (fun kv => existsb (String.eqb (fst kv)) allowed) kw.

(** A call [f(..., k1=v1, ..., **extra)] of a function with the named
    parameters [params]: a key of [extra] that repeats an explicit keyword or
    names a parameter already given by position is a [TypeError]. *)
Definition call_with {A : Type} (params : list string) (explicit extra : kwargs A)
  : result (kwargs A) :=
  if existsb (fun kv => kw_has (fst kv) explicit) extra then
    Err (TypeError "got multiple values for keyword argument")
  else if existsb (fun kv => existsb (String.eqb (fst kv)) params) extra then
    Err (TypeError "got multiple values for argument")
  else Ok (explicit ++ extra).

(** The call [delayed(f)(..., k1=v1, ..., **extra)] that makes a task for
    the executor.  A key of [extra] that repeats one of the [explicit]
    keywords stops the making of the tasks: the interpreter raises its
    exception [duplicate] for the first such key of [extra].  A key that
    names one of the parameters [params], given by position, is a
    [TypeError] of the call of [f], when the task runs. *)
Definition delayed_with {A : Type} (duplicate : string -> exn)
  (params explicit : list string) (given extra : kwargs A)
  : result (kwargs A) :=
  match find (fun kv => existsb (String.eqb (fst kv)) explicit) extra with
  | Some kv => Err (duplicate (fst kv))
  | None =>
      if existsb (fun kv => existsb (String.eqb (fst kv)) params) extra then
        Err (TypeError "got multiple values for argument")
      else Ok (given ++ extra)
  end.

(** ** What lies outside the module *)

Class External (V Obj GTab Opt : Type) : Type := {
  (** [0.0] *)
  zero : V;
  (** the cast of numpy to single precision ([dtype="float32"]) *)
  as_float32 : V -> V;
  (** the exception of the interpreter for a keyword that [**kwargs] gives a
      second time in the call that makes a task: [TypeError] by the rules of
      the language; CPython 3.11 leaves the [KeyError] of the key when the
      call is evaluated while an exception is handled, as it is inside the
      executor of joblib *)
  duplicate_keyword : string -> exn;
  (** [model.fit(data)]; the value may be [None] *)
  model_fit : Obj -> ndarray V -> result (option Obj);
  (** [model.predict(gradient, S0=S0)] *)
  model_predict : Obj -> GTab -> option (ndarray V) -> result (ndarray V);
  (** [dipy.core.gradients.gradient_table(bvals, bvecs)] *)
  gradient_table : list V -> matrix V -> result GTab;
  (** [dipy.reconst.dti.TensorModel(gtab, **kwargs)] *)
  TensorModel : GTab -> kwargs Opt -> result Obj;
  (** [dipy.reconst.dki.DiffusionKurtosisModel(gtab, **kwargs)] *)
  DiffusionKurtosisModel : GTab -> kwargs Opt -> result Obj
}.

(** A method called on [None]. *)
Definition not_none {A : Type} (what : string) (o : option A) : result A :=
  match o with
  | Some a => Ok a
  | None => Err (AttributeError what)
  end.

Section Helpers.
Context {V Obj GTab Opt : Type} `{E : External V Obj GTab Opt}.

(** [_exec_fit] *)
Definition _exec_fit {B : Type} (model : option Obj) (data : ndarray V)
  (block : B) : result (option Obj * B) :=
  let* m := not_none "'NoneType' object has no attribute 'fit'" model in
  let* retval := model_fit m data in
  Ok (retval, block).

(** [_exec_predict]: [kw] is what the call binds to [**kwargs]. *)
Definition _exec_predict {B : Type} (model : option Obj) (gradient : GTab)
  (block : B) (kw : kwargs (option (ndarray V))) : result (ndarray V * B) :=
  let* m := not_none "'NoneType' object has no attribute 'predict'" model in
  let S0 := match kw_get "S0" kw with
            | Some v => v
            | None => None
            end in
  let* p := model_predict m gradient S0 in
  Ok (squeeze p, block).

(** [_rasb2dipy]: what is printed, and the table or the exception. *)
Definition _rasb2dipy (gradient : gradient_like V)
  : list string * result GTab :=
  let widened :=
    match gradient with
    | Vec v =>
        if negb (length v =? 4) then
          Err (ValueError "Missing gradient information.")
        else Ok (mk_mat (length v) 1 (map (fun x => [x]) v))
    | Mat m => Ok m
    end in
  match widened with
  | Err e => ([], Err e)
  | Ok g =>
      let '(g, out) :=
        if negb (nrows g =? 4) then (transpose g, [])
        else if (nrows g =? 4) && (ncols g =? 4) then
          (g, ["Warning: make sure gradient information is not transposed!"])
        else (g, []) in
      (out,
       let* bvals := row_at g 3 in
       gradient_table bvals (transpose (first_rows 3 g)))
  end.

End Helpers.

(** ** [BaseModel]: the chunked execution engine *)

Module BaseModel.
Section Engine.
Context {V Obj GTab Opt : Type} `{E : External V Obj GTab Opt}.

(** The slots of the object; [_datashape] has no value before the first
    [fit]. *)
Record t : Type := mk {
  _model : option Obj;
  _mask : option (ndarray bool);
  _S0 : option (ndarray V);
  _models : option (list (option Obj));
  _datashape : option (list nat)
}.

Definition set_model (self : t) (m : option Obj) : t :=
  mk m (_mask self) (_S0 self) (_models self) (_datashape self).

Definition set_models (self : t) (ms : option (list (option Obj))) : t :=
  mk (_model self) (_mask self) (_S0 self) ms (_datashape self).

Definition set_datashape (self : t) (sh : list nat) : t :=
  mk (_model self) (_mask self) (_S0 self) (_models self) (Some sh).

(** [__init__] *)
Definition init : t := mk None None None None None.

(** [n_jobs or 1] *)
Definition jobs_or_1 (n_jobs : option Z) : Z :=
  match n_jobs with
  | None => 1
  | Some 0%Z => 1
  | Some n => n
  end.

(** The voxels that take part: [data[mask, ...]], or all of them. *)
Definition select_voxels (self : t) (data : ndarray V) : result (ndarray V) :=
  match _mask self with
  | Some mask => bool_index data mask
  | None => reshape_rows data
  end.

(** [fit]: the object after the call, and whether the call raised. *)
Definition fit (self : t) (data : ndarray V) (n_jobs : option Z)
  : t * result unit :=
  let n_jobs := jobs_or_1 n_jobs in
  let self := set_datashape self (shape data) in
  match select_voxels self data with
  | Err e => (self, Err e)
  | Ok data =>
      if (n_jobs =? 1)%Z then
        match _exec_fit (_model self) data (@None nat) with
        | Err e => (self, Err e)
        | Ok (retval, _) => (set_model self retval, Ok tt)
        end
      else
        match array_split data n_jobs with
        | Err e => (self, Err e)
        | Ok data_chunks =>
            let blank := repeat (@None Obj) (Z.to_nat n_jobs) in
            let self := set_models self (Some blank) in
            match parallel (fun ib => _exec_fit (_model self) (snd ib) (fst ib))
                           (enumerate data_chunks) with
            | Err e => (self, Err e)
            | Ok results =>
                let self := set_models self (Some (store_results blank results)) in
                (set_model self None, Ok tt)
            end
        end
  end.

(** [len(self._models) if self._model is None and self._models else 1] *)
Definition n_models (self : t) : nat :=
  match _model self, _models self with
  | None, Some (m :: ms) => length (m :: ms)
  | _, _ => 1
  end.

(** The entries of a list all of whose places have been assigned. *)
Fixpoint assigned {A : Type} (l : list (option A)) : result (list A) :=
  match l with
  | [] => Ok []
  | Some a :: l' => let* r := assigned l' in Ok (a :: r)
  | None :: _ => Err (TypeError "unassigned block")
  end.

(** The prediction of every voxel, before it is put back in place. *)
Definition predict_voxels (self : t) (gradient : GTab)
  (kw : kwargs (option (ndarray V))) : result (ndarray V) :=
  let n_models := n_models self in
  if n_models =? 1 then
    let* kw' := call_with ["model"; "gradient"] [("S0", _S0 self)] kw in
    let* r := _exec_predict (_model self) gradient (@None nat)
                            (kw_remove "block" kw') in
    Ok (fst r)
  else
    let models := match _models self with Some ms => ms | None => [] end in
    let* S0 :=
      match _S0 self with
      | None => Ok (repeat None n_models)
      | Some s0 =>
          let* parts := array_split s0 (Z.of_nat n_models) in
          Ok (map Some parts)
      end in
    let* results :=
      parallel (fun im =>
                  let i := fst im in
                  let* kw' := delayed_with duplicate_keyword
                                ["model"; "gradient"] ["S0"; "block"]
                                [("S0", nth i S0 None)] kw in
                  let* r := _exec_predict (snd im) gradient i kw' in
                  Ok (Some (fst r), snd r))
               (enumerate models) in
    let* predicted := assigned (store_results (repeat None n_models) results) in
    hstack predicted.

(** The lines 166-172: the predictions put back in the volume.  Under a
    mask they are written into an array of single precision, which casts
    them. *)
Definition reassemble (self : t) (predicted : ndarray V)
  : result (ndarray V) :=
  match _mask self with
  | Some mask =>
      let retval := mk_nd (shape mask) (repeat zero (size_of (shape mask))) in
      mask_assign retval mask
                  (mk_nd (shape predicted) (map as_float32 (elems predicted)))
  | None =>
      let* sh := not_none "_datashape" (_datashape self) in
      reshape predicted (but_last sh)
  end.

(** [predict]: what is printed, and the prediction or the exception. *)
Definition predict (self : t) (gradient : gradient_like V)
  (kw : kwargs (option (ndarray V))) : list string * result (ndarray V) :=
  let '(out, g) := _rasb2dipy gradient in
  (out,
   let* gradient := g in
   let* predicted := predict_voxels self gradient kw in
   reassemble self predicted).

End Engine.
Arguments t : clear implicits.
End BaseModel.

(** ** [TrivialB0Model] *)

Module TrivialB0Model.
Section Trivial.
Context {G S K A : Type}.

Record t : Type := mk { _S0 : S }.

(** [__init__(self, gtab, S0=None, **kwargs)] *)
Definition init (gtab : G) (S0 : option S) (kw : kwargs K) : result t :=
  match S0 with
  | None => Err (ValueError "S0 must be provided")
  | Some s => Ok (mk s)
  end.

(** [fit(self, *args, **kwargs)]: the object after the call and the value
    returned, which is [None]. *)
Definition fit (self : t) (args : list A) (kw : kwargs K) : t * option S :=
  (self, None).

(** [predict(self, gradient, **kwargs)] *)
Definition predict (self : t) (gradient : G) (kw : kwargs K) : S :=
  _S0 self.

End Trivial.
Arguments t : clear implicits.
End TrivialB0Model.

(** ** Order statistics on exact numbers *)

Local Open Scope Q_scope.

Fixpoint insert_sorted (x : Q) (l : list Q) : list Q :=
  match l with
  | [] => [x]
  | y :: l' => if Qle_bool x y then x :: l else y :: insert_sorted x l'
  end.

Definition sort (l : list Q) : list Q := fold_right insert_sorted [] l.

Definition Qsum (l : list Q) : Q := fold_right Qplus 0 l.

Definition Qlt_bool (x y : Q) : bool := negb (Qle_bool y x).

Definition of_nat (n : nat) : Q := inject_Z (Z.of_nat n).

(** [numpy.mean] of a vector; the mean of an empty one is NaN. *)
Definition np_mean (l : list Q) : result Q :=
  match l with
  | [] => Err (NonFinite "mean of empty slice")
  | _ => Ok (Qsum l / of_nat (length l))
  end.

(** [numpy.median] of a vector: the middle entry of the sorted vector, or the
    mean of the two middle entries; the median of an empty one is NaN. *)
Definition np_median (l : list Q) : result Q :=
  match l with
  | [] => Err (NonFinite "median of empty slice")
  | _ =>
      let s := sort l in
      let n := length l in
      let h := (n / 2)%nat in
      if Nat.even n then Ok ((nth (h - 1) s 0 + nth h s 0) / 2)
      else Ok (nth h s 0)
  end.

(** [numpy.percentile(l, q)] with the default linear interpolation: the
    position [q/100 * (n - 1)] in the sorted vector, interpolated between its
    two neighbours; the percentile of an empty vector is NaN. *)
Definition np_percentile (l : list Q) (q : Q) : result Q :=
  match l with
  | [] => Err (NonFinite "percentile of empty selection")
  | _ =>
      let s := sort l in
      let n := length l in
      let pos := q / 100 * of_nat (n - 1) in
      let lo := Z.to_nat (Qfloor pos) in
      let hi := Nat.min (lo + 1) (n - 1) in
      let g := pos - of_nat lo in
      Ok (nth lo s 0 + g * (nth hi s 0 - nth lo s 0))
  end.

(** [numpy.clip(x, a_min, a_max)] *)
Definition clip (x a_min a_max : Q) : Q :=
  let y := if Qlt_bool x a_min then a_min else x in
  if Qlt_bool a_max y then a_max else y.

(** [a.max()] *)
Definition np_max (l : list Q) : result Q :=
  match l with
  | [] => Err (ValueError "zero-size array to reduction operation maximum which has no identity")
  | x :: l' => Ok (fold_left (fun m y => if Qlt_bool m y then y else m) l' x)
  end.

(** *** Numbers that may be NaN *)

Inductive float : Type :=
| Finite (q : Q)
| NaN.

(** A value of numpy that may be NaN: [None] stands for NaN; an exception
    stays one. *)
Definition or_nan {A : Type} (r : result A) : result (option A) :=
  match r with
  | Ok a => Ok (Some a)
  | Err (NonFinite _) => Ok None
  | Err e => Err e
  end.

Definition nan_map (sh : list nat) : ndarray float :=
  mk_nd sh (repeat NaN (size_of sh)).

Definition finite_map (a : ndarray Q) : ndarray float :=
  mk_nd (shape a) (map Finite (elems a)).

(** *** The cast to single precision

    [float32 x] is the number of single precision nearest to [x], the one
    with an even significand when two are as near: 24 significant bits, in
    steps of [2^-149] below [2^-126].  The exact numbers have no infinity:
    the steps go on above the largest number of single precision, and a
    magnitude that numpy casts to an infinity ([overflows32]) is beyond the
    embedding. *)

Definition round_half_even (x : Q) : Z :=
  let f := Qfloor x in
  match Qcompare (x - inject_Z f) (1 # 2) with
  | Lt => f
  | Gt => (f + 1)%Z
  | Eq => if Z.even f then f else (f + 1)%Z
  end.

(** The power of two at or below a positive number. *)
Definition binade (a : Q) : Z :=
  let e := (Z.log2 (Qnum a) - Z.log2 (Zpos (Qden a)))%Z in
  if Qle_bool (Qpower 2 e) a then e else (e - 1)%Z.

Definition float32 (x : Q) : Q :=
  if Qeq_bool x 0 then 0
  else
    let a := Qabs x in
    let quantum := Qpower 2 (Z.max (binade a) (-126) - 23) in
    let r := Qred (inject_Z (round_half_even (a / quantum)) * quantum) in
    if Qle_bool 0 x then r else Qopp r.

Definition overflows32 (x : Q) : bool :=
  Qle_bool (Qpower 2 128) (Qabs (float32 x)).

Local Close Scope Q_scope.

(** ** [AverageDWModel] *)

Module AverageDWModel.

(** The keyword arguments the constructor reads; [None]: not given. *)
Record options : Type := mk_options {
  th_low : option Q;
  th_high : option Q;
  bias : option bool;
  stat : option string
}.

(** The slots; [_data] has no value before [fit]. *)
Record t : Type := mk {
  _data : option (ndarray float);
  _th_low : Q;
  _th_high : Q;
  _bias : bool;
  _stat : string
}.

Definition get {A : Type} (o : option A) (default : A) : A :=
  match o with
  | Some a => a
  | None => default
  end.

(** [__init__(self, gtab, **kwargs)] *)
Definition init {G : Type} (gtab : G) (kw : options) : t :=
  mk None
     (get (th_low kw) (inject_Z 50))
     (get (th_high kw) (inject_Z 10000))
     (get (bias kw) true)
     (get (stat kw) "median").

(** The interval of b-values: [(gtab[3] >= th_low) & (gtab[3] <= th_high)],
    or every sample when no table is given. *)
Definition b_mask (self : t) (data : ndarray Q) (gtab : option (matrix Q))
  : result (list bool) :=
  match gtab with
  | Some g =>
      let* b := row_at g 3 in
      Ok (map (fun x => Qle_bool (_th_low self) x && Qle_bool x (_th_high self)) b)
  | None =>
      match last_dim (shape data) with
      | Some g => Ok (repeat true g)
      | None => Err (IndexError "tuple index out of range")
      end
  end.

(** The entries of a row whose flag is set. *)
Definition pick {A : Type} (flags : list bool) (row : list A) : list A :=
  map snd (filter (fun fx => fst fx) (combine flags row)).

(** [data[..., flags]] *)
Definition select_last {A : Type} (data : ndarray A) (flags : list bool)
  : result (ndarray A) :=
  match last_dim (shape data) with
  | None => Err (IndexError "too many indices for array")
  | Some g =>
      if length flags =? g then
        let outer := but_last (shape data) in
        Ok (mk_nd (outer ++ [count_true flags])
                  (concat (map (pick flags)
                               (rows_of g (size_of outer) (elems data)))))
      else Err (IndexError "boolean index did not match indexed array")
  end.

(** [c * d] entry by entry *)
Definition scale (row drift : list Q) : list Q :=
  map (fun cd => Qmult (fst cd) (snd cd)) (combine row drift).

(** The lines 248-252: the median of every sample over the three leading
    axes, the reference, the clamped centres, the drift and the rescaled
    samples.  On an array of three axes the medians are one number, and the
    assignment [centers[centers < 1.0] = reference] raises.  The value is
    [NonFinite] when the reference is NaN (no median is at least 1, or there
    is no voxel): every rescaled sample is then NaN. *)
Definition regress_out (shells : ndarray Q) : result (ndarray Q) :=
  if ndim shells <? 3 then
    Err (AxisError "axis 2 is out of bounds for array")
  else if ndim shells =? 3 then
    Err (TypeError "'numpy.float64' object does not support item assignment")
  else
    let space := size_of (firstn 3 (shape shells)) in
    let width := size_of (skipn 3 (shape shells)) in
    let rows := rows_of width space (elems shells) in
    let* centers :=
      map_result (fun j => np_median (column j rows)) (seq 0 width) in
    let* reference :=
      np_percentile (filter (fun c => Qle_bool 1 c) centers) (inject_Z 75) in
    let centers :=
      map (fun c => if Qlt_bool c 1 then reference else c) centers in
    let drift := map (fun c => Qdiv reference c) centers in
    Ok (mk_nd (shape shells) (concat (map (fun r => scale r drift) rows))).

(** [numpy.median if self._stat == "median" else numpy.mean] *)
Definition avg_func (self : t) : list Q -> result Q :=
  if String.eqb (_stat self) "median" then np_median else np_mean.

(** [avg_func(shells, axis=-1)]; the value is [NonFinite] when a voxel has
    no sample to average: the average of every voxel is then NaN. *)
Definition average (self : t) (shells : ndarray Q) : result (ndarray Q) :=
  match last_dim (shape shells) with
  | None => Err (AxisError "axis -1 is out of bounds for array of dimension 0")
  | Some g =>
      let outer := but_last (shape shells) in
      let* vals :=
        map_result (avg_func self) (rows_of g (size_of outer) (elems shells)) in
      Ok (mk_nd outer vals)
  end.

(** The lines 246-257: the map of the selected samples.  numpy goes on with
    NaN: when the reference is NaN every sample is, and so is the average of
    every voxel; the average of no sample is NaN as well. *)
Definition summarize (self : t) (shells : ndarray Q) : result (ndarray float) :=
  let outer := but_last (shape shells) in
  let* corrected :=
    if _bias self then or_nan (regress_out shells) else Ok (Some shells) in
  match corrected with
  | Some shells =>
      let* averaged := or_nan (average self shells) in
      Ok match averaged with
         | Some a => finite_map a
         | None => nan_map outer
         end
  | None => Ok (nan_map outer)
  end.

(** The lines 237-257: the map that [fit] computes. *)
Definition average_map (self : t) (data : ndarray Q) (gtab : option (matrix Q))
  : result (ndarray float) :=
  let* flags := b_mask self data gtab in
  let* shells := select_last data flags in
  summarize self shells.

(** [fit(self, data, **kwargs)]; [gtab] is [kwargs.pop("gtab", None)]. *)
Definition fit (self : t) (data : ndarray Q) (gtab : option (matrix Q))
  : t * result unit :=
  match average_map self data gtab with
  | Ok d => (mk (Some d) (_th_low self) (_th_high self) (_bias self) (_stat self),
             Ok tt)
  | Err e => (self, Err e)
  end.

(** [predict(self, gradient, **kwargs)] *)
Definition predict {G K : Type} (self : t) (gradient : G) (kw : kwargs K)
  : result (ndarray float) :=
  not_none "_data" (_data self).

End AverageDWModel.

(** ** The wrapped tensor and kurtosis models *)

(** An entry of [numpy.clip(S0.astype("float32") / S0.max(), a_min=1e-5,
    a_max=1.0)], for the maximum [top]: the entry is cast, divided and
    clipped.  The quotient of zero by zero is NaN, and stays so; an infinite
    quotient (of a cast that overflows, or by zero) is clipped to the bound
    on its side. *)
Definition normalized (top x : Q) : float :=
  let y := float32 x in
  if Qeq_bool top 0 && Qeq_bool y 0 then NaN
  else if overflows32 x || Qeq_bool top 0 then
    Finite (if Bool.eqb (Qlt_bool y 0) (Qlt_bool top 0) then 1%Q
            else (1 # 100000)%Q)
  else Finite (clip (Qdiv y top) (1 # 100000) 1).

Definition normalize_S0 (S0 : ndarray Q) : result (ndarray float) :=
  let* top := np_max (elems S0) in
  Ok (mk_nd (shape S0) (map (normalized top) (elems S0))).

(** The entries when none is NaN. *)
Definition finite_entries (l : list float) : option (list Q) :=
  fold_right (fun v acc =>
                match v, acc with
                | Finite q, Some qs => Some (q :: qs)
                | _, _ => None
                end)
             (Some []) l.

(** [S0 > numpy.percentile(S0, 35)]: the percentile of entries among which
    one is NaN is NaN, as is the percentile of no entry, and no entry is
    above NaN. *)
Definition percentile_mask (S0 : ndarray float) : ndarray bool :=
  mk_nd (shape S0)
        match finite_entries (elems S0) with
        | Some values =>
            match np_percentile values (inject_Z 35) with
            | Ok p => map (fun x => Qlt_bool p x) values
            | Err _ => map (fun _ => false) (elems S0)
            end
        | None => map (fun _ => false) (elems S0)
        end.

(** The baseline that is stored.  The numbers of the engine have no NaN: a
    baseline that holds one is beyond the embedding. *)
Definition finite_array (a : ndarray float) : result (ndarray Q) :=
  match finite_entries (elems a) with
  | Some values => Ok (mk_nd (shape a) values)
  | None => Err (NonFinite "the baseline holds NaN")
  end.

Definition allowed_options : list string :=
  ["min_signal"; "return_S0_hat"; "fit_method"; "weighting"; "sigma"; "jac"].

Module DTIModel.
Section DTI.
Context {Obj GTab Opt : Type} `{E : External Q Obj GTab Opt}.

(** [__init__(self, gtab, S0=None, mask=None, **kwargs)] *)
Definition init (gtab : GTab) (S0 : option (ndarray Q))
  (mask : option (ndarray bool)) (kw : kwargs Opt)
  : result (BaseModel.t Q Obj) :=
  let* _S0 :=
    match S0 with
    | Some s => let* s' := normalize_S0 s in Ok (Some s')
    | None => Ok None
    end in
  (* [mask > 0] keeps a boolean mask *)
  let _mask := mask in
  let _mask :=
    match _mask, _S0 with
    | None, Some s => Some (percentile_mask s)
    | _, _ => _mask
    end in
  let* _S0 :=
    match _S0 with
    | Some s =>
        match _mask with
        | Some m =>
            let* s' := bool_index s m in
            let* s' := finite_array s' in Ok (Some s')
        | None =>   (* [a[None]] *)
            let* s' := finite_array (mk_nd (1 :: shape s) (elems s)) in
            Ok (Some s')
        end
    | None => Ok None
    end in
  let* model := TensorModel gtab (kw_only allowed_options kw) in
  Ok (BaseModel.mk (Some model) _mask _S0 None None).

(** [predict(self, gradient, **kwargs)]: [super().predict(gradient)] *)
Definition predict (self : BaseModel.t Q Obj) (gradient : gradient_like Q)
  (kw : kwargs (option (ndarray Q))) : list string * result (ndarray Q) :=
  BaseModel.predict self gradient [].

End DTI.
End DTIModel.

Module DKIModel.
Section DKI.
Context {Obj GTab Opt : Type} `{E : External Q Obj GTab Opt}.

(** [__init__(self, gtab, S0=None, mask=None, **kwargs)] *)
Definition init (gtab : GTab) (S0 : option (ndarray Q))
  (mask : option (ndarray bool)) (kw : kwargs Opt)
  : result (BaseModel.t Q Obj) :=
  let* _S0 :=
    match S0 with
    | Some s => let* s' := normalize_S0 s in Ok (Some s')
    | None => Ok None
    end in
  let _mask := mask in
  let _mask :=
    match mask, S0, _S0 with
    | None, Some _, Some s => Some (percentile_mask s)
    | _, _, _ => _mask
    end in
  let* _S0 :=
    match _mask with
    | Some m =>
        (* [mask.astype(bool)] keeps a boolean mask *)
        match _S0 with
        | Some s =>
            let* s' := bool_index s m in
            let* s' := finite_array s' in Ok (Some s')
        | None => Err (TypeError "'NoneType' object is not subscriptable")
        end
    | None =>
        match _S0 with
        | Some s => let* s' := finite_array s in Ok (Some s')
        | None => Ok None
        end
    end in
  let* model := DiffusionKurtosisModel gtab (kw_only allowed_options kw) in
  Ok (BaseModel.mk (Some model) _mask _S0 None None).

End DKI.
End DKIModel.

(** ** Notions of the specification *)

(** From the specification: the array is cut into [n] contiguous blocks of
    rows, and the first [len mod n] blocks get one row more than the
    others. *)
Definition block_size (N n i : nat) : nat :=
  N / n + (if i <? N mod n then 1 else 0).

Definition block_start (N n i : nat) : nat :=
  i * (N / n) + Nat.min i (N mod n).

Definition spec_block {A : Type} (ary : ndarray A) (n i : nat) : ndarray A :=
  let N := hd 0 (shape ary) in
  let w := size_of (tl (shape ary)) in
  mk_nd (block_size N n i :: tl (shape ary))
        (slice (elems ary) (block_start N n i * w)
               ((block_start N n i + block_size N n i) * w)).

Definition spec_blocks {A : Type} (ary : ndarray A) (n : nat)
  : list (ndarray A) :=
  map (spec_block ary n) (seq 0 n).

(** The prediction in [n] blocks: block [i] is predicted by the [i]-th
    fitted model, which is given the [i]-th of the [n] blocks of the
    baseline, and the predictions are joined in the order of the blocks. *)
Definition spec_block_prediction {V Obj GTab Opt : Type}
  `{E : External V Obj GTab Opt}
  (models : list (option Obj)) (S0 : option (ndarray V)) (gradient : GTab)
  (n i : nat) : result (ndarray V) :=
  let* m := not_none "'NoneType' object has no attribute 'predict'"
                     (nth i models None) in
  let* p := model_predict m gradient
              (option_map (fun s => spec_block s n i) S0) in
  Ok (squeeze p).

Definition spec_chunked_prediction {V Obj GTab Opt : Type}
  `{E : External V Obj GTab Opt}
  (models : list (option Obj)) (S0 : option (ndarray V)) (gradient : GTab)
  (n : nat) : result (ndarray V) :=
  let* parts := map_result (spec_block_prediction models S0 gradient n)
                           (seq 0 n) in
  hstack parts.

(** The prediction in one piece: the single model predicts every voxel, and
    is given the whole baseline. *)
Definition spec_serial_prediction {V Obj GTab Opt : Type}
  `{E : External V Obj GTab Opt}
  (model : option Obj) (S0 : option (ndarray V)) (gradient : GTab)
  : result (ndarray V) :=
  let* m := not_none "'NoneType' object has no attribute 'predict'" model in
  let* p := model_predict m gradient S0 in
  Ok (squeeze p).

(** A baseline that can be cut into blocks: none, or an array that has an
    axis. *)
Definition splittable {V : Type} (S0 : option (ndarray V)) : bool :=
  match S0 with
  | Some s0 => negb (ndim s0 =? 0)
  | None => true
  end.



Definition drift_of (centers : list Q) (reference : Q) : list Q :=
  map (fun c => Qdiv reference (if Qlt_bool c 1 then reference else c)) centers.






(** The statistics of numpy stop with nothing but a NaN. *)
Definition nan_only {A : Type} (r : result A) : Prop :=
  forall e : exn, r = Err e -> exists msg : string, e = NonFinite msg.

(** The baseline of every one of [k] voxels: an entry of [S0], or none. *)
Definition baselines {A : Type} (S0 : option (ndarray A)) (k : nat)
  : list (option A) :=
  match S0 with
  | Some a => map Some (elems a)
  | None => repeat None k
  end.

(** The value of every voxel of a block of [k] voxels with [w] samples
    each, when a voxel is worth [F] of the gradient, its samples and its
    baseline. *)
Definition voxel_values {V G : Type} (F : G -> list V -> option V -> V)
  (g : G) (k w : nat) (samples : list V) (S0 : option (ndarray V)) : list V :=
  map (fun rs => F g (fst rs) (snd rs))
      (combine (rows_of w k samples) (baselines S0 k)).

(** A model computes voxel by voxel when fitting it on a block of voxels
    ([train]) and predicting gives, for every voxel of the block, a value [F]
    of the gradient, the samples of that voxel and its baseline alone. *)
Definition voxelwise {V Obj GTab Opt : Type} `{E : External V Obj GTab Opt}
  (m : Obj) (train : ndarray V -> Obj) (F : GTab -> list V -> option V -> V)
  : Prop :=
  forall (block : ndarray V) (k w : nat),
    shape block = [k; w] ->
    model_fit m block = Ok (Some (train block)) /\
    forall (g : GTab) (S0 : option (ndarray V)),
      length (baselines S0 k) = k ->
      model_predict (train block) g S0 =
        Ok (mk_nd [k; 1] (voxel_values F g k w (elems block) S0)).

(** A baseline with one entry for each of [N] voxels, or no baseline. *)
Definition baseline_fits {V : Type} (S0 : option (ndarray V)) (N : nat) : Prop :=
  match S0 with
  | None => True
  | Some s0 => shape s0 = [N] /\ length (elems s0) = N
  end.

(** How many voxels of the mask come before position [i]. *)
Definition rank (flags : list bool) (i : nat) : nat :=
  count_true (firstn i flags).

(** The baseline of the session under a mask is that of the session without
    one, at the voxels of the mask. *)
Definition restricted {V : Type} (mask : ndarray bool)
  (masked whole : option (ndarray V)) : Prop :=
  match masked, whole with
  | None, None => True
  | Some sm, Some su =>
      shape su = [length (elems mask)]
      /\ length (elems su) = length (elems mask)
      /\ shape sm = [count_true (elems mask)]
      /\ elems sm = AverageDWModel.pick (elems mask) (elems su)
  | _, _ => False
  end.

(** ** A small model library to run the engine on

    [fit] keeps the rows of the block it is given; [predict] gives, for every
    row, the sum of its samples plus the baseline of the voxel.  With
    [strict] set, [fit] refuses a block without rows, the way a numerical fit
    is singular on a degenerate block.  The cast is [float32], and a keyword
    given twice to a task is reported as CPython 3.11 does, with
    [KeyError]. *)

Module Toy.

(** The values of options: [None], a number, a string, a truth value, an
    array, a mask, a class. *)
Inductive opt : Type :=
| ONone
| ONumber (q : Q)
| OString (s : string)
| OBool (b : bool)
| OArray (a : ndarray Q)
| OMask (m : ndarray bool)
| OClass (name : string).

(** A model: as yet unconfigured, constructed by a class of the library with
    its options, or fitted. *)
Inductive obj : Type :=
| Untrained
| Configured (class : string) (options : kwargs opt)
| Trained (rows : list (list Q)).

Definition gtab : Type := (list Q * matrix Q)%type.

Definition value (row : list Q) (s0 : option Q) : Q :=
  match s0 with
  | Some x => Qplus (Qsum row) x
  | None => Qsum row
  end.

Definition toy_fit (strict : bool) (m : obj) (data : ndarray Q)
  : result (option obj) :=
  match shape data with
  | [k; w] =>
      if strict && (k =? 0) then Err (ExternalError "singular fit")
      else Ok (Some (Trained (rows_of w k (elems data))))
  | _ => Err (ExternalError "expected a two-dimensional array")
  end.

Definition toy_predict (m : obj) (g : gtab) (S0 : option (ndarray Q))
  : result (ndarray Q) :=
  match m with
  | Untrained | Configured _ _ => Err (ExternalError "model is not fitted")
  | Trained rows =>
      Ok (mk_nd [length rows; 1]
                (map (fun rs => value (fst rs) (snd rs))
                     (combine rows (baselines S0 (length rows)))))
  end.

Definition train (data : ndarray Q) : obj :=
  Trained (rows_of (nth 1 (shape data) 0) (hd 0 (shape data)) (elems data)).

Definition library (strict : bool) : External Q obj gtab opt := {|
  zero := 0%Q;
  as_float32 := float32;
  duplicate_keyword := KeyError;
  model_fit := toy_fit strict;
  model_predict := toy_predict;
  gradient_table := fun bvals bvecs => Ok (bvals, bvecs);
  TensorModel := fun _ kw => Ok (Configured "TensorModel" kw);
  DiffusionKurtosisModel := fun _ kw => Ok (Configured "DiffusionKurtosisModel" kw)
|}.

(** A model that is not voxel by voxel: every voxel of a block gets the sum
    of all the samples of the block, a statistic of the whole block. *)
Definition global_predict (m : obj) (g : gtab) (S0 : option (ndarray Q))
  : result (ndarray Q) :=
  match m with
  | Untrained | Configured _ _ => Err (ExternalError "model is not fitted")
  | Trained rows =>
      Ok (mk_nd [length rows; 1]
                (map (fun _ => Qsum (concat rows)) rows))
  end.

Definition global_library : External Q obj gtab opt := {|
  zero := 0%Q;
  as_float32 := float32;
  duplicate_keyword := KeyError;
  model_fit := toy_fit false;
  model_predict := global_predict;
  gradient_table := fun bvals bvecs => Ok (bvals, bvecs);
  TensorModel := fun _ kw => Ok (Configured "TensorModel" kw);
  DiffusionKurtosisModel := fun _ kw => Ok (Configured "DiffusionKurtosisModel" kw)
|}.

Definition fresh : BaseModel.t Q obj :=
  BaseModel.mk (Some Untrained) None None None None.

Definition z (n : Z) : Q := inject_Z n.

(** A volume of extent 2 x 1 x 3 with two samples per voxel. *)
Definition volume : ndarray Q :=
  mk_nd [2; 1; 3; 2]
        (map z [1; 2; 3; 4; 5; 6; 7; 8; 9; 10; 11; 12]%Z).

Definition mask : ndarray bool :=
  mk_nd [2; 1; 3] [true; false; true; true; false; false].

Definition one_gradient : gradient_like Q := Vec (map z [1; 0; 0; 1000]%Z).

(** Two voxels with three samples each, and the table of the three
    gradients: the rows are the components of the b-vectors and, last, the
    b-values. *)
Definition dwi : ndarray Q :=
  mk_nd [1; 1; 2; 3] (map z [100; 20; 30; 200; 50; 60]%Z).


(** A baseline on the six voxels of [volume]. *)
Definition baseline : ndarray Q :=
  mk_nd [2; 1; 3] (map z [0; 50; 100; 200; 150; 25]%Z).

End Toy.

(** ** [_model_fit] *)

Definition _model_fit {V Obj GTab Opt : Type} `{E : External V Obj GTab Opt}
  (model : option Obj) (data : ndarray V) : result (option Obj) :=
  let* m := not_none "'NoneType' object has no attribute 'fit'" model in
  model_fit m data.

(** ** The rest of the modelling library, and the values of options

    [SparseFascicleModel] and [ModelFactory] reach further into DIPY, and
    write options of their own: numbers, strings and classes.  [Opt] is the
    type of the values of options; the class says how the values this module
    writes or passes on are made. *)

Class Reconst (Obj GTab Opt : Type) : Type := {
  (** [dipy.reconst.shore.ShoreModel(gtab, **kwargs)] *)
  ShoreModel : GTab -> kwargs Opt -> result Obj;
  (** [dipy.reconst.sfm.SparseFascicleModel(gtab, **kwargs)] *)
  DipySparseFascicleModel : GTab -> kwargs Opt -> result Obj;
  (** [check_multi_b(gtab, 2, non_zero=False)] *)
  check_multi_b : GTab -> bool;
  (** a number, a string, a truth value, [None], an array, a class *)
  of_number : Q -> Opt;
  of_string : string -> Opt;
  of_bool : bool -> Opt;
  of_none : Opt;
  (** [v is None] *)
  is_none : Opt -> bool;
  of_array : ndarray Q -> Opt;
  of_mask : ndarray bool -> Opt;
  GaussianProcessRegressor : Opt;
  ExponentialIsotropicModel : Opt
}.

(** ** [SparseFascicleModel] *)

Module SparseFascicleModel.
Section SFM.
Context {Obj GTab Opt : Type} `{E : External Q Obj GTab Opt}
        `{R : Reconst Obj GTab Opt}.

(** The slots of [BaseModel] and [_solver]. *)
Record t : Type := mk {
  base : BaseModel.t Q Obj;
  _solver : Opt
}.

(** [__init__(self, gtab, S0=None, mask=None, solver=None, **kwargs)]; [kw]
    holds the keywords of the call other than [S0] and [mask]: the keyword
    [solver], when present, is bound to the parameter and the others to
    [**kwargs]. *)
Definition init (gtab : GTab) (S0 : option (ndarray Q))
  (mask : option (ndarray bool)) (kw : kwargs Opt) : result t :=
  let solver := kw_get "solver" kw in
  let kwargs := kw_remove "solver" kw in
  let* _S0 :=
    match S0 with
    | Some s => let* s' := normalize_S0 s in Ok (Some s')
    | None => Ok None
    end in
  let _mask := mask in
  let _mask :=
    match mask, S0, _S0 with
    | None, Some _, Some s => Some (percentile_mask s)
    | _, _, _ => _mask
    end in
  let* _S0 :=
    match _mask with
    | Some m =>
        match _S0 with
        | Some s =>
            let* s' := bool_index s m in
            let* s' := finite_array s' in Ok (Some s')
        | None => Err (TypeError "'NoneType' object is not subscriptable")
        end
    | None =>
        match _S0 with
        | Some s => let* s' := finite_array s in Ok (Some s')
        | None => Ok None
        end
    end in
  let _solver :=
    match solver with
    | Some s => if is_none s then of_string "ElasticNet" else s
    | None => of_string "ElasticNet"
    end in
  let kwargs := kw_only ["solver"] kwargs in
  let* model := DipySparseFascicleModel gtab kwargs in
  Ok (mk (BaseModel.mk (Some model) _mask _S0 None None) _solver).

End SFM.
Arguments t : clear implicits.
End SparseFascicleModel.

(** ** [ModelFactory] *)

(** [s.lower()], on a string given by its bytes in UTF-8, as far as the
    comparisons of the factory with its ASCII names go.  The letters [A] to
    [Z] are lowered; so is the Kelvin sign (U+212A, the bytes 226, 132, 170),
    the one character outside ASCII whose lower case is an ASCII string, the
    letter [k].  Every other character outside ASCII is left as it is: its
    lower case has a character outside ASCII as well, and no letter of
    ["3dshore"]. *)
Definition lower_ascii (c : Ascii.ascii) : Ascii.ascii :=
  let n := Ascii.nat_of_ascii c in
  if (65 <=? n) && (n <=? 90) then Ascii.ascii_of_nat (n + 32) else c.

Definition is_kelvin (c0 c1 c2 : Ascii.ascii) : bool :=
  (Ascii.nat_of_ascii c0 =? 226) && (Ascii.nat_of_ascii c1 =? 132)
  && (Ascii.nat_of_ascii c2 =? 170).

Fixpoint lower (s : string) : string :=
  match s with
  | EmptyString => EmptyString
  | String c s' =>
      match s' with
      | String c1 (String c2 s'') =>
          if is_kelvin c c1 c2
          then String (Ascii.ascii_of_nat 107) (lower s'')
          else String (lower_ascii c) (lower s')
      | _ => String (lower_ascii c) (lower s')
      end
  end.

(** [k in names] *)
Definition among (k : string) (names : list string) : bool :=
  existsb (String.eqb k) names.

(** [d[k] = v] on a dictionary *)
Fixpoint kw_set {A : Type} (k : string) (v : A) (kw : kwargs A) : kwargs A :=
  match kw with
  | [] => [(k, v)]
  | (k', v') :: kw' =>
      if String.eqb k k' then (k, v) :: kw' else (k', v') :: kw_set k v kw'
  end.

(** [d.update(other)] *)
Definition kw_update {A : Type} (d other : kwargs A) : kwargs A :=
  fold_left (fun acc kv => kw_set (fst kv) (snd kv) acc) other d.

Module ModelFactory.
Section Factory.
Context {Obj GTab Opt : Type} `{E : External Q Obj GTab Opt}
        `{R : Reconst Obj GTab Opt}.

(** The keyword arguments of [init]: the baseline and the mask, each absent,
    [None] or an array; the options that the average model reads; and every
    other keyword, by name ([gtab] and [model] are parameters of [init], and
    cannot be among them). *)
Record keywords : Type := mk_keywords {
  kw_S0 : option (option (ndarray Q));
  kw_mask : option (option (ndarray bool));
  kw_average : AverageDWModel.options;
  kw_other : kwargs Opt
}.

(** What [init] raises: an exception of a call it makes, or one of the two
    it raises itself. *)
Inductive raised : Type :=
| Raised (e : exn)
| KeyError (key : string)
| NotImplementedError (msg : string).

Inductive outcome (A : Type) : Type :=
| Returns (a : A)
| Raises (r : raised).

(** The outcome of a call that [init] makes and whose value it wraps. *)
Definition wrap {A B : Type} (f : A -> B) (r : result A) : outcome B :=
  match r with
  | Ok a => Returns (f a)
  | Err e => Raises _ (Raised e)
  end.

(** What [init] returns. *)
Inductive model : Type :=
| Trivial (m : TrivialB0Model.t (ndarray Q))
| Average (m : AverageDWModel.t)
| Shore (m : Obj)
| Sparse (m : SparseFascicleModel.t Obj Opt)
| Tensor (m : BaseModel.t Q Obj)
| Kurtosis (m : BaseModel.t Q Obj).

Definition entry {A : Type} (k : string) (f : A -> Opt) (o : option A)
  : kwargs Opt :=
  match o with
  | Some a => [(k, f a)]
  | None => []
  end.

Definition or_none {A : Type} (f : A -> Opt) (o : option A) : Opt :=
  match o with
  | Some a => f a
  | None => of_none
  end.

(** The keywords that are not bound to the parameters [S0] and [mask]. *)
Definition unbound (kw : keywords) : kwargs Opt :=
  entry "th_low" of_number (AverageDWModel.th_low (kw_average kw))
  ++ entry "th_high" of_number (AverageDWModel.th_high (kw_average kw))
  ++ entry "bias" of_bool (AverageDWModel.bias (kw_average kw))
  ++ entry "stat" of_string (AverageDWModel.stat (kw_average kw))
  ++ kw_other kw.

(** All the keywords, as a dictionary. *)
Definition as_dict (kw : keywords) : kwargs Opt :=
  entry "S0" (or_none of_array) (kw_S0 kw)
  ++ entry "mask" (or_none of_mask) (kw_mask kw)
  ++ unbound kw.

(** A parameter with the default [None]. *)
Definition bound {A : Type} (o : option (option A)) : option A :=
  match o with
  | Some v => v
  | None => None
  end.

(** A constructor of this module called with [**kwargs]: a keyword named
    [self] collides with the object itself. *)
Definition construct {A : Type} (kw : keywords) (r : outcome A) : outcome A :=
  if kw_has "self" (kw_other kw) then
    Raises _ (Raised (TypeError "got multiple values for argument"))
  else r.

(** [init(gtab, model="DTI", **kwargs)]: what is printed, and the model or
    the exception. *)
Definition init (gtab : gradient_like Q) (name : string) (kw : keywords)
  : list string * outcome model :=
  if among (lower name) ["s0"; "b0"] then
    ([],
     match kw_S0 kw with
     | None => Raises _ (KeyError "S0")
     | Some S0 => wrap Trivial (TrivialB0Model.init gtab S0 (@nil (string * Opt)))
     end)
  else if among (lower name) ["avg"; "average"; "mean"] then
    ([], construct kw
           (Returns (Average (AverageDWModel.init gtab (kw_average kw)))))
  else
    let '(out, g) := _rasb2dipy gtab in
    (out,
     match g with
     | Err e => Raises _ (Raised e)
     | Ok gtab =>
         if String.prefix "3dshore" (lower name) then
           let param :=
             [("radial_order", of_number (inject_Z 6));
              ("zeta", of_number (inject_Z 700));
              ("lambdaN", of_number (1 # 100000000));
              ("lambdaL", of_number (1 # 100000000))] in
           wrap Shore (ShoreModel gtab (kw_update param (as_dict kw)))
         else if among (lower name) ["sfm"; "gp"] then
           let param := [("solver", of_string "ElasticNet")] in
           let param :=
             if String.eqb (lower name) "gp"
             then [("solver", GaussianProcessRegressor)] else param in
           let param :=
             if check_multi_b gtab
             then kw_update param [("isotropic", ExponentialIsotropicModel)]
             else param in
           construct kw
             (wrap Sparse
                (SparseFascicleModel.init gtab (bound (kw_S0 kw))
                   (bound (kw_mask kw)) (kw_update param (unbound kw))))
         else if among (lower name) ["dti"; "dki"] then
           if String.eqb (lower name) "dti" then
             construct kw
               (wrap Tensor
                  (DTIModel.init gtab (bound (kw_S0 kw)) (bound (kw_mask kw))
                     (unbound kw)))
           else
             construct kw
               (wrap Kurtosis
                  (DKIModel.init gtab (bound (kw_S0 kw)) (bound (kw_mask kw))
                     (unbound kw)))
         else
           Raises _ (NotImplementedError
                       ("Unsupported model <" ++ name ++ ">."))
     end).

End Factory.
Arguments Returns {A} a.
Arguments Raises {A} r.
End ModelFactory.

(** ** Notions for the further properties *)

(** Keyword arguments none of which is named like a parameter of
    [_exec_predict]. *)
Definition harmless {A : Type} (kw : kwargs A) : bool :=
  forallb (fun kv => negb (among (fst kv) ["S0"; "model"; "gradient"; "block"]))
          kw.

(** The names that [ModelFactory.init] knows. *)
Definition supported (name : string) : bool :=
  among (lower name)
        ["s0"; "b0"; "avg"; "average"; "mean"; "sfm"; "gp"; "dti"; "dki"]
  || String.prefix "3dshore" (lower name).

(** The rest of the small library: a class keeps its options, and a table
    is multi-shell when it holds two gradients at least. *)
Definition toy_reconst : Reconst Toy.obj Toy.gtab Toy.opt := {|
  ShoreModel := fun _ kw => Ok (Toy.Configured "ShoreModel" kw);
  DipySparseFascicleModel :=
    fun _ kw => Ok (Toy.Configured "SparseFascicleModel" kw);
  check_multi_b := fun g => 2 <=? length (fst g);
  of_number := Toy.ONumber;
  of_string := Toy.OString;
  of_bool := Toy.OBool;
  of_none := Toy.ONone;
  is_none := fun v => match v with Toy.ONone => true | _ => false end;
  of_array := Toy.OArray;
  of_mask := Toy.OMask;
  GaussianProcessRegressor := Toy.OClass "GaussianProcessRegressor";
  ExponentialIsotropicModel := Toy.OClass "ExponentialIsotropicModel"
|}.

(** * Properties *)

(** ** Lists, results and slices *)

Lemma map_result_ok {A B : Type} (f : A -> result B) (g : A -> B) (xs : list A) :
  (forall x, In x xs -> f x = Ok (g x)) ->
  map_result f xs = Ok (map g xs).
Proof.
  induction xs as [|x xs IH]; intros H; simpl.
  - reflexivity.
  - rewrite (H x (or_introl eq_refl)). simpl.
    rewrite IH by (intros y Hy; apply H; right; exact Hy).
    reflexivity.
Qed.

Lemma map_result_ext {A B : Type} (f h : A -> result B) (xs : list A) :
  (forall x, f x = h x) -> map_result f xs = map_result h xs.
Proof.
  intros H. induction xs as [|x xs IH]; simpl; [reflexivity|].
  rewrite H, IH. reflexivity.
Qed.

Lemma map_result_length {A B : Type} (f : A -> result B) (xs : list A) ys :
  map_result f xs = Ok ys -> length ys = length xs.
Proof.
  revert ys. induction xs as [|x xs IH]; intros ys; simpl.
  - intros [= <-]. reflexivity.
  - destruct (f x) as [y|e]; simpl; [|discriminate].
    destruct (map_result f xs) as [zs|e]; simpl; [|discriminate].
    intros [= <-]. simpl. f_equal. apply IH. reflexivity.
Qed.

Lemma set_item_app {A : Type} (pre : list A) (t : A) (post : list A) (x : A) :
  set_item (pre ++ t :: post) (length pre) x = pre ++ x :: post.
Proof.
  induction pre as [|p pre IH]; simpl.
  - reflexivity.
  - rewrite IH. reflexivity.
Qed.

Lemma store_results_from {A : Type} (vals pre target : list A) :
  length target = length vals ->
  store_results (pre ++ target) (combine vals (seq (length pre) (length vals)))
  = pre ++ vals.
Proof.
  revert pre target.
  induction vals as [|v vals IH]; intros pre target Hlen.
  - destruct target; [reflexivity | discriminate].
  - destruct target as [|t target]; [discriminate|].
    simpl in Hlen. injection Hlen as Hlen.
    unfold store_results in *. simpl.
    rewrite set_item_app.
    change (pre ++ v :: target) with (pre ++ [v] ++ target).
    rewrite app_assoc.
    replace (S (length pre)) with (length (pre ++ [v]))
      by (rewrite length_app; simpl; lia).
    rewrite IH by exact Hlen.
    rewrite <- app_assoc. reflexivity.
Qed.

(** Storing every result at the index it carries gives the results in the
    order of the blocks. *)
Lemma store_results_enumerated {A : Type} (vals target : list A) :
  length target = length vals ->
  store_results target (combine vals (seq 0 (length vals))) = vals.
Proof.
  intros H. exact (store_results_from vals [] target H).
Qed.

Lemma store_results_seq {A : Type} (vals target : list A) (n : nat) :
  length vals = n -> length target = n ->
  store_results target (combine vals (seq 0 n)) = vals.
Proof.
  intros <- H. apply store_results_enumerated. exact H.
Qed.

Lemma rows_of_length {A : Type} (w k : nat) (l : list A) :
  length (rows_of w k l) = k.
Proof.
  revert l. induction k as [|k IH]; intros l; simpl; [reflexivity|].
  rewrite IH. reflexivity.
Qed.

Lemma rows_of_firstn {A : Type} (w k : nat) (l : list A) :
  rows_of w k (firstn (k * w) l) = rows_of w k l.
Proof.
  revert l. induction k as [|k IH]; intros l; simpl; [reflexivity|].
  rewrite firstn_firstn.
  replace (Nat.min w (w + k * w)) with w by lia.
  f_equal.
  rewrite skipn_firstn_comm.
  replace (w + k * w - w) with (k * w) by lia.
  apply IH.
Qed.

Lemma rows_of_skipn {A : Type} (w st k : nat) (l : list A) :
  skipn st (rows_of w (st + k) l) = rows_of w k (skipn (st * w) l).
Proof.
  revert l. induction st as [|st IH]; intros l; simpl.
  - reflexivity.
  - rewrite IH. rewrite skipn_skipn. f_equal. f_equal. lia.
Qed.

Lemma rows_of_take {A : Type} (w k r : nat) (l : list A) :
  firstn k (rows_of w (k + r) l) = rows_of w k l.
Proof.
  revert l. induction k as [|k IH]; intros l; simpl; [reflexivity|].
  rewrite IH. reflexivity.
Qed.

(** The rows of a run of whole rows are a run of the rows. *)
Lemma rows_of_slice {A : Type} (w N st k : nat) (l : list A) :
  st + k <= N ->
  rows_of w k (slice l (st * w) ((st + k) * w))
  = slice (rows_of w N l) st (st + k).
Proof.
  intros H. unfold slice.
  replace ((st + k) * w - st * w) with (k * w) by nia.
  replace (st + k - st) with k by lia.
  rewrite rows_of_firstn.
  replace N with (st + (k + (N - st - k))) by lia.
  rewrite rows_of_skipn, rows_of_take. reflexivity.
Qed.

Lemma slice_map {A B : Type} (f : A -> B) (l : list A) (st en : nat) :
  slice (map f l) st en = map f (slice l st en).
Proof.
  unfold slice. rewrite skipn_map, firstn_map. reflexivity.
Qed.

Lemma slice_combine {A B : Type} (a : list A) (b : list B) (st en : nat) :
  slice (combine a b) st en = combine (slice a st en) (slice b st en).
Proof.
  unfold slice.
  assert (Hs : forall n (x : list A) (y : list B),
             skipn n (combine x y) = combine (skipn n x) (skipn n y)).
  { induction n as [|n IH]; intros x y; [reflexivity|].
    destruct x as [|x0 x]; [reflexivity|].
    destruct y as [|y0 y]; simpl.
    - destruct (skipn n x); reflexivity.
    - apply IH. }
  rewrite Hs, combine_firstn. reflexivity.
Qed.

Lemma slice_repeat {A : Type} (x : A) (N st k : nat) :
  st + k <= N ->
  slice (repeat x N) st (st + k) = repeat x k.
Proof.
  intros H. unfold slice.
  replace (st + k - st) with k by lia.
  replace N with (st + (k + (N - st - k))) by lia.
  rewrite !repeat_app, skipn_app, repeat_length.
  rewrite skipn_all2 by (rewrite repeat_length; lia).
  replace (st - st) with 0 by lia. simpl.
  rewrite firstn_app, repeat_length.
  replace (k - k) with 0 by lia. simpl.
  rewrite firstn_all2 by (rewrite repeat_length; lia).
  apply app_nil_r.
Qed.

(** Consecutive runs put end to end give back the front of the list. *)
Lemma concat_slices {A : Type} (l : list A) (start : nat -> nat) (n : nat) :
  start 0 = 0 ->
  (forall i, i < n -> start i <= start (S i)) ->
  concat (map (fun i => slice l (start i) (start (S i))) (seq 0 n))
  = firstn (start n) l.
Proof.
  intros H0 Hmono.
  induction n as [|n IH].
  - simpl. rewrite H0. reflexivity.
  - rewrite seq_S, map_app, concat_app. simpl.
    rewrite IH by (intros i Hi; apply Hmono; lia).
    rewrite app_nil_r. unfold slice.
    assert (Hle : start n <= start (S n)) by (apply Hmono; lia).
    rewrite <- (firstn_skipn (start n) (firstn (start (S n)) l)).
    rewrite firstn_firstn.
    replace (Nat.min (start n) (start (S n))) with (start n) by lia.
    f_equal.
    rewrite skipn_firstn_comm. reflexivity.
Qed.

(** ** [array_split] cuts as the specification says *)

Lemma nth_cumsum_from (l : list nat) (acc i : nat) :
  i < length l ->
  nth i (cumsum_from acc l) 0 = acc + list_sum (firstn (S i) l).
Proof.
  revert acc i. induction l as [|x l IH]; intros acc i Hi; simpl in Hi.
  - lia.
  - destruct i as [|i].
    + simpl. lia.
    + change (nth (S i) (cumsum_from acc (x :: l)) 0)
        with (nth i (cumsum_from (acc + x) l) 0).
      rewrite IH by lia.
      change (firstn (S (S i)) (x :: l)) with (x :: firstn (S i) l).
      simpl list_sum. lia.
Qed.

Lemma list_sum_firstn_repeat (a r k : nat) :
  list_sum (firstn k (repeat a r)) = Nat.min k r * a.
Proof.
  revert k. induction r as [|r IH]; intros k; simpl.
  - rewrite firstn_nil. simpl. lia.
  - destruct k as [|k]; simpl; [reflexivity|].
    rewrite IH. lia.
Qed.

Lemma block_start_S (N n i : nat) :
  block_start N n (S i) = block_start N n i + block_size N n i.
Proof.
  unfold block_start, block_size.
  destruct (Nat.ltb_spec i (N mod n)); lia.
Qed.

Lemma block_start_full (N n : nat) :
  0 < n -> block_start N n n = N.
Proof.
  intros Hn. unfold block_start.
  pose proof (Nat.mod_upper_bound N n ltac:(lia)) as Hr.
  pose proof (Nat.div_mod_eq N n) as Hd.
  replace (Nat.min n (N mod n)) with (N mod n) by lia.
  lia.
Qed.

Lemma block_start_mono (N n i j : nat) :
  i <= j -> block_start N n i <= block_start N n j.
Proof.
  intros H. unfold block_start.
  assert (i * (N / n) <= j * (N / n)) by (apply Nat.mul_le_mono_r; exact H).
  lia.
Qed.

Lemma block_start_bound (N n i : nat) :
  0 < n -> i <= n -> block_start N n i <= N.
Proof.
  intros Hn Hi. rewrite <- (block_start_full N Hn) at 2.
  apply block_start_mono. exact Hi.
Qed.

Lemma div_points_nth (N n i : nat) :
  0 < n -> i <= n -> nth i (div_points N n) 0 = block_start N n i.
Proof.
  intros Hn Hi.
  pose proof (Nat.mod_upper_bound N n ltac:(lia)) as Hr.
  unfold div_points, cumsum, section_sizes.
  rewrite nth_cumsum_from
    by (simpl; rewrite length_app, !repeat_length; lia).
  change (firstn (S i) ([0] ++ ?l)) with (0 :: firstn i l).
  simpl list_sum.
  rewrite firstn_app, list_sum_app, !list_sum_firstn_repeat, repeat_length.
  unfold block_start.
  destruct (Nat.min_spec i (N mod n)) as [[? ->]|[? ->]];
    destruct (Nat.min_spec (i - N mod n) (n - N mod n)) as [[? ->]|[? ->]];
    nia.
Qed.

Lemma sub_rows_block {A : Type} (ary : ndarray A) (n i : nat) :
  0 < n -> i < n ->
  sub_rows ary (block_start (hd 0 (shape ary)) n i)
           (block_start (hd 0 (shape ary)) n (S i))
  = spec_block ary n i.
Proof.
  intros Hn Hi. unfold sub_rows, spec_block.
  set (N := hd 0 (shape ary)).
  pose proof (block_start_bound N Hn (i := S i) ltac:(lia)) as Hb.
  rewrite block_start_S in *.
  f_equal. f_equal. lia.
Qed.

(** The blocks of [array_split] are those of the specification: [n] of them,
    contiguous and in order, the first [len mod n] one row longer. *)
Lemma array_split_spec {A : Type} (ary : ndarray A) (n : Z) :
  shape ary <> [] -> (0 < n)%Z ->
  array_split ary n = Ok (spec_blocks ary (Z.to_nat n)).
Proof.
  intros Hsh Hn. unfold array_split, spec_blocks.
  destruct (shape ary) as [|N rest] eqn:Esh; [contradiction|].
  destruct (Z.leb_spec n 0); [lia|].
  f_equal. apply map_ext_in. intros i Hi.
  apply in_seq in Hi.
  assert (Hpos : 0 < Z.to_nat n) by lia.
  rewrite !div_points_nth by lia.
  replace N with (hd 0 (shape ary)) by (rewrite Esh; reflexivity).
  apply sub_rows_block; lia.
Qed.

Lemma spec_blocks_length {A : Type} (ary : ndarray A) (n : nat) :
  length (spec_blocks ary n) = n.
Proof.
  unfold spec_blocks. rewrite length_map, length_seq. reflexivity.
Qed.

Lemma spec_blocks_concat {A : Type} (ary : ndarray A) (n : nat) :
  0 < n -> wf_nd ary -> shape ary <> [] ->
  concat (map (@elems A) (spec_blocks ary n)) = elems ary.
Proof.
  intros Hn Hwf Hsh. unfold spec_blocks. rewrite map_map.
  set (N := hd 0 (shape ary)). set (w := size_of (tl (shape ary))).
  transitivity
    (concat (map (fun i => slice (elems ary) (block_start N n i * w)
                                 (block_start N n (S i) * w)) (seq 0 n))).
  - f_equal. apply map_ext. intros i. unfold spec_block. simpl.
    fold N w. rewrite block_start_S. reflexivity.
  - rewrite (concat_slices (elems ary) (fun i => block_start N n i * w)).
    + rewrite block_start_full by exact Hn.
      apply firstn_all2. rewrite Hwf.
      destruct (shape ary) as [|d rest]; [contradiction|].
      subst N w. simpl. lia.
    + reflexivity.
    + intros i _. apply Nat.mul_le_mono_r. apply block_start_mono. lia.
Qed.

(** ** The engine: [fit] *)

Lemma map_result_tagged {A B I : Type} (f : A -> result B) (idx : list I)
  (xs : list A) :
  length idx = length xs ->
  map_result (fun ib => let* r := f (snd ib) in Ok (r, fst ib)) (combine idx xs)
  = let* rs := map_result f xs in Ok (combine rs idx).
Proof.
  revert idx. induction xs as [|x xs IH]; intros idx Hlen.
  - destruct idx; [reflexivity | discriminate].
  - destruct idx as [|i idx]; [discriminate|].
    simpl in Hlen. injection Hlen as Hlen. simpl.
    destruct (f x) as [y|e]; simpl; [|reflexivity].
    rewrite IH by exact Hlen.
    destruct (map_result f xs) as [ys|e]; reflexivity.
Qed.

Lemma jobs_or_1_many (n : Z) :
  (1 < n)%Z -> BaseModel.jobs_or_1 (Some n) = n.
Proof.
  intros H. unfold BaseModel.jobs_or_1. destruct n; try reflexivity; lia.
Qed.

Section FitProperties.
Context {V Obj GTab Opt : Type} `{E : External V Obj GTab Opt}.

Lemma select_voxels_shape (self : BaseModel.t V Obj) (data vox : ndarray V) :
  BaseModel.select_voxels self data = Ok vox -> shape vox <> [].
Proof.
  unfold BaseModel.select_voxels, bool_index, reshape_rows.
  destruct (BaseModel._mask self) as [mask|].
  - destruct (is_prefix (shape mask) (shape data)); [|discriminate].
    intros [= <-]. discriminate.
  - destruct (last_dim (shape data)) as [[|g]|]; try discriminate.
    intros [= <-]. discriminate.
Qed.

(** What a chunked [fit] does, given the voxels selected and the outcome
    of fitting every block. *)
Lemma fit_chunked_run (self : BaseModel.t V Obj) (data vox : ndarray V)
  (n : Z) (m : Obj) :
  (1 < n)%Z ->
  BaseModel._model self = Some m ->
  BaseModel.select_voxels self data = Ok vox ->
  BaseModel.fit self data (Some n) =
    match map_result (model_fit m) (spec_blocks vox (Z.to_nat n)) with
    | Ok fitted =>
        (BaseModel.mk None (BaseModel._mask self) (BaseModel._S0 self)
                      (Some fitted) (Some (shape data)), Ok tt)
    | Err e =>
        (BaseModel.mk (Some m) (BaseModel._mask self) (BaseModel._S0 self)
                      (Some (repeat None (Z.to_nat n))) (Some (shape data)),
         Err e)
    end.
Proof.
  intros Hn Hm Hsel.
  pose proof (select_voxels_shape self data Hsel) as Hsh.
  unfold BaseModel.fit. rewrite jobs_or_1_many by exact Hn.
  change (BaseModel.select_voxels
            (BaseModel.set_datashape self (shape data)) data)
    with (BaseModel.select_voxels self data).
  rewrite Hsel.
  destruct (Z.eqb_spec n 1) as [->|_]; [lia|].
  rewrite array_split_spec by (assumption || lia).
  cbn [BaseModel.set_models BaseModel.set_datashape BaseModel.set_model
       BaseModel._model BaseModel._mask BaseModel._S0 BaseModel._models
       BaseModel._datashape].
  rewrite Hm. unfold parallel, enumerate, _exec_fit. cbn [not_none bind].
  rewrite (map_result_tagged (model_fit m))
    by (rewrite length_seq; reflexivity).
  destruct (map_result (model_fit m) (spec_blocks vox (Z.to_nat n)))
    as [fitted|e] eqn:Efit; cbn [bind].
  2: { unfold BaseModel.set_models, BaseModel.set_datashape. simpl.
       rewrite Hm. reflexivity. }
  pose proof (map_result_length _ _ Efit) as Hlen.
  rewrite spec_blocks_length in *.
  rewrite <- Hlen, store_results_enumerated
    by (rewrite repeat_length; reflexivity).
  reflexivity.
Qed.

End FitProperties.

(** ** Blocks of a two-dimensional array and of a vector *)

Lemma spec_block_2d {A : Type} (vox : ndarray A) (N w n i : nat) :
  shape vox = [N; w] ->
  spec_block vox n i
  = mk_nd [block_size N n i; w]
          (slice (elems vox) (block_start N n i * w)
                 ((block_start N n i + block_size N n i) * w)).
Proof.
  intros H. unfold spec_block. rewrite H. simpl.
  rewrite Nat.mul_1_r. reflexivity.
Qed.

Lemma spec_block_1d {A : Type} (s0 : ndarray A) (N n i : nat) :
  shape s0 = [N] ->
  spec_block s0 n i
  = mk_nd [block_size N n i]
          (slice (elems s0) (block_start N n i)
                 (block_start N n i + block_size N n i)).
Proof.
  intros H. unfold spec_block. rewrite H. simpl.
  rewrite !Nat.mul_1_r. reflexivity.
Qed.

Lemma combine_seq_map {B : Type} (f : nat -> B) (l : list nat) :
  combine l (map f l) = map (fun i => (i, f i)) l.
Proof.
  induction l as [|i l IH]; simpl; [reflexivity|].
  rewrite IH. reflexivity.
Qed.

Lemma combine_map_seq {B : Type} (f : nat -> B) (l : list nat) :
  map (fun i => (f i, i)) l = combine (map f l) l.
Proof.
  induction l as [|i l IH]; simpl; [reflexivity|].
  rewrite IH. reflexivity.
Qed.

Lemma map_result_map {A B C : Type} (f : B -> result C) (h : A -> B)
  (l : list A) :
  map_result f (map h l) = map_result (fun x => f (h x)) l.
Proof.
  induction l as [|x l IH]; simpl; [reflexivity|].
  rewrite IH. reflexivity.
Qed.

Lemma list_sum_block_sizes (N n j : nat) :
  list_sum (map (block_size N n) (seq 0 j)) = block_start N n j.
Proof.
  induction j as [|j IH].
  - reflexivity.
  - rewrite seq_S, map_app, list_sum_app, IH, block_start_S. simpl. lia.
Qed.

Lemma block_size_fits (N n i : nat) :
  0 < n -> i < n -> block_start N n i + block_size N n i <= N.
Proof.
  intros Hn Hi. rewrite <- block_start_S.
  apply block_start_bound; lia.
Qed.

Lemma assigned_some {A : Type} (l : list A) :
  BaseModel.assigned (map Some l) = Ok l.
Proof.
  induction l as [|x l IH]; simpl; [reflexivity|].
  rewrite IH. reflexivity.
Qed.

(** ** Joining the predictions of the blocks *)

Lemma atleast_1d_column {A : Type} (k : nat) (vals : list A) :
  atleast_1d (squeeze (mk_nd [k; 1] vals)) = mk_nd [k] vals.
Proof.
  unfold squeeze, atleast_1d. simpl.
  destruct (Nat.eqb_spec k 1) as [->|Hk]; reflexivity.
Qed.

Lemma hstack_columns {A : Type} (size : nat -> nat) (vals : nat -> list A)
  (idx : list nat) :
  idx <> [] ->
  hstack (map (fun i => squeeze (mk_nd [size i; 1] (vals i))) idx)
  = Ok (mk_nd [list_sum (map size idx)] (concat (map vals idx))).
Proof.
  intros Hidx. unfold hstack. rewrite map_map.
  rewrite (map_ext _ (fun i => mk_nd [size i] (vals i)))
    by (intros; apply atleast_1d_column).
  destruct idx as [|i0 idx]; [contradiction|].
  cbn [map ndim shape length Nat.eqb].
  change (mk_nd [size i0] (vals i0) :: map (fun i => mk_nd [size i] (vals i)) idx)
    with (map (fun i => mk_nd [size i] (vals i)) (i0 :: idx)).
  rewrite (proj2 (forallb_forall _ _)).
  - rewrite !map_map. reflexivity.
  - intros a Ha. apply in_map_iff in Ha. destruct Ha as [i [<- _]]. reflexivity.
Qed.

Lemma mask_assign_column {A : Type} (retval : ndarray A) (mask : ndarray bool)
  (k : nat) (vals : list A) :
  mask_assign retval mask (squeeze (mk_nd [k; 1] vals))
  = mask_assign retval mask (mk_nd [k] vals).
Proof.
  unfold mask_assign, squeeze. simpl.
  destruct (Nat.eqb_spec k 1) as [->|Hk]; simpl.
  - reflexivity.
  - destruct k as [|[|k]]; reflexivity || contradiction.
Qed.

Lemma reshape_elems {A : Type} (a b : ndarray A) (sh : list nat) :
  elems a = elems b -> reshape a sh = reshape b sh.
Proof.
  intros H. unfold reshape. rewrite H. reflexivity.
Qed.

(** ** The engine on a model that computes voxel by voxel *)

Lemma baselines_block {V : Type} (S0 : option (ndarray V)) (N n i : nat) :
  0 < n -> i < n -> baseline_fits S0 N ->
  baselines (nth i (match S0 with
                    | None => repeat None n
                    | Some s0 => map Some (spec_blocks s0 n)
                    end) None) (block_size N n i)
  = slice (baselines S0 N) (block_start N n i)
          (block_start N n i + block_size N n i).
Proof.
  intros Hn Hi Hfit.
  pose proof (block_size_fits N Hn Hi) as Hb.
  destruct S0 as [s0|]; simpl in *.
  - destruct Hfit as [Hsh _].
    unfold spec_blocks. rewrite map_map.
    rewrite (nth_indep _ None (Some (spec_block s0 n 0)))
      by (rewrite length_map, length_seq; exact Hi).
    rewrite (map_nth (fun j => Some (spec_block s0 n j)) (seq 0 n) 0 i).
    rewrite seq_nth by exact Hi.
    rewrite Nat.add_0_l, (spec_block_1d _ _ _ Hsh).
    cbn [baselines elems].
    rewrite slice_map. reflexivity.
  - rewrite slice_repeat by exact Hb.
    rewrite nth_repeat. reflexivity.
Qed.

Lemma baselines_length {V : Type} (S0 : option (ndarray V)) (N : nat) :
  baseline_fits S0 N -> length (baselines S0 N) = N.
Proof.
  destruct S0 as [s0|]; simpl.
  - intros [_ H]. rewrite length_map. exact H.
  - intros _. apply repeat_length.
Qed.

Lemma slice_length {A : Type} (l : list A) (st k : nat) :
  st + k <= length l -> length (slice l st (st + k)) = k.
Proof.
  intros H. unfold slice. rewrite length_firstn, length_skipn. lia.
Qed.

(** The values of a block are the run of the values of the whole array at
    the rows of the block. *)
Lemma voxel_values_block {V G : Type} (F : G -> list V -> option V -> V)
  (g : G) (N w n i : nat) (samples : list V) (S0 : option (ndarray V)) :
  0 < n -> i < n -> baseline_fits S0 N ->
  voxel_values F g (block_size N n i) w
    (slice samples (block_start N n i * w)
           ((block_start N n i + block_size N n i) * w))
    (nth i (match S0 with
            | None => repeat None n
            | Some s0 => map Some (spec_blocks s0 n)
            end) None)
  = slice (voxel_values F g N w samples S0) (block_start N n i)
          (block_start N n i + block_size N n i).
Proof.
  intros Hn Hi Hfit. unfold voxel_values.
  pose proof (block_size_fits N Hn Hi) as Hb.
  rewrite (rows_of_slice w (N := N)) by exact Hb.
  rewrite baselines_block by assumption.
  rewrite <- slice_combine, slice_map. reflexivity.
Qed.

Lemma voxel_values_length {V G : Type} (F : G -> list V -> option V -> V)
  (g : G) (N w : nat) (samples : list V) (S0 : option (ndarray V)) :
  baseline_fits S0 N -> length (voxel_values F g N w samples S0) = N.
Proof.
  intros H. unfold voxel_values.
  rewrite length_map, length_combine, rows_of_length, baselines_length
    by exact H.
  lia.
Qed.

(** The values of the blocks, put end to end in the order of the blocks,
    are the values of the whole array. *)
Lemma voxel_values_joined {A : Type} (vals : list A) (N n : nat) :
  0 < n -> length vals = N ->
  concat (map (fun i => slice vals (block_start N n i)
                              (block_start N n i + block_size N n i))
              (seq 0 n))
  = vals.
Proof.
  intros Hn Hlen.
  rewrite (map_ext _ (fun i => slice vals (block_start N n i)
                                     (block_start N n (S i))))
    by (intros i; rewrite block_start_S; reflexivity).
  rewrite (concat_slices vals (fun i => block_start N n i)).
  - rewrite block_start_full by exact Hn. apply firstn_all2. lia.
  - reflexivity.
  - intros i _. apply block_start_mono. lia.
Qed.

Lemma n_models_chunked {V Obj : Type} (st : BaseModel.t V Obj)
  (ms : list (option Obj)) :
  BaseModel._model st = None -> BaseModel._models st = Some ms -> ms <> [] ->
  BaseModel.n_models st = length ms.
Proof.
  intros Hm Hms Hne. unfold BaseModel.n_models. rewrite Hm, Hms.
  destruct ms; [contradiction | reflexivity].
Qed.

Lemma n_models_serial {V Obj : Type} (st : BaseModel.t V Obj) (m : Obj) :
  BaseModel._model st = Some m -> BaseModel.n_models st = 1.
Proof.
  intros Hm. unfold BaseModel.n_models. rewrite Hm. reflexivity.
Qed.

Section Voxelwise.
Context {V Obj GTab Opt : Type} `{E : External V Obj GTab Opt}.
Variables (m : Obj) (train : ndarray V -> Obj)
          (F : GTab -> list V -> option V -> V).
Hypothesis HV : voxelwise m train F.

Lemma fit_serial_state (self : BaseModel.t V Obj) (data vox : ndarray V)
  (N w : nat) (n : option Z) :
  BaseModel.jobs_or_1 n = 1%Z ->
  BaseModel._model self = Some m ->
  BaseModel.select_voxels self data = Ok vox ->
  shape vox = [N; w] ->
  BaseModel.fit self data n
  = (BaseModel.mk (Some (train vox)) (BaseModel._mask self)
                  (BaseModel._S0 self) (BaseModel._models self)
                  (Some (shape data)), Ok tt).
Proof.
  intros Hn Hm Hsel Hsh. unfold BaseModel.fit. rewrite Hn.
  change (BaseModel.select_voxels
            (BaseModel.set_datashape self (shape data)) data)
    with (BaseModel.select_voxels self data).
  rewrite Hsel. cbn [Z.eqb Pos.eqb].
  cbn [BaseModel.set_datashape BaseModel._model].
  rewrite Hm. unfold _exec_fit. cbn [not_none bind].
  rewrite (proj1 (HV vox Hsh)). reflexivity.
Qed.

Lemma fit_chunked_state (self : BaseModel.t V Obj) (data vox : ndarray V)
  (N w : nat) (n : Z) :
  (1 < n)%Z ->
  BaseModel._model self = Some m ->
  BaseModel.select_voxels self data = Ok vox ->
  shape vox = [N; w] ->
  BaseModel.fit self data (Some n)
  = (BaseModel.mk None (BaseModel._mask self) (BaseModel._S0 self)
                  (Some (map (fun b => Some (train b))
                             (spec_blocks vox (Z.to_nat n))))
                  (Some (shape data)), Ok tt).
Proof.
  intros Hn Hm Hsel Hsh.
  rewrite (fit_chunked_run self data Hn Hm Hsel).
  rewrite (map_result_ok _ (fun b => Some (train b))); [reflexivity|].
  intros b Hb. unfold spec_blocks in Hb. apply in_map_iff in Hb.
  destruct Hb as [i [<- _]].
  rewrite (@spec_block_2d _ _ _ _ _ _ Hsh).
  apply (HV (mk_nd [_; _] _) eq_refl).
Qed.

Lemma predict_voxels_serial (st : BaseModel.t V Obj) (g : GTab)
  (vox : ndarray V) (N w : nat) :
  BaseModel._model st = Some (train vox) ->
  shape vox = [N; w] ->
  baseline_fits (BaseModel._S0 st) N ->
  BaseModel.predict_voxels st g []
  = Ok (squeeze (mk_nd [N; 1]
          (voxel_values F g N w (elems vox) (BaseModel._S0 st)))).
Proof.
  intros Hm Hsh Hfit. unfold BaseModel.predict_voxels.
  rewrite (n_models_serial st Hm). cbn [Nat.eqb].
  rewrite Hm. unfold call_with, _exec_predict.
  cbn [existsb app bind kw_remove filter fst negb String.eqb Ascii.eqb
       Bool.eqb not_none kw_get].
  rewrite (proj2 (HV vox Hsh)) by (apply baselines_length; exact Hfit).
  reflexivity.
Qed.

Lemma predict_voxels_chunked (st : BaseModel.t V Obj) (g : GTab)
  (vox : ndarray V) (N w n : nat) :
  1 < n ->
  BaseModel._model st = None ->
  BaseModel._models st
    = Some (map (fun b => Some (train b)) (spec_blocks vox n)) ->
  shape vox = [N; w] ->
  baseline_fits (BaseModel._S0 st) N ->
  BaseModel.predict_voxels st g []
  = Ok (mk_nd [N] (voxel_values F g N w (elems vox) (BaseModel._S0 st))).
Proof.
  intros Hn Hm Hms Hsh Hfit.
  assert (Hlen : length (map (fun b => Some (train b)) (spec_blocks vox n)) = n)
    by (rewrite length_map; apply spec_blocks_length).
  unfold BaseModel.predict_voxels.
  rewrite (n_models_chunked st Hm Hms)
    by (intros Hnil; rewrite Hnil in Hlen; simpl in Hlen; lia).
  rewrite Hlen, Hms.
  destruct (Nat.eqb_spec n 1) as [->|_]; [lia|].
  set (S0s := match BaseModel._S0 st with
              | None => repeat None n
              | Some s0 => map Some (spec_blocks s0 n)
              end).
  assert (HS0 : (match BaseModel._S0 st with
                 | None => Ok (repeat None n)
                 | Some s0 =>
                     let* parts := array_split s0 (Z.of_nat n) in
                     Ok (map Some parts)
                 end) = Ok S0s).
  { subst S0s. destruct (BaseModel._S0 st) as [s0|] eqn:ES0; [|reflexivity].
    destruct Hfit as [Hs0 _].
    rewrite array_split_spec by (rewrite ?Hs0; (discriminate || lia)).
    rewrite Nat2Z.id. reflexivity. }
  rewrite HS0. cbn [bind].
  set (vals := voxel_values F g N w (elems vox) (BaseModel._S0 st)).
  set (piece := fun i =>
         squeeze (mk_nd [block_size N n i; 1]
                        (slice vals (block_start N n i)
                               (block_start N n i + block_size N n i)))).
  unfold parallel, enumerate. rewrite Hlen.
  unfold spec_blocks. rewrite map_map, combine_seq_map, map_result_map.
  rewrite (map_result_ok _ (fun i => (Some (piece i), i))).
  - cbn [bind]. rewrite combine_map_seq.
    rewrite store_results_seq
      by (rewrite ?length_map, ?length_seq, ?repeat_length; reflexivity).
    rewrite <- (map_map piece Some), assigned_some. cbn [bind].
    subst piece. cbv beta.
    rewrite (hstack_columns (block_size N n)
               (fun i => slice vals (block_start N n i)
                               (block_start N n i + block_size N n i)))
      by (destruct n; [lia | discriminate]).
    rewrite list_sum_block_sizes, block_start_full by lia.
    rewrite voxel_values_joined
      by (lia || (subst vals; apply voxel_values_length; exact Hfit)).
    reflexivity.
  - intros i Hi. apply in_seq in Hi. cbn [fst snd].
    unfold delayed_with, _exec_predict.
    cbn [find existsb app bind not_none kw_get String.eqb Ascii.eqb Bool.eqb].
    rewrite (@spec_block_2d _ _ _ _ _ _ Hsh).
    destruct (HV (mk_nd [block_size N n i; w]
                    (slice (elems vox) (block_start N n i * w)
                           ((block_start N n i + block_size N n i) * w)))
                 eq_refl) as [_ Hp].
    rewrite Hp.
    + cbn [bind fst snd elems]. subst piece vals. cbv beta.
      subst S0s.
      rewrite voxel_values_block by (assumption || lia).
      reflexivity.
    + subst S0s. rewrite baselines_block by (assumption || lia).
      apply slice_length. rewrite baselines_length by exact Hfit.
      apply block_size_fits; lia.
Qed.

End Voxelwise.

(** ** A whole session: [fit], then [predict] *)

Section Session.
Context {V Obj GTab Opt : Type} `{E : External V Obj GTab Opt}.
Variables (m : Obj) (train : ndarray V -> Obj)
          (F : GTab -> list V -> option V -> V).
Hypothesis HV : voxelwise m train F.

Lemma reassemble_column (st : BaseModel.t V Obj) (k : nat) (vals : list V) :
  BaseModel.reassemble st (squeeze (mk_nd [k; 1] vals))
  = BaseModel.reassemble st (mk_nd [k] vals).
Proof.
  unfold BaseModel.reassemble.
  destruct (BaseModel._mask st) as [mask|].
  - change (mk_nd (shape (squeeze (mk_nd [k; 1] vals)))
                  (map as_float32 (elems (squeeze (mk_nd [k; 1] vals)))))
      with (squeeze (mk_nd [k; 1] (map as_float32 vals))).
    apply mask_assign_column.
  - destruct (BaseModel._datashape st) as [sh|]; [|reflexivity].
    apply reshape_elems. reflexivity.
Qed.

(** Whatever the number of jobs, the session gives the values of the
    voxels, put back in the volume. *)
Lemma session (self : BaseModel.t V Obj) (data vox : ndarray V)
  (N w : nat) (n : Z) (gradient : gradient_like V) (out : list string)
  (g : GTab) :
  (1 <= n)%Z ->
  BaseModel._model self = Some m ->
  BaseModel.select_voxels self data = Ok vox ->
  shape vox = [N; w] ->
  baseline_fits (BaseModel._S0 self) N ->
  _rasb2dipy gradient = (out, Ok g) ->
  BaseModel.predict (fst (BaseModel.fit self data (Some n))) gradient []
  = (out,
     BaseModel.reassemble
       (BaseModel.set_datashape self (shape data))
       (mk_nd [N] (voxel_values F g N w (elems vox) (BaseModel._S0 self)))).
Proof.
  intros Hn Hm Hsel Hsh Hfit Hg.
  unfold BaseModel.predict. rewrite Hg. f_equal. cbn [bind].
  destruct (Z.eq_dec n 1) as [->|Hne].
  - rewrite (fit_serial_state HV self data (Some 1%Z) eq_refl Hm Hsel Hsh).
    cbn [fst].
    rewrite (predict_voxels_serial HV _ g vox (N := N) (w := w))
      by (assumption || reflexivity).
    cbn [bind BaseModel._S0]. rewrite reassemble_column. reflexivity.
  - assert (Hgt : (1 < n)%Z) by lia.
    rewrite (fit_chunked_state HV self data Hgt Hm Hsel Hsh).
    cbn [fst].
    rewrite (predict_voxels_chunked HV _ g vox (N := N) (w := w)
               (n := Z.to_nat n))
      by (assumption || reflexivity || lia).
    reflexivity.
Qed.

End Session.

(** ** Putting the predictions back *)

Lemma mask_assign_vector {A : Type} (retval : ndarray A) (mask : ndarray bool)
  (vals : list A) :
  count_true (elems mask) = length vals ->
  mask_assign retval mask (mk_nd [length vals] vals)
  = Ok (mk_nd (shape retval) (scatter (elems mask) (elems retval) vals)).
Proof.
  intros Hk. unfold mask_assign. rewrite Hk. cbn [shape elems].
  destruct vals as [|v [|v' vals]]; cbn [length drop_leading_ones].
  - reflexivity.
  - reflexivity.
  - rewrite Nat.eqb_refl. reflexivity.
Qed.

Lemma is_prefix_app (p l : list nat) :
  is_prefix p l = true -> l = p ++ skipn (length p) l.
Proof.
  revert l. induction p as [|x p IH]; intros l H; simpl in *.
  - reflexivity.
  - destruct l as [|y l]; [discriminate|].
    apply andb_true_iff in H. destruct H as [Hxy Hp].
    apply Nat.eqb_eq in Hxy. subst y. simpl. f_equal. apply IH. exact Hp.
Qed.

Lemma select_voxels_masked {V Obj : Type} (self : BaseModel.t V Obj)
  (mask : ndarray bool) (data vox : ndarray V) (N w : nat) :
  BaseModel._mask self = Some mask ->
  BaseModel.select_voxels self data = Ok vox ->
  shape vox = [N; w] ->
  shape data = shape mask ++ [w] /\ N = count_true (elems mask).
Proof.
  unfold BaseModel.select_voxels, bool_index. intros -> Hsel Hsh.
  destruct (is_prefix (shape mask) (shape data)) eqn:Hp; [|discriminate].
  injection Hsel as <-. cbn [shape] in Hsh.
  injection Hsh as HN Hw. split; [|symmetry; exact HN].
  rewrite (is_prefix_app _ _ Hp) at 1. unfold ndim in Hw. rewrite Hw.
  reflexivity.
Qed.

Lemma select_voxels_unmasked {V Obj : Type} (self : BaseModel.t V Obj)
  (data vox : ndarray V) (N w : nat) :
  BaseModel._mask self = None ->
  BaseModel.select_voxels self data = Ok vox ->
  shape vox = [N; w] ->
  N = size_of (but_last (shape data)) /\ elems vox = elems data
  /\ last_dim (shape data) = Some w.
Proof.
  unfold BaseModel.select_voxels, reshape_rows. intros -> Hsel Hsh.
  destruct (last_dim (shape data)) as [[|g]|]; try discriminate.
  injection Hsel as <-. cbn [shape elems] in *.
  injection Hsh as HN Hw. subst. auto.
Qed.

(** The outcome of putting back one value per selected voxel. *)
Lemma reassemble_values {V Obj GTab Opt : Type} `{E : External V Obj GTab Opt}
  (self : BaseModel.t V Obj) (data vox : ndarray V) (N w : nat)
  (vals : list V) :
  BaseModel.select_voxels self data = Ok vox ->
  shape vox = [N; w] ->
  length vals = N ->
  BaseModel.reassemble (BaseModel.set_datashape self (shape data))
                       (mk_nd [N] vals)
  = Ok (mk_nd (but_last (shape data))
          match BaseModel._mask self with
          | Some mask =>
              scatter (elems mask) (repeat zero (size_of (shape mask)))
                      (map as_float32 vals)
          | None => vals
          end).
Proof.
  intros Hsel Hsh Hlen. unfold BaseModel.reassemble.
  cbn [BaseModel.set_datashape BaseModel._mask BaseModel._datashape].
  destruct (BaseModel._mask self) as [mask|] eqn:Hmask.
  - destruct (select_voxels_masked self data Hmask Hsel Hsh) as [Hd HN].
    cbn [shape elems]. rewrite <- Hlen, <- (length_map as_float32 vals).
    rewrite mask_assign_vector
      by (rewrite length_map, Hlen; symmetry; exact HN).
    cbn [shape elems]. rewrite Hd. unfold but_last.
    rewrite removelast_last. reflexivity.
  - destruct (select_voxels_unmasked self data Hmask Hsel Hsh) as [HN _].
    cbn [not_none bind]. unfold reshape. cbn [elems].
    rewrite Hlen, HN, Nat.eqb_refl. reflexivity.
Qed.

(** ** The small model library computes voxel by voxel *)

Lemma toy_voxelwise :
  voxelwise (E := Toy.library false) Toy.Untrained Toy.train
            (fun _ row s0 => Toy.value row s0).
Proof.
  intros block k w Hsh. split.
  - cbn. unfold Toy.toy_fit, Toy.train. rewrite Hsh. reflexivity.
  - intros g S0 Hlen. cbn. unfold Toy.train, Toy.toy_predict, voxel_values.
    rewrite Hsh. cbn [nth hd]. rewrite rows_of_length. reflexivity.
Qed.

(** * The claims *)

(** C1.  With more than one job, [fit] selects the voxels ([data[mask, ...]]
    under a mask, else the volume reshaped to two dimensions), cuts them with
    [array_split] into as many contiguous blocks as there are jobs, the first
    [len mod n] blocks one row longer, fits the model on every block, stores
    the fitted models in the order of the blocks and sets the single model to
    [None].  When the fit of a block raises, the call raises and no fitted
    model is kept. *)
Theorem fit_chunked_blocks {V Obj GTab Opt : Type} `{E : External V Obj GTab Opt}
  (self : BaseModel.t V Obj) (data vox : ndarray V) (n : Z) (m : Obj) :
  (1 < n)%Z ->
  BaseModel._model self = Some m ->
  match BaseModel._mask self with
  | Some mask => bool_index data mask
  | None => reshape_rows data
  end = Ok vox ->
  let blocks := spec_blocks vox (Z.to_nat n) in
  array_split vox n = Ok blocks
  /\ length blocks = Z.to_nat n
  /\ (wf_nd vox -> concat (map (@elems V) blocks) = elems vox)
  /\ BaseModel.fit self data (Some n) =
       match map_result (model_fit m) blocks with
       | Ok fitted =>
           (BaseModel.mk None (BaseModel._mask self) (BaseModel._S0 self)
                         (Some fitted) (Some (shape data)), Ok tt)
       | Err e =>
           (BaseModel.mk (Some m) (BaseModel._mask self) (BaseModel._S0 self)
                         (Some (repeat None (Z.to_nat n))) (Some (shape data)),
            Err e)
       end.
Proof.
  intros Hn Hm Hsel blocks.
  change (BaseModel.select_voxels self data = Ok vox) in Hsel.
  pose proof (select_voxels_shape self data Hsel) as Hsh.
  repeat split.
  - apply array_split_spec; [exact Hsh | lia].
  - apply spec_blocks_length.
  - intros Hwf. apply spec_blocks_concat; [lia | exact Hwf | exact Hsh].
  - apply fit_chunked_run; assumption.
Qed.

Lemma fit_chunked_blocks_witness :
  let vox := mk_nd [6; 2] (elems Toy.volume) in
  let blocks := spec_blocks vox 4 in
  array_split vox 4 = Ok blocks
  /\ length blocks = 4
  /\ (wf_nd vox -> concat (map (@elems Q) blocks) = elems vox)
  /\ BaseModel.fit (E := Toy.library false) Toy.fresh Toy.volume (Some 4%Z) =
       match map_result (model_fit (External := Toy.library false) Toy.Untrained)
                        blocks with
       | Ok fitted =>
           (BaseModel.mk None None None (Some fitted)
                         (Some (shape Toy.volume)), Ok tt)
       | Err e =>
           (BaseModel.mk (Some Toy.Untrained) None None
                         (Some (repeat None 4)) (Some (shape Toy.volume)),
            Err e)
       end.
Proof.
  apply (fit_chunked_blocks (E := Toy.library false) Toy.fresh Toy.volume
           (vox := mk_nd [6; 2] (elems Toy.volume)) (n := 4%Z)
           (m := Toy.Untrained)).
  - reflexivity.
  - reflexivity.
  - reflexivity.
Defined.

(** C2.  For a model that computes voxel by voxel, and every number of jobs
    from one on (1, 2, 3 and 5 among them), [fit] then [predict] gives an
    array of the spatial extent of the volume whose values are those of the
    run with one job; and the blocks of the voxel array, put end to end in
    the order of the blocks, are the voxel array. *)
Theorem chunking_preserves_prediction {V Obj GTab Opt : Type}
  `{E : External V Obj GTab Opt}
  (m : Obj) (train : ndarray V -> Obj) (F : GTab -> list V -> option V -> V)
  (self : BaseModel.t V Obj) (data vox : ndarray V) (N w : nat) (n : Z)
  (gradient : gradient_like V) (out : list string) (g : GTab) :
  voxelwise m train F ->
  (1 <= n)%Z ->
  BaseModel._model self = Some m ->
  BaseModel.select_voxels self data = Ok vox ->
  shape vox = [N; w] ->
  baseline_fits (BaseModel._S0 self) N ->
  _rasb2dipy gradient = (out, Ok g) ->
  (exists r : ndarray V,
      BaseModel.predict (fst (BaseModel.fit self data (Some n))) gradient []
      = (out, Ok r)
      /\ BaseModel.predict (fst (BaseModel.fit self data (Some 1%Z))) gradient []
         = (out, Ok r)
      /\ shape r = but_last (shape data))
  /\ (wf_nd vox ->
      exists blocks : list (ndarray V),
        array_split vox n = Ok blocks
        /\ length blocks = Z.to_nat n
        /\ concat (map (@elems V) blocks) = elems vox).
Proof.
  intros HV Hn Hm Hsel Hsh Hfit Hg. split.
  - pose proof (voxel_values_length F g N w (elems vox) _ Hfit) as Hlen.
    eexists. split; [|split].
    + rewrite (session HV self data gradient Hn Hm Hsel Hsh Hfit Hg).
      rewrite (reassemble_values self data _ Hsel Hsh Hlen). reflexivity.
    + assert (H1 : (1 <= 1)%Z) by lia.
      rewrite (session HV self data gradient H1 Hm Hsel Hsh Hfit Hg).
      rewrite (reassemble_values self data _ Hsel Hsh Hlen). reflexivity.
    + reflexivity.
  - intros Hwf. exists (spec_blocks vox (Z.to_nat n)).
    pose proof (select_voxels_shape self data Hsel) as Hne.
    split; [|split].
    + apply array_split_spec; [exact Hne | lia].
    + apply spec_blocks_length.
    + apply spec_blocks_concat; [lia | exact Hwf | exact Hne].
Qed.

Lemma chunking_preserves_prediction_witness :
  (exists r : ndarray Q,
      BaseModel.predict (E := Toy.library false)
        (fst (BaseModel.fit (E := Toy.library false) Toy.fresh Toy.volume
                            (Some 5%Z)))
        Toy.one_gradient []
      = ([], Ok r)
      /\ BaseModel.predict (E := Toy.library false)
           (fst (BaseModel.fit (E := Toy.library false) Toy.fresh Toy.volume
                               (Some 1%Z)))
           Toy.one_gradient []
         = ([], Ok r)
      /\ shape r = but_last (shape Toy.volume))
  /\ (wf_nd (mk_nd [6; 2] (elems Toy.volume)) ->
      exists blocks : list (ndarray Q),
        array_split (mk_nd [6; 2] (elems Toy.volume)) 5 = Ok blocks
        /\ length blocks = Z.to_nat 5
        /\ concat (map (@elems Q) blocks) = elems Toy.volume).
Proof.
  apply (chunking_preserves_prediction (E := Toy.library false)
           (m := Toy.Untrained) (train := Toy.train)
           (F := fun _ row s0 => Toy.value row s0)
           Toy.fresh Toy.volume (vox := mk_nd [6; 2] (elems Toy.volume))
           (N := 6) (w := 2) (n := 5%Z) Toy.one_gradient
           (g := (map Toy.z [1000%Z], mk_mat 1 3 [map Toy.z [1; 0; 0]%Z]))).
  - exact toy_voxelwise.
  - lia.
  - reflexivity.
  - reflexivity.
  - reflexivity.
  - exact I.
  - reflexivity.
Defined.

(** ** Masks *)

Lemma voxel_values_none {V G : Type} (F : G -> list V -> option V -> V)
  (g : G) (k w : nat) (samples : list V) :
  voxel_values F g k w samples None
  = map (fun row => F g row None) (rows_of w k samples).
Proof.
  unfold voxel_values. cbn [baselines].
  rewrite <- (rows_of_length w k samples) at 2.
  induction (rows_of w k samples) as [|r rs IH]; simpl; [reflexivity|].
  rewrite IH. reflexivity.
Qed.

Lemma rows_of_widths {A : Type} (w k : nat) (l : list A) :
  k * w <= length l -> Forall (fun r => length r = w) (rows_of w k l).
Proof.
  revert l. induction k as [|k IH]; intros l H; simpl.
  - constructor.
  - constructor.
    + rewrite length_firstn. simpl in H. lia.
    + apply IH. rewrite length_skipn. simpl in H. lia.
Qed.

Lemma rows_of_concat {A : Type} (w : nat) (rs : list (list A)) :
  Forall (fun r => length r = w) rs ->
  rows_of w (length rs) (concat rs) = rs.
Proof.
  induction 1 as [|r rs Hr _ IH]; simpl; [reflexivity|].
  rewrite firstn_app, skipn_app, Hr, Nat.sub_diag. simpl.
  rewrite firstn_all2 by lia.
  rewrite skipn_all2 by lia.
  rewrite app_nil_r. simpl. rewrite IH. reflexivity.
Qed.

Lemma select_rows_length {A : Type} (flags : list bool) (rows : list (list A)) :
  length rows = length flags ->
  length (select_rows flags rows) = count_true flags.
Proof.
  revert rows. unfold count_true.
  induction flags as [|f flags IH]; intros rows H; simpl.
  - reflexivity.
  - destruct rows as [|r rows]; [discriminate|].
    injection H as H. destruct f; simpl; rewrite IH by exact H; reflexivity.
Qed.

Lemma select_rows_widths {A : Type} (w : nat) (flags : list bool)
  (rows : list (list A)) :
  Forall (fun r => length r = w) rows ->
  Forall (fun r => length r = w) (select_rows flags rows).
Proof.
  intros H. revert flags.
  induction H as [|r rows Hr _ IH]; intros flags.
  - destruct flags; constructor.
  - destruct flags as [|[|] flags]; simpl.
    + constructor.
    + constructor; [exact Hr | apply IH].
    + apply IH.
Qed.

(** Scattering the values of the selected rows leaves the background value
    outside the mask and puts, at a position of the mask, the value of the
    row at that position. *)
Lemma scatter_select {A B : Type} (f : A -> B) (z : B) (flags : list bool)
  (rows : list A) (sel : list A) :
  length rows = length flags ->
  sel = map snd (filter (fun br => fst br) (combine flags rows)) ->
  scatter flags (repeat z (length flags)) (map f sel)
  = map (fun br : bool * A => if fst br then f (snd br) else z)
        (combine flags rows).
Proof.
  intros Hlen ->. revert rows Hlen.
  induction flags as [|b flags IH]; intros rows Hlen; simpl.
  - reflexivity.
  - destruct rows as [|r rows]; [discriminate|].
    injection Hlen as Hlen. destruct b; simpl; rewrite IH by exact Hlen;
      reflexivity.
Qed.

Lemma select_rows_filter {A : Type} (flags : list bool) (rows : list (list A)) :
  select_rows flags rows
  = map snd (filter (fun br => fst br) (combine flags rows)).
Proof.
  revert rows. induction flags as [|b flags IH]; intros rows; simpl.
  - reflexivity.
  - destruct rows as [|r rows]; [reflexivity|].
    destruct b; simpl; rewrite IH; reflexivity.
Qed.

Lemma is_prefix_extend (p : list nat) (w : nat) :
  is_prefix p (p ++ [w]) = true.
Proof.
  induction p as [|x p IH]; simpl; [reflexivity|].
  rewrite Nat.eqb_refl. exact IH.
Qed.

Lemma skipn_extend (p : list nat) (w : nat) :
  skipn (length p) (p ++ [w]) = [w].
Proof.
  rewrite skipn_app, Nat.sub_diag, skipn_all. reflexivity.
Qed.

Lemma nth_map_in {A B : Type} (f : A -> B) (l : list A) (d : B) (d' : A)
  (i : nat) :
  i < length l -> nth i (map f l) d = f (nth i l d').
Proof.
  intros H. rewrite (nth_indep _ d (f d')) by (rewrite length_map; exact H).
  apply map_nth.
Qed.

Lemma size_of_extend (p : list nat) (w : nat) :
  size_of (p ++ [w]) = size_of p * w.
Proof.
  unfold size_of. induction p as [|x p IH]; simpl.
  - lia.
  - rewrite IH. lia.
Qed.

Lemma last_dim_extend (p : list nat) (w : nat) :
  last_dim (p ++ [w]) = Some w.
Proof.
  unfold last_dim. rewrite last_last.
  destruct p; reflexivity.
Qed.

Lemma select_voxels_under_mask {V Obj : Type} (self : BaseModel.t V Obj)
  (mask : ndarray bool) (data : ndarray V) (w : nat) :
  BaseModel._mask self = Some mask ->
  shape data = shape mask ++ [w] ->
  BaseModel.select_voxels self data
  = Ok (mk_nd [count_true (elems mask); w]
          (concat (select_rows (elems mask)
                     (rows_of w (length (elems mask)) (elems data))))).
Proof.
  intros Hmask Hsh. unfold BaseModel.select_voxels, bool_index, ndim.
  rewrite Hmask, Hsh, is_prefix_extend, skipn_extend.
  cbn [size_of fold_right]. rewrite Nat.mul_1_r. reflexivity.
Qed.

Lemma select_voxels_no_mask {V Obj : Type} (self : BaseModel.t V Obj)
  (data : ndarray V) (sp : list nat) (w : nat) :
  BaseModel._mask self = None ->
  shape data = sp ++ [w] -> 0 < w ->
  BaseModel.select_voxels self data = Ok (mk_nd [size_of sp; w] (elems data)).
Proof.
  intros Hmask Hsh Hw. unfold BaseModel.select_voxels, reshape_rows.
  rewrite Hmask, Hsh, last_dim_extend.
  destruct w as [|w]; [lia|].
  unfold but_last. rewrite removelast_last. reflexivity.
Qed.

Lemma pick_length {A : Type} (flags : list bool) (row : list A) :
  length row = length flags ->
  length (AverageDWModel.pick flags row) = count_true flags.
Proof.
  unfold AverageDWModel.pick, count_true. rewrite length_map.
  revert row. induction flags as [|f flags IH]; intros row H; simpl.
  - reflexivity.
  - destruct row as [|a row]; [discriminate|]. injection H as H.
    destruct f; simpl; rewrite IH by exact H; reflexivity.
Qed.

Lemma pick_repeat {A : Type} (x : A) (flags : list bool) :
  AverageDWModel.pick flags (repeat x (length flags))
  = repeat x (count_true flags).
Proof.
  unfold AverageDWModel.pick, count_true.
  induction flags as [|f flags IH]; [reflexivity|].
  cbn [length repeat combine filter fst].
  destruct f; cbn [map snd length repeat]; rewrite IH; reflexivity.
Qed.

Lemma pick_map {A B : Type} (f : A -> B) (flags : list bool) (l : list A) :
  AverageDWModel.pick flags (map f l) = map f (AverageDWModel.pick flags l).
Proof.
  unfold AverageDWModel.pick. revert l.
  induction flags as [|b flags IH]; intros l; [reflexivity|].
  destruct l as [|a l]; [reflexivity|].
  cbn [map combine filter fst].
  destruct b; cbn [map snd]; rewrite IH; reflexivity.
Qed.

Lemma pick_combine {A B : Type} (flags : list bool) (a : list A) (b : list B) :
  AverageDWModel.pick flags (combine a b)
  = combine (AverageDWModel.pick flags a) (AverageDWModel.pick flags b).
Proof.
  unfold AverageDWModel.pick. revert a b.
  induction flags as [|f flags IH]; intros a b; [reflexivity|].
  destruct a as [|x a]; [reflexivity|].
  destruct b as [|y b].
  - cbn [combine filter fst map snd].
    destruct f; cbn [map snd combine];
      [|destruct (map snd (filter _ (combine flags a))); reflexivity].
    destruct (map snd (filter (fun fx : bool * A => fst fx) (combine flags a)));
      reflexivity.
  - cbn [combine filter fst].
    destruct f; cbn [map snd combine]; rewrite IH; reflexivity.
Qed.

(** For a model that computes voxel by voxel, the session under a mask
    holds, at every voxel of the mask, the cast to single precision of the
    value that the session without a mask gives at that voxel; outside the
    mask it is zero. *)
Lemma masked_session_agrees {V Obj GTab Opt : Type}
  `{E : External V Obj GTab Opt}
  (m : Obj) (train : ndarray V -> Obj) (F : GTab -> list V -> option V -> V)
  (self : BaseModel.t V Obj) (mask : ndarray bool) (data : ndarray V)
  (whole : option (ndarray V))
  (w : nat) (n : Z) (gradient : gradient_like V) (out : list string)
  (g : GTab) :
  voxelwise m train F ->
  (1 <= n)%Z ->
  BaseModel._model self = Some m ->
  BaseModel._mask self = Some mask ->
  restricted mask (BaseModel._S0 self) whole ->
  wf_nd mask ->
  wf_nd data ->
  shape data = shape mask ++ [w] ->
  0 < w ->
  _rasb2dipy gradient = (out, Ok g) ->
  let flags := elems mask in
  let unmasked :=
    BaseModel.mk (Some m) None whole (BaseModel._models self)
                 (BaseModel._datashape self) in
  exists rm ru : ndarray V,
    BaseModel.predict (fst (BaseModel.fit self data (Some n))) gradient []
    = (out, Ok rm)
    /\ BaseModel.predict (fst (BaseModel.fit unmasked data (Some n))) gradient []
       = (out, Ok ru)
    /\ shape rm = shape mask
    /\ shape ru = but_last (shape data)
    /\ forall i : nat,
         i < length flags ->
         nth i (elems rm) zero
         = if nth i flags false
           then as_float32 (nth i (elems ru) zero)
           else zero.
Proof.
  intros HV Hn Hm Hmask Hres Hwfm Hwfd Hsh Hw Hg flags unmasked.
  set (rows := rows_of w (length flags) (elems data)).
  set (bs := baselines whole (length flags)).
  set (pairs := combine rows bs).
  set (value := fun rb : list V * option V => F g (fst rb) (snd rb)).
  assert (Hbl : but_last (shape data) = shape mask)
    by (rewrite Hsh; unfold but_last; apply removelast_last).
  assert (Hrows : length rows = length flags) by apply rows_of_length.
  assert (Hwide : Forall (fun r => length r = w) rows).
  { apply rows_of_widths. unfold wf_nd in *.
    unfold flags. rewrite Hwfd, Hsh, size_of_extend, Hwfm. lia. }
  assert (Hfu : baseline_fits whole (length flags)).
  { unfold restricted in Hres.
    destruct (BaseModel._S0 self) as [sm|], whole as [su|];
      try contradiction; [|exact I].
    destruct Hres as [H1 [H2 _]]. split; assumption. }
  assert (Hbs : length bs = length flags)
    by (apply baselines_length; exact Hfu).
  assert (Hfm : baseline_fits (BaseModel._S0 self) (count_true flags)).
  { unfold restricted in Hres.
    destruct (BaseModel._S0 self) as [sm|], whole as [su|];
      try contradiction; [|exact I].
    destruct Hres as [_ [H2 [H3 H4]]]. split; [exact H3|].
    rewrite H4. apply pick_length. exact H2. }
  assert (Hbm : baselines (BaseModel._S0 self) (count_true flags)
                = AverageDWModel.pick flags bs).
  { unfold bs, baselines, restricted in *.
    destruct (BaseModel._S0 self) as [sm|], whole as [su|];
      try contradiction.
    - destruct Hres as [_ [_ [_ H4]]]. rewrite H4. symmetry. apply pick_map.
    - symmetry. apply pick_repeat. }
  pose proof (select_voxels_under_mask self data w Hmask Hsh) as Hselm.
  fold flags in Hselm. fold rows in Hselm.
  assert (Hselu : BaseModel.select_voxels unmasked data
                  = Ok (mk_nd [length flags; w] (elems data))).
  { rewrite (select_voxels_no_mask unmasked data (shape mask) eq_refl Hsh Hw).
    unfold flags. rewrite Hwfm. reflexivity. }
  assert (Hvm : voxel_values F g (count_true flags) w
                  (concat (select_rows flags rows)) (BaseModel._S0 self)
                = map value (AverageDWModel.pick flags pairs)).
  { unfold voxel_values.
    rewrite <- (select_rows_length flags rows Hrows) at 1.
    rewrite rows_of_concat by (apply select_rows_widths; exact Hwide).
    rewrite Hbm, select_rows_filter.
    change (map snd (filter (fun br : bool * list V => fst br)
                            (combine flags rows)))
      with (AverageDWModel.pick flags rows).
    unfold pairs. rewrite pick_combine. reflexivity. }
  assert (Hvu : voxel_values F g (length flags) w (elems data) whole
                = map value pairs) by reflexivity.
  exists (mk_nd (shape mask)
            (scatter flags (repeat zero (size_of (shape mask)))
                     (map as_float32
                          (map value (AverageDWModel.pick flags pairs))))).
  exists (mk_nd (but_last (shape data)) (map value pairs)).
  assert (Hpairs : length pairs = length flags)
    by (unfold pairs; rewrite length_combine; lia).
  split; [|split; [|split; [|split]]].
  - rewrite (session HV self data gradient Hn Hm Hselm eq_refl Hfm Hg).
    cbn [elems]. rewrite Hvm.
    rewrite (reassemble_values self data _ Hselm eq_refl)
      by (rewrite length_map; apply pick_length; exact Hpairs).
    rewrite Hmask, Hbl. reflexivity.
  - rewrite (session HV unmasked data gradient Hn eq_refl Hselu eq_refl Hfu Hg).
    cbn [BaseModel._S0 unmasked elems]. rewrite Hvu.
    rewrite (reassemble_values unmasked data _ Hselu eq_refl)
      by (rewrite length_map; exact Hpairs).
    reflexivity.
  - reflexivity.
  - reflexivity.
  - intros i Hi. cbn [elems].
    replace (size_of (shape mask)) with (length flags) by exact Hwfm.
    rewrite map_map.
    rewrite (scatter_select (fun rb => as_float32 (value rb)) zero flags pairs
               Hpairs eq_refl).
    rewrite (nth_map_in _ _ zero (false, ([], None)))
      by (rewrite length_combine; lia).
    rewrite combine_nth by (symmetry; exact Hpairs).
    cbn [fst snd].
    destruct (nth i flags false); [|reflexivity].
    rewrite (nth_map_in _ _ zero ([], None)) by lia.
    reflexivity.
Qed.

(** ** The number of blocks at [predict] *)

Lemma set_item_length {A : Type} (l : list A) (i : nat) (x : A) :
  length (set_item l i x) = length l.
Proof.
  revert i. induction l as [|h l IH]; intros i; simpl; [reflexivity|].
  destruct i; simpl; [reflexivity|]. rewrite IH. reflexivity.
Qed.

Lemma store_results_length {A : Type} (results : list (A * nat))
  (target : list A) :
  length (store_results target results) = length target.
Proof.
  unfold store_results. revert target.
  induction results as [|r results IH]; intros target; simpl; [reflexivity|].
  rewrite IH. apply set_item_length.
Qed.

Lemma map_result_error {A B : Type} (f : A -> result B) (xs : list A) (e : exn) :
  map_result f xs = Err e -> exists x, In x xs /\ f x = Err e.
Proof.
  induction xs as [|x xs IH]; simpl; [discriminate|].
  destruct (f x) as [y|e'] eqn:Ex; simpl.
  - destruct (map_result f xs) as [ys|e'']; simpl; [discriminate|].
    intros [= <-]. destruct (IH eq_refl) as [x' [Hin Hx']].
    exists x'. split; [right; exact Hin | exact Hx'].
  - intros [= <-]. exists x. split; [left; reflexivity | exact Ex].
Qed.

Lemma jobs_or_1_idem (n_jobs : option Z) :
  BaseModel.jobs_or_1 (Some (BaseModel.jobs_or_1 n_jobs))
  = BaseModel.jobs_or_1 n_jobs.
Proof.
  destruct n_jobs as [[| |]|]; reflexivity.
Qed.

Lemma fit_reads_jobs {V Obj GTab Opt : Type} `{E : External V Obj GTab Opt}
  (self : BaseModel.t V Obj) (data : ndarray V) (n_jobs : option Z) :
  BaseModel.fit self data n_jobs
  = BaseModel.fit self data (Some (BaseModel.jobs_or_1 n_jobs)).
Proof.
  unfold BaseModel.fit. rewrite jobs_or_1_idem. reflexivity.
Qed.

Lemma list_as_nth {A : Type} (l : list A) (d : A) :
  l = map (fun i => nth i l d) (seq 0 (length l)).
Proof.
  apply (nth_ext _ _ d d).
  - rewrite length_map, length_seq. reflexivity.
  - intros i Hi.
    rewrite (nth_map_in (fun i => nth i l d) (seq 0 (length l)) d 0)
      by (rewrite length_seq; exact Hi).
    rewrite seq_nth by exact Hi. reflexivity.
Qed.

Lemma map_result_ext_in {A B : Type} (f h : A -> result B) (xs : list A) :
  (forall x, In x xs -> f x = h x) -> map_result f xs = map_result h xs.
Proof.
  induction xs as [|x xs IH]; intros H; simpl; [reflexivity|].
  rewrite (H x (or_introl eq_refl)).
  rewrite IH by (intros y Hy; apply H; right; exact Hy).
  reflexivity.
Qed.

Lemma map_result_indexed {B : Type} (h : nat -> result B) (l : list nat) :
  map_result (fun i => let* y := h i in Ok (Some y, i)) l
  = (let* ys := map_result h l in Ok (combine (map Some ys) l)).
Proof.
  induction l as [|i l IH]; simpl; [reflexivity|].
  destruct (h i) as [y|e]; simpl; [|reflexivity].
  rewrite IH. destruct (map_result h l) as [ys|e]; reflexivity.
Qed.

(** With one model stored, [predict] predicts in one piece; with a list of
    several models and no single model, it predicts block by block: one
    prediction for each model of the list. *)
Lemma predict_voxels_one {V Obj GTab Opt : Type} `{E : External V Obj GTab Opt}
  (st : BaseModel.t V Obj) (g : GTab) :
  BaseModel._model st <> None ->
  BaseModel.predict_voxels st g []
  = spec_serial_prediction (BaseModel._model st) (BaseModel._S0 st) g.
Proof.
  intros Hm. unfold BaseModel.predict_voxels, BaseModel.n_models.
  destruct (BaseModel._model st) as [m|]; [|contradiction].
  unfold call_with, _exec_predict, spec_serial_prediction.
  cbn [Nat.eqb existsb app bind kw_remove filter fst negb String.eqb Ascii.eqb
       Bool.eqb not_none kw_get].
  destruct (model_predict m g (BaseModel._S0 st)); reflexivity.
Qed.

Lemma predict_voxels_blocks {V Obj GTab Opt : Type}
  `{E : External V Obj GTab Opt}
  (st : BaseModel.t V Obj) (ms : list (option Obj)) (g : GTab) (n : nat) :
  BaseModel._model st = None ->
  BaseModel._models st = Some ms ->
  length ms = n ->
  1 < n ->
  splittable (BaseModel._S0 st) = true ->
  BaseModel.predict_voxels st g []
  = spec_chunked_prediction ms (BaseModel._S0 st) g n.
Proof.
  intros Hm Hms Hlen Hn Hsp.
  unfold BaseModel.predict_voxels.
  rewrite (n_models_chunked st Hm Hms)
    by (intros Hnil; rewrite Hnil in Hlen; simpl in Hlen; lia).
  rewrite Hlen, Hms.
  destruct (Nat.eqb_spec n 1) as [->|_]; [lia|].
  set (S0s := map (fun i => option_map (fun s => spec_block s n i)
                                        (BaseModel._S0 st)) (seq 0 n)).
  assert (HS0 : (match BaseModel._S0 st with
                 | None => Ok (repeat None n)
                 | Some s0 =>
                     let* parts := array_split s0 (Z.of_nat n) in
                     Ok (map Some parts)
                 end) = Ok S0s).
  { subst S0s. destruct (BaseModel._S0 st) as [s0|].
    - cbn [splittable] in Hsp. unfold ndim in Hsp.
      rewrite array_split_spec
        by (lia || (intros Hnil; rewrite Hnil in Hsp; discriminate Hsp)).
      rewrite Nat2Z.id. unfold spec_blocks. cbn [bind option_map].
      rewrite map_map. reflexivity.
    - cbn [option_map]. rewrite map_const, length_seq. reflexivity. }
  rewrite HS0. cbn [bind].
  assert (Hcomb : combine (seq 0 n) ms
                  = map (fun i => (i, nth i ms None)) (seq 0 n)).
  { rewrite <- combine_seq_map. f_equal. rewrite <- Hlen.
    apply list_as_nth. }
  unfold parallel, enumerate. rewrite Hlen, Hcomb, map_result_map.
  rewrite (map_result_ext_in _
             (fun i => let* y := spec_block_prediction ms (BaseModel._S0 st)
                                   g n i in
                       Ok (Some y, i))).
  - rewrite map_result_indexed. unfold spec_chunked_prediction.
    destruct (map_result (spec_block_prediction ms (BaseModel._S0 st) g n)
                         (seq 0 n)) as [ys|e] eqn:Eys; [|reflexivity].
    cbn [bind]. apply map_result_length in Eys. rewrite length_seq in Eys.
    rewrite store_results_seq
      by (rewrite ?length_map, ?repeat_length; (exact Eys || reflexivity)).
    rewrite assigned_some. reflexivity.
  - intros i Hi. apply in_seq in Hi. cbn [fst snd].
    unfold delayed_with, _exec_predict, spec_block_prediction.
    cbn [find existsb app bind kw_get String.eqb Ascii.eqb Bool.eqb].
    destruct (nth i ms None) as [m|]; [|reflexivity].
    cbn [not_none bind]. subst S0s.
    rewrite (nth_map_in _ (seq 0 n) None 0) by (rewrite length_seq; lia).
    rewrite seq_nth by lia. cbn [Nat.add].
    destruct (model_predict m g _); reflexivity.
Qed.

Lemma predict_by_voxels {V Obj GTab Opt : Type} `{E : External V Obj GTab Opt}
  (st : BaseModel.t V Obj) (gradient : gradient_like V)
  (kw : kwargs (option (ndarray V))) :
  BaseModel.predict st gradient kw
  = (fst (_rasb2dipy gradient),
     let* g := snd (_rasb2dipy gradient) in
     let* predicted := BaseModel.predict_voxels st g kw in
     BaseModel.reassemble st predicted).
Proof.
  unfold BaseModel.predict. destruct (_rasb2dipy gradient) as [out g].
  reflexivity.
Qed.

(** C4, as the code has it.  After a [fit] that returned with [n] jobs, more
    than one, no single model is stored, the list of fitted models has [n]
    entries, and [predict] predicts in [n] blocks: block [i] by the [i]-th
    model of the list with the [i]-th of the [n] blocks of the baseline, the
    predictions joined in the order of the blocks.  After a [fit] with one
    job that stored a model, [predict] predicts in one piece with that model
    and the whole baseline.  The number of blocks is read from the stored
    state alone and nothing is checked: as soon as a single model is stored,
    [predict] takes the serial path whatever the list of models holds.  When
    the fit of a block raises, [fit] raises that same exception, to which no
    index is added. *)
Theorem predict_chunk_count {V Obj GTab Opt : Type}
  `{E : External V Obj GTab Opt}
  (self : BaseModel.t V Obj) (data : ndarray V) (n_jobs : option Z) :
  let n := BaseModel.jobs_or_1 n_jobs in
  let st' := fst (BaseModel.fit self data n_jobs) in
  (snd (BaseModel.fit self data n_jobs) = Ok tt ->
   ((1 < n)%Z ->
    BaseModel._model st' = None
    /\ (exists ms,
           BaseModel._models st' = Some ms
           /\ length ms = Z.to_nat n
           /\ forall gradient : gradient_like V,
                splittable (BaseModel._S0 self) = true ->
                BaseModel.predict st' gradient []
                = (fst (_rasb2dipy gradient),
                   let* g := snd (_rasb2dipy gradient) in
                   let* predicted :=
                     spec_chunked_prediction ms (BaseModel._S0 self) g
                                             (Z.to_nat n) in
                   BaseModel.reassemble st' predicted))
    /\ BaseModel.n_models st' = Z.to_nat n)
   /\ (n = 1%Z -> BaseModel._model st' <> None ->
       BaseModel.n_models st' = 1
       /\ forall gradient : gradient_like V,
            BaseModel.predict st' gradient []
            = (fst (_rasb2dipy gradient),
               let* g := snd (_rasb2dipy gradient) in
               let* predicted :=
                 spec_serial_prediction (BaseModel._model st')
                                        (BaseModel._S0 self) g in
               BaseModel.reassemble st' predicted)))
  /\ (forall (st : BaseModel.t V Obj) (ms : option (list (option Obj)))
             (g : GTab) (kw : kwargs (option (ndarray V))),
        BaseModel._model st <> None ->
        BaseModel.n_models (BaseModel.set_models st ms) = 1
        /\ BaseModel.predict_voxels (BaseModel.set_models st ms) g kw
           = BaseModel.predict_voxels st g kw)
  /\ (forall (m : Obj) (vox : ndarray V) (e : exn),
        (1 < n)%Z ->
        BaseModel._model self = Some m ->
        BaseModel.select_voxels self data = Ok vox ->
        snd (BaseModel.fit self data n_jobs) = Err e ->
        exists i : nat,
          i < Z.to_nat n
          /\ model_fit m (spec_block vox (Z.to_nat n) i) = Err e).
Proof.
  intros n st'. split; [|split].
  - intros Hok. subst st'. revert Hok.
    unfold BaseModel.fit. fold n.
    destruct (BaseModel.select_voxels
                (BaseModel.set_datashape self (shape data)) data)
      as [vox|e]; [|discriminate].
    destruct (Z.eqb_spec n 1) as [H1|H1].
    + destruct (_exec_fit _ vox None) as [[retval b]|e]; [|discriminate].
      intros _. split; [lia|]. intros _ Hne. cbn [fst] in *.
      split.
      * unfold BaseModel.n_models.
        destruct (BaseModel._model (BaseModel.set_model _ retval));
          [reflexivity | contradiction].
      * intros gradient. rewrite predict_by_voxels. f_equal.
        destruct (snd (_rasb2dipy gradient)) as [g|e]; [|reflexivity].
        cbn [bind]. rewrite (predict_voxels_one _ g Hne). reflexivity.
    + destruct (array_split vox n) as [chunks|e] eqn:Hsplit; [|discriminate].
      destruct (parallel _ (enumerate chunks)) as [results|e]; [|discriminate].
      intros _. split; [|lia]. intros Hn. cbn [fst].
      assert (Hlen : length (store_results (repeat (@None Obj) (Z.to_nat n))
                               results) = Z.to_nat n)
        by (rewrite store_results_length; apply repeat_length).
      split; [reflexivity|]. split.
      * eexists. split; [reflexivity|]. split; [exact Hlen|].
        intros gradient Hsp. rewrite predict_by_voxels. f_equal.
        destruct (snd (_rasb2dipy gradient)) as [g|e]; [|reflexivity].
        cbn [bind].
        assert (Hmany : 1 < Z.to_nat n) by lia.
        match goal with
        | |- (let* _ := BaseModel.predict_voxels ?s _ _ in _) = _ =>
            rewrite (@predict_voxels_blocks V Obj GTab Opt E s _ g (Z.to_nat n)
                       eq_refl eq_refl Hlen Hmany Hsp)
        end.
        reflexivity.
      * unfold BaseModel.n_models.
        cbn [BaseModel.set_model BaseModel.set_models BaseModel._model
             BaseModel._models].
        destruct (store_results (repeat None (Z.to_nat n)) results);
          [simpl in Hlen; lia | exact Hlen].
  - intros st ms g kw Hne.
    unfold BaseModel.predict_voxels, BaseModel.n_models.
    cbn [BaseModel.set_models BaseModel._model BaseModel._models
         BaseModel._S0].
    destruct (BaseModel._model st); [|contradiction].
    split; reflexivity.
  - intros m vox e Hn Hm Hsel.
    rewrite (fit_reads_jobs self data n_jobs). fold n.
    rewrite (fit_chunked_run self data Hn Hm Hsel).
    destruct (map_result (model_fit m) (spec_blocks vox (Z.to_nat n)))
      as [fitted|e'] eqn:Hfit; cbn [snd]; [discriminate|].
    intros [= <-].
    destruct (map_result_error _ _ Hfit) as [b [Hin Hb]].
    unfold spec_blocks in Hin. apply in_map_iff in Hin.
    destruct Hin as [i [<- Hi]]. apply in_seq in Hi.
    exists i. split; [lia | exact Hb].
Qed.

Lemma predict_chunk_count_witness :
  let st' := fst (BaseModel.fit (E := Toy.library false) Toy.fresh Toy.volume
                                (Some 4%Z)) in
  snd (BaseModel.fit (E := Toy.library false) Toy.fresh Toy.volume (Some 4%Z))
  = Ok tt
  /\ (1 < 4)%Z
  /\ splittable (BaseModel._S0 Toy.fresh) = true
  /\ BaseModel.n_models st' = 4
  /\ exists ms : list (option Toy.obj),
       BaseModel._models st' = Some ms
       /\ length ms = 4
       /\ BaseModel.predict (E := Toy.library false) st' Toy.one_gradient []
          = (fst (_rasb2dipy (E := Toy.library false) Toy.one_gradient),
             let* g := snd (_rasb2dipy (E := Toy.library false)
                                       Toy.one_gradient) in
             let* predicted :=
               spec_chunked_prediction (E := Toy.library false) ms None g 4 in
             BaseModel.reassemble (E := Toy.library false) st' predicted).
Proof.
  intros st'.
  split; [reflexivity|]. split; [lia|]. split; [reflexivity|].
  destruct (predict_chunk_count (E := Toy.library false) Toy.fresh Toy.volume
              (Some 4%Z)) as [H _].
  destruct (H eq_refl) as [Hmany _].
  destruct (Hmany ltac:(reflexivity)) as [_ [[ms [Hms [Hlen Hpred]]] Hcount]].
  split; [exact Hcount|].
  exists ms. split; [exact Hms|]. split; [exact Hlen|].
  exact (Hpred Toy.one_gradient eq_refl).
Defined.

(** C4, as stated, fails.  A fit with one job succeeds; a second fit with
    seven jobs raises in its last block, after the list of seven models has
    been laid out; [predict] then reports nothing and predicts serially with
    the stale model.  And the exception of a failing block is the same
    whether the block is the fourth or the seventh. *)
Lemma stale_model_predicts_serially :
  let fit := BaseModel.fit (E := Toy.library true) in
  let st1 := fst (fit Toy.fresh Toy.volume (Some 1%Z)) in
  let second := fit st1 Toy.volume (Some 7%Z) in
  let masked :=
    BaseModel.mk (Some Toy.Untrained) (Some Toy.mask) None None None in
  snd second = Err (ExternalError "singular fit")
  /\ BaseModel._models (fst second) = Some (repeat None 7)
  /\ BaseModel.n_models (fst second) = 1
  /\ BaseModel.predict (E := Toy.library true) (fst second) Toy.one_gradient []
     = ([], Ok (mk_nd [2; 1; 3] (map Toy.z [3; 7; 11; 15; 19; 23]%Z)))
  /\ snd (fit masked Toy.volume (Some 4%Z))
     = Err (ExternalError "singular fit")
  /\ snd (fit Toy.fresh Toy.volume (Some 7%Z))
     = Err (ExternalError "singular fit").
Proof.
  repeat split; reflexivity.
Qed.

(** ** The trivial model *)

(** C6.  Constructing [TrivialB0Model] without a baseline raises
    [ValueError("S0 must be provided")]; with a baseline, [fit] changes
    nothing and returns [None], and [predict] returns the stored baseline,
    whatever the gradient and the keyword arguments. *)
Theorem trivial_model_returns_baseline {G S K A : Type}
  (gtab gradient : G) (S0 : S) (kw kw' kw'' : kwargs K) (args : list A) :
  TrivialB0Model.init (S := S) gtab None kw
  = Err (ValueError "S0 must be provided")
  /\ TrivialB0Model.init gtab (Some S0) kw = Ok (TrivialB0Model.mk S0)
  /\ TrivialB0Model.fit (TrivialB0Model.mk S0) args kw'
     = (TrivialB0Model.mk S0, None)
  /\ TrivialB0Model.predict (TrivialB0Model.mk S0) gradient kw'' = S0.
Proof.
  repeat split.
Qed.

(** ** The gradient adapter *)

(** C8.  A vector whose size is not 4 raises
    [ValueError("Missing gradient information.")], the configuration error
    of the specification; a table whose first extent is not 4 is transposed
    before the conversion, so a table of [N] rows and 4 columns is converted
    as one of 4 rows and [N] columns; a table of 4 rows and 4 columns prints
    the warning, is not transposed, and the adapter raises nothing of its
    own: the outcome is that of [gradient_table]. *)
Theorem rasb2dipy_orientation {V Obj GTab Opt : Type}
  `{E : External V Obj GTab Opt} :
  (forall v : list V,
      length v <> 4 ->
      _rasb2dipy (Vec v) = ([], Err (ValueError "Missing gradient information.")))
  /\ (forall m : matrix V,
         nrows m <> 4 ->
         _rasb2dipy (Mat m)
         = ([], let* bvals := row_at (transpose m) 3 in
                gradient_table bvals (transpose (first_rows 3 (transpose m))))
         /\ nrows (transpose m) = ncols m
         /\ ncols (transpose m) = nrows m)
  /\ (forall (m : matrix V) (r0 r1 r2 r3 : list V),
         nrows m = 4 -> ncols m = 4 -> mrows m = [r0; r1; r2; r3] ->
         _rasb2dipy (Mat m)
         = (["Warning: make sure gradient information is not transposed!"],
            gradient_table r3 (transpose (mk_mat 3 4 [r0; r1; r2])))).
Proof.
  split; [|split].
  - intros v Hv. unfold _rasb2dipy.
    destruct (Nat.eqb_spec (length v) 4); [contradiction | reflexivity].
  - intros m Hm. unfold _rasb2dipy.
    destruct (Nat.eqb_spec (nrows m) 4); [contradiction|].
    repeat split.
  - intros m r0 r1 r2 r3 Hr Hc Hrows. unfold _rasb2dipy.
    rewrite Hr, Hc. cbn [Nat.eqb negb andb].
    unfold row_at, first_rows. rewrite Hrows, Hr, Hc. reflexivity.
Qed.

Lemma rasb2dipy_orientation_witness :
  _rasb2dipy (E := Toy.library false) (Vec (map Toy.z [1; 0; 0]%Z))
  = ([], Err (ValueError "Missing gradient information."))
  /\ _rasb2dipy (E := Toy.library false)
       (Mat (mk_mat 2 4 [map Toy.z [1; 0; 0; 1000]; map Toy.z [0; 1; 0; 2000]]%Z))
     = ([], Ok (map Toy.z [1000; 2000]%Z,
                mk_mat 2 3 [map Toy.z [1; 0; 0]; map Toy.z [0; 1; 0]]%Z)).
Proof.
  destruct (rasb2dipy_orientation (E := Toy.library false)) as [H1 [H2 _]].
  split.
  - apply H1. simpl. lia.
  - assert (Hr : nrows (mk_mat 2 4 [map Toy.z [1; 0; 0; 1000]%Z;
                                     map Toy.z [0; 1; 0; 2000]%Z]) <> 4)
      by (simpl; lia).
    destruct (H2 _ Hr) as [H _]. rewrite H. reflexivity.
Defined.

(** ** The tensor model *)

(** C10.  [DTIModel.predict] drops its keyword arguments and calls the
    engine without any: two calls that differ only in their keyword
    arguments give the same outcome. *)
Theorem dti_predict_ignores_kwargs {Obj GTab Opt : Type}
  `{E : External Q Obj GTab Opt}
  (self : BaseModel.t Q Obj) (gradient : gradient_like Q)
  (kw1 kw2 : kwargs (option (ndarray Q))) :
  DTIModel.predict self gradient kw1 = DTIModel.predict self gradient kw2
  /\ DTIModel.predict self gradient kw1 = BaseModel.predict self gradient [].
Proof.
  split; reflexivity.
Qed.

(** The engine itself does read them: a baseline passed by keyword collides
    with the one the engine passes. *)
Lemma base_predict_rejects_S0 :
  let st := fst (BaseModel.fit (E := Toy.library false) Toy.fresh Toy.volume
                               (Some 1%Z)) in
  BaseModel.predict (E := Toy.library false) st Toy.one_gradient [("S0", None)]
  = ([], Err (TypeError "got multiple values for keyword argument"))
  /\ DTIModel.predict (E := Toy.library false) st Toy.one_gradient [("S0", None)]
     = BaseModel.predict (E := Toy.library false) st Toy.one_gradient [].
Proof.
  split; reflexivity.
Qed.

(** ** The shell average *)







Lemma scale_width (row drift : list Q) (k : nat) :
  length row = k -> length drift = k ->
  length (AverageDWModel.scale row drift) = k.
Proof.
  intros Hr Hd. unfold AverageDWModel.scale.
  rewrite length_map, length_combine. lia.
Qed.

Lemma regress_out_4d (rows : list (list Q)) (x y z k : nat) :
  length rows = size_of [x; y; z] ->
  Forall (fun r => length r = k) rows ->
  AverageDWModel.regress_out (mk_nd [x; y; z; k] (concat rows))
  = let* centers :=
      map_result (fun j => np_median (column j rows)) (seq 0 k) in
    let* reference :=
      np_percentile (filter (fun c => Qle_bool 1 c) centers) (inject_Z 75) in
    Ok (mk_nd [x; y; z; k]
          (concat (map (fun r => AverageDWModel.scale r
                                   (drift_of centers reference)) rows))).
Proof.
  intros Hlen Hw. unfold AverageDWModel.regress_out.
  cbn [ndim shape length Nat.ltb Nat.leb Nat.eqb firstn skipn elems].
  replace (size_of [k]) with k by (simpl; lia).
  rewrite <- Hlen, rows_of_concat by exact Hw.
  destruct (map_result _ (seq 0 k)) as [centers|e]; [|reflexivity].
  cbn [bind].
  destruct (np_percentile _ _) as [reference|e]; [|reflexivity].
  cbn [bind]. unfold drift_of. rewrite map_map. reflexivity.
Qed.







Lemma or_nan_only {A : Type} (r : result A) :
  nan_only r ->
  or_nan r = Ok match r with
                | Ok a => Some a
                | Err _ => None
                end.
Proof.
  intros H. destruct r as [a|e]; [reflexivity|].
  destruct (H e eq_refl) as [msg ->]. reflexivity.
Qed.









(** ** The baseline of the wrapped models *)

Lemma Qlt_bool_iff (x y : Q) : Qlt_bool x y = true <-> (x < y)%Q.
Proof.
  unfold Qlt_bool. rewrite negb_true_iff. split.
  - intros H. apply Qnot_le_lt. intros Hle.
    apply Qle_bool_iff in Hle. congruence.
  - intros H. destruct (Qle_bool y x) eqn:E; [|reflexivity].
    apply Qle_bool_iff in E. exfalso. exact (Qlt_not_le _ _ H E).
Qed.

Lemma clip_bounds (x lo hi : Q) :
  (lo <= hi)%Q -> (lo <= clip x lo hi /\ clip x lo hi <= hi)%Q.
Proof.
  intros Hb. unfold clip.
  destruct (Qlt_bool x lo) eqn:E1.
  - destruct (Qlt_bool hi lo) eqn:E2.
    + apply Qlt_bool_iff in E2. exfalso. exact (Qlt_not_le _ _ E2 Hb).
    + split; [apply Qle_refl | exact Hb].
  - assert (Hx : (lo <= x)%Q).
    { apply Qnot_lt_le. intros H. apply Qlt_bool_iff in H. congruence. }
    destruct (Qlt_bool hi x) eqn:E2.
    + split; [exact Hb | apply Qle_refl].
    + split; [exact Hx|].
      apply Qnot_lt_le. intros H. apply Qlt_bool_iff in H. congruence.
Qed.

Lemma is_prefix_refl (sh : list nat) : is_prefix sh sh = true.
Proof.
  induction sh as [|d sh IH]; simpl; [reflexivity|].
  rewrite Nat.eqb_refl. exact IH.
Qed.

Lemma concat_select_entries {A : Type} (flags : list bool) (l : list A) :
  concat (select_rows flags (rows_of 1 (length flags) l))
  = AverageDWModel.pick flags l.
Proof.
  unfold AverageDWModel.pick. revert l.
  induction flags as [|f flags IH]; intros l; [reflexivity|].
  destruct l as [|a l].
  - cbn [length rows_of firstn skipn select_rows combine filter map].
    destruct f; cbn [concat app]; rewrite IH; destruct flags; reflexivity.
  - cbn [length rows_of firstn skipn select_rows combine filter map fst snd].
    destruct f; cbn [concat app map snd]; rewrite IH; reflexivity.
Qed.

(** A vector indexed by a mask of its own extent: the entries at the set
    positions. *)
Lemma bool_index_entries {A : Type} (s : ndarray A) (mask : ndarray bool) :
  shape mask = shape s ->
  bool_index s mask
  = Ok (mk_nd [count_true (elems mask)]
          (AverageDWModel.pick (elems mask) (elems s))).
Proof.
  intros Hsh. unfold bool_index, ndim.
  rewrite Hsh, is_prefix_refl, skipn_all. cbn [size_of fold_right].
  rewrite concat_select_entries. reflexivity.
Qed.

Lemma finite_entries_map (v : list Q) : finite_entries (map Finite v) = Some v.
Proof.
  induction v as [|q v IH]; [reflexivity|].
  cbn [map finite_entries fold_right]. fold (finite_entries (map Finite v)).
  rewrite IH. reflexivity.
Qed.

Lemma finite_entries_some (l : list float) (v : list Q) :
  finite_entries l = Some v -> l = map Finite v.
Proof.
  revert v. induction l as [|x l IH]; intros v H.
  - injection H as <-. reflexivity.
  - cbn [finite_entries fold_right] in H. fold (finite_entries l) in H.
    destruct x as [q|]; [|discriminate H].
    destruct (finite_entries l) as [qs|]; [|discriminate H].
    injection H as <-. cbn [map]. f_equal. apply IH. reflexivity.
Qed.

Lemma finite_array_map (sh : list nat) (v : list Q) :
  finite_array (mk_nd sh (map Finite v)) = Ok (mk_nd sh v).
Proof.
  unfold finite_array. cbn [elems shape]. rewrite finite_entries_map.
  reflexivity.
Qed.

Lemma normalize_S0_values (S0 : ndarray Q) (top : Q) :
  np_max (elems S0) = Ok top ->
  Qeq_bool top 0 = false ->
  existsb overflows32 (elems S0) = false ->
  normalize_S0 S0
  = Ok (mk_nd (shape S0)
          (map Finite
             (map (fun x => clip (float32 x / top) (1 # 100000) 1)
                  (elems S0)))).
Proof.
  intros Hmax Htop Hfit. unfold normalize_S0. rewrite Hmax. cbn [bind].
  do 2 f_equal. rewrite map_map. apply map_ext_in. intros x Hx.
  unfold normalized. rewrite Htop, andb_false_l, orb_false_r.
  destruct (overflows32 x) eqn:Ex; [|reflexivity].
  assert (Hex : existsb overflows32 (elems S0) = true)
    by (apply existsb_exists; exists x; split; assumption).
  congruence.
Qed.

Lemma np_percentile_defined (l : list Q) (q : Q) :
  l <> [] -> exists p : Q, np_percentile l q = Ok p.
Proof.
  destruct l as [|x l]; [contradiction|]. intros _.
  eexists. reflexivity.
Qed.

Lemma percentile_mask_values (sh : list nat) (v : list Q) (p : Q) :
  np_percentile v (inject_Z 35) = Ok p ->
  percentile_mask (mk_nd sh (map Finite v))
  = mk_nd sh (map (fun x => Qlt_bool p x) v).
Proof.
  intros Hp. unfold percentile_mask. cbn [elems shape].
  rewrite finite_entries_map, Hp. reflexivity.
Qed.

(** The baseline at the voxels of a mask of its extent. *)
Lemma baseline_under_mask (sh : list nat) (v : list Q) (mask : ndarray bool) :
  shape mask = sh ->
  (let* s' := bool_index (mk_nd sh (map Finite v)) mask in finite_array s')
  = Ok (mk_nd [count_true (elems mask)] (AverageDWModel.pick (elems mask) v)).
Proof.
  intros Hsh.
  rewrite (@bool_index_entries float (mk_nd sh (map Finite v)) mask Hsh).
  cbn [bind elems]. rewrite pick_map. apply finite_array_map.
Qed.

Lemma kw_only_removed {A : Type} (k : string) (kw : kwargs A) :
  kw_only [k] (kw_remove k kw) = [].
Proof.
  unfold kw_only, kw_remove. induction kw as [|[k' v] kw IH]; [reflexivity|].
  cbn [filter fst]. destruct (String.eqb_spec k k') as [->|Hk]; cbn [negb].
  - exact IH.
  - cbn [filter fst existsb]. rewrite String.eqb_sym.
    destruct (String.eqb_spec k k'); [contradiction|].
    cbn [orb]. exact IH.
Qed.

(** C7.  For the tensor, the kurtosis and the sparse fascicle model
    constructed with a baseline [S0] (whose maximum is not zero, and whose
    entries are within the range of single precision): every entry of the
    baseline is cast to single precision, divided by the maximum of [S0] and
    clipped to [[1e-5, 1]]; without an explicit mask, the mask holds exactly
    the voxels whose normalized baseline exceeds the 35th percentile of the
    normalized baseline; and the stored baseline is the normalized baseline
    at the voxels of the mask, explicit or derived. *)
Theorem delegated_baseline {Obj GTab Opt : Type} `{E : External Q Obj GTab Opt}
  `{R : Reconst Obj GTab Opt}
  (gtab : GTab) (S0 : ndarray Q) (top : Q) (kw : kwargs Opt) :
  np_max (elems S0) = Ok top ->
  Qeq_bool top 0 = false ->
  existsb overflows32 (elems S0) = false ->
  let values :=
    map (fun x => clip (float32 x / top) (1 # 100000) 1) (elems S0) in
  let stored (mask : ndarray bool) (model : Obj) :=
    BaseModel.mk (Some model) (Some mask)
      (Some (mk_nd [count_true (elems mask)]
               (AverageDWModel.pick (elems mask) values)))
      None None in
  let solver :=
    match kw_get "solver" kw with
    | Some s => if is_none s then of_string "ElasticNet" else s
    | None => of_string "ElasticNet"
    end in
  let built (mask : ndarray bool) :=
    DTIModel.init gtab (Some S0) None kw
    = (let* model := TensorModel gtab (kw_only allowed_options kw) in
       Ok (stored mask model))
    /\ DKIModel.init gtab (Some S0) None kw
       = (let* model :=
            DiffusionKurtosisModel gtab (kw_only allowed_options kw) in
          Ok (stored mask model))
    /\ SparseFascicleModel.init gtab (Some S0) None kw
       = (let* model := DipySparseFascicleModel gtab [] in
          Ok (SparseFascicleModel.mk (stored mask model) solver)) in
  let built_with (mask : ndarray bool) :=
    DTIModel.init gtab (Some S0) (Some mask) kw
    = (let* model := TensorModel gtab (kw_only allowed_options kw) in
       Ok (stored mask model))
    /\ DKIModel.init gtab (Some S0) (Some mask) kw
       = (let* model :=
            DiffusionKurtosisModel gtab (kw_only allowed_options kw) in
          Ok (stored mask model))
    /\ SparseFascicleModel.init gtab (Some S0) (Some mask) kw
       = (let* model := DipySparseFascicleModel gtab [] in
          Ok (SparseFascicleModel.mk (stored mask model) solver)) in
  Forall (fun v => (1 # 100000 <= v /\ v <= 1)%Q) values
  /\ (exists p : Q,
         np_percentile values (inject_Z 35) = Ok p
         /\ (forall v : Q, Qlt_bool p v = true <-> (p < v)%Q)
         /\ built (mk_nd (shape S0) (map (fun v => Qlt_bool p v) values)))
  /\ (forall mask : ndarray bool, shape mask = shape S0 -> built_with mask).
Proof.
  intros Hmax Htop Hfit values stored solver built built_with.
  pose proof (normalize_S0_values S0 Hmax Htop Hfit) as Hnorm.
  fold values in Hnorm.
  split; [|split].
  - unfold values. apply Forall_map, Forall_forall. intros x _.
    apply clip_bounds. discriminate.
  - assert (Hne : values <> []).
    { unfold values. destruct (elems S0); [discriminate Hmax|].
      discriminate. }
    destruct (np_percentile_defined (inject_Z 35) Hne) as [p Hp].
    exists p. split; [exact Hp|]. split; [intros v; apply Qlt_bool_iff|].
    set (derived := mk_nd (shape S0) (map (fun v => Qlt_bool p v) values)).
    pose proof (@percentile_mask_values (shape S0) values p Hp) as Hmask.
    fold derived in Hmask.
    pose proof (@baseline_under_mask (shape S0) values derived eq_refl)
      as Hidx.
    split; [|split].
    + unfold DTIModel.init. rewrite Hnorm. cbn [bind].
      rewrite Hmask.
      destruct (bool_index (mk_nd (shape S0) (map Finite values)) derived)
        as [s'|e]; [|discriminate Hidx].
      cbn [bind] in Hidx |- *. rewrite Hidx. reflexivity.
    + unfold DKIModel.init. rewrite Hnorm. cbn [bind].
      rewrite Hmask.
      destruct (bool_index (mk_nd (shape S0) (map Finite values)) derived)
        as [s'|e]; [|discriminate Hidx].
      cbn [bind] in Hidx |- *. rewrite Hidx. reflexivity.
    + unfold SparseFascicleModel.init. rewrite kw_only_removed.
      rewrite Hnorm. cbn [bind]. rewrite Hmask.
      destruct (bool_index (mk_nd (shape S0) (map Finite values)) derived)
        as [s'|e]; [|discriminate Hidx].
      cbn [bind] in Hidx |- *. rewrite Hidx. reflexivity.
  - intros mask Hsh.
    pose proof (@baseline_under_mask (shape S0) values mask Hsh) as Hidx.
    split; [|split].
    + unfold DTIModel.init. rewrite Hnorm. cbn [bind].
      destruct (bool_index (mk_nd (shape S0) (map Finite values)) mask)
        as [s'|e]; [|discriminate Hidx].
      cbn [bind] in Hidx |- *. rewrite Hidx. reflexivity.
    + unfold DKIModel.init. rewrite Hnorm. cbn [bind].
      destruct (bool_index (mk_nd (shape S0) (map Finite values)) mask)
        as [s'|e]; [|discriminate Hidx].
      cbn [bind] in Hidx |- *. rewrite Hidx. reflexivity.
    + unfold SparseFascicleModel.init. rewrite kw_only_removed.
      rewrite Hnorm. cbn [bind].
      destruct (bool_index (mk_nd (shape S0) (map Finite values)) mask)
        as [s'|e]; [|discriminate Hidx].
      cbn [bind] in Hidx |- *. rewrite Hidx. reflexivity.
Qed.

Lemma delegated_baseline_witness :
  exists model : BaseModel.t Q Toy.obj,
    DTIModel.init (E := Toy.library false) ([], mk_mat 0 0 [])
                  (Some Toy.baseline) None []
    = Ok model
    /\ BaseModel._mask model
       = Some (mk_nd [2; 1; 3] [false; true; true; true; true; false])
    /\ option_map (@shape Q) (BaseModel._S0 model) = Some [4].
Proof.
  destruct (@delegated_baseline Toy.obj Toy.gtab Toy.opt (Toy.library false)
              toy_reconst ([], mk_mat 0 0 []) Toy.baseline (inject_Z 200) []
              eq_refl eq_refl eq_refl) as [_ [[p [Hp [_ [Hdti _]]]] _]].
  eexists. split; [exact Hdti|].
  injection Hp as <-. split; reflexivity.
Defined.

(** C7, the cast.  A baseline with an entry that single precision does not
    hold, 16777217, and the maximum 33554432, under a mask of all its
    voxels: divided by the maximum the entry is above one half, whereas the
    three models store 16777216 / 33554432, which is one half; and the model
    of the name [3dshore], which is the library's own, is given the baseline
    as it is. *)
Lemma stored_baseline_is_rounded :
  let S0 : ndarray Q := mk_nd [2] (map Toy.z [16777217; 33554432]%Z) in
  let mask : ndarray bool := mk_nd [2] [true; true] in
  let g : Toy.gtab := ([], mk_mat 0 0 []) in
  let stored : ndarray Q :=
    mk_nd [2] [16777216 # 33554432; 33554432 # 33554432]%Q in
  np_max (elems S0) = Ok (Toy.z 33554432)
  /\ map (fun x => clip (x / Toy.z 33554432) (1 # 100000) 1) (elems S0)
     = [16777217 # 33554432; 33554432 # 33554432]%Q
  /\ (1 # 2 < 16777217 # 33554432)%Q
  /\ (16777216 # 33554432 == 1 # 2)%Q
  /\ DTIModel.init (E := Toy.library false) g (Some S0) (Some mask) []
     = Ok (BaseModel.mk (Some (Toy.Configured "TensorModel" [])) (Some mask)
             (Some stored) None None)
  /\ DKIModel.init (E := Toy.library false) g (Some S0) (Some mask) []
     = Ok (BaseModel.mk (Some (Toy.Configured "DiffusionKurtosisModel" []))
             (Some mask) (Some stored) None None)
  /\ SparseFascicleModel.init (R := toy_reconst) g (Some S0) (Some mask) []
     = Ok (SparseFascicleModel.mk
             (BaseModel.mk (Some (Toy.Configured "SparseFascicleModel" []))
                (Some mask) (Some stored) None None)
             (Toy.OString "ElasticNet"))
  /\ ModelFactory.init (E := Toy.library false) (R := toy_reconst)
       Toy.one_gradient "3dshore"
       (ModelFactory.mk_keywords (Some (Some S0)) None
          (AverageDWModel.mk_options None None None None) [])
     = ([],
        ModelFactory.Returns
          (ModelFactory.Shore
             (Toy.Configured "ShoreModel"
                [("radial_order", Toy.ONumber (inject_Z 6));
                 ("zeta", Toy.ONumber (inject_Z 700));
                 ("lambdaN", Toy.ONumber (1 # 100000000));
                 ("lambdaL", Toy.ONumber (1 # 100000000));
                 ("S0", Toy.OArray S0)]))).
Proof.
  cbv zeta. repeat split; vm_compute; reflexivity.
Qed.

(** ** Putting back, whatever the model *)

Lemma scatter_background {A : Type} (z : A) (flags : list bool) (vals : list A)
  (i : nat) :
  length vals = count_true flags ->
  i < length flags ->
  nth i (scatter flags (repeat z (length flags)) vals) z
  = if nth i flags false then nth (rank flags i) vals z else z.
Proof.
  unfold rank, count_true. revert vals i.
  induction flags as [|f flags IH]; intros vals i Hlen Hi; simpl in Hi.
  - lia.
  - cbn [length repeat scatter]. destruct f.
    + destruct vals as [|v vals]; [discriminate|].
      simpl in Hlen. injection Hlen as Hlen.
      destruct i as [|i]; [reflexivity|].
      cbn [nth firstn filter length]. apply IH; [exact Hlen | lia].
    + destruct i as [|i]; [reflexivity|].
      cbn [nth firstn filter]. apply IH; [exact Hlen | lia].
Qed.

Lemma rank_lt (flags : list bool) (i : nat) :
  nth i flags false = true -> rank flags i < count_true flags.
Proof.
  unfold rank, count_true. revert i.
  induction flags as [|f flags IH]; intros i H.
  - destruct i; discriminate H.
  - destruct i as [|i].
    + cbn [nth] in H. subst f. cbn [firstn filter length]. lia.
    + cbn [nth] in H. specialize (IH i H).
      destruct f; cbn [firstn filter length]; lia.
Qed.

(** Under a mask, and for any model: when the predictions are a vector with
    one value for each voxel of the mask, [predict] gives the array of the
    extent of the mask that is zero outside the mask and holds, at the
    [k]-th voxel of the mask, the [k]-th prediction cast to single
    precision. *)
Lemma predict_scatters {V Obj GTab Opt : Type} `{E : External V Obj GTab Opt}
  (st : BaseModel.t V Obj) (mask : ndarray bool) (gradient : gradient_like V)
  (kw : kwargs (option (ndarray V))) (out : list string) (g : GTab)
  (vals : list V) :
  BaseModel._mask st = Some mask ->
  wf_nd mask ->
  _rasb2dipy gradient = (out, Ok g) ->
  BaseModel.predict_voxels st g kw = Ok (mk_nd [length vals] vals) ->
  length vals = count_true (elems mask) ->
  exists r : ndarray V,
    BaseModel.predict st gradient kw = (out, Ok r)
    /\ shape r = shape mask
    /\ forall i : nat,
         i < length (elems mask) ->
         nth i (elems r) zero
         = if nth i (elems mask) false
           then as_float32 (nth (rank (elems mask) i) vals zero)
           else zero.
Proof.
  intros Hmask Hwf Hg Hp Hlen.
  exists (mk_nd (shape mask)
            (scatter (elems mask) (repeat zero (size_of (shape mask)))
                     (map as_float32 vals))).
  split; [|split].
  - unfold BaseModel.predict. rewrite Hg. cbn [bind]. rewrite Hp. cbn [bind].
    unfold BaseModel.reassemble. rewrite Hmask. cbn [shape elems].
    rewrite <- (length_map as_float32 vals).
    rewrite mask_assign_vector
      by (rewrite length_map; symmetry; exact Hlen).
    reflexivity.
  - reflexivity.
  - intros i Hi. cbn [elems]. rewrite <- Hwf.
    rewrite scatter_background
      by (rewrite ?length_map; assumption).
    destruct (nth i (elems mask) false) eqn:Ei; [|reflexivity].
    apply (nth_map_in as_float32 vals zero zero).
    rewrite Hlen. apply rank_lt. exact Ei.
Qed.

(** C2, as stated, fails for a model that is deterministic but uses a
    statistic of the block it is fitted on: with two jobs the values are
    those of half the volume. *)
Lemma chunking_changes_block_statistics :
  BaseModel.predict (E := Toy.global_library)
    (fst (BaseModel.fit (E := Toy.global_library) Toy.fresh Toy.volume
                        (Some 2%Z)))
    Toy.one_gradient []
  = ([], Ok (mk_nd [2; 1; 3] (map Toy.z [21; 21; 21; 57; 57; 57]%Z)))
  /\ BaseModel.predict (E := Toy.global_library)
       (fst (BaseModel.fit (E := Toy.global_library) Toy.fresh Toy.volume
                           (Some 1%Z)))
       Toy.one_gradient []
     = ([], Ok (mk_nd [2; 1; 3] (map Toy.z [78; 78; 78; 78; 78; 78]%Z)))
  /\ BaseModel.predict (E := Toy.global_library)
       (fst (BaseModel.fit (E := Toy.global_library) Toy.fresh Toy.volume
                           (Some 2%Z)))
       Toy.one_gradient []
     <> BaseModel.predict (E := Toy.global_library)
          (fst (BaseModel.fit (E := Toy.global_library) Toy.fresh Toy.volume
                              (Some 1%Z)))
          Toy.one_gradient [].
Proof.
  split; [reflexivity|]. split; [reflexivity|].
  vm_compute. discriminate.
Qed.

Lemma predict_reshapes {V Obj GTab Opt : Type} `{E : External V Obj GTab Opt}
  (st : BaseModel.t V Obj) (sh : list nat) (gradient : gradient_like V)
  (kw : kwargs (option (ndarray V))) (out : list string) (g : GTab)
  (p : ndarray V) :
  BaseModel._mask st = None ->
  BaseModel._datashape st = Some sh ->
  _rasb2dipy gradient = (out, Ok g) ->
  BaseModel.predict_voxels st g kw = Ok p ->
  length (elems p) = size_of (but_last sh) ->
  BaseModel.predict st gradient kw = (out, Ok (mk_nd (but_last sh) (elems p))).
Proof.
  intros Hmask Hsh Hg Hp Hlen.
  unfold BaseModel.predict. rewrite Hg. cbn [bind]. rewrite Hp. cbn [bind].
  unfold BaseModel.reassemble. rewrite Hmask, Hsh. cbn [not_none bind].
  unfold reshape. rewrite Hlen, Nat.eqb_refl. reflexivity.
Qed.

(** C3, as the code has it.  Under a mask, when the predictions are one
    value for each voxel of the mask, [predict] gives an array of the extent
    of the mask, filled with zeros, in which the predictions are put at the
    voxels of the mask in order, cast to single precision: zero outside the
    mask, the cast of the prediction of the voxel inside.  Without a mask
    the predictions are reshaped to the shape recorded by [fit] without its
    last axis, and are not cast.  For a model that computes voxel by voxel,
    with or without a baseline, the value at a voxel of the mask is the cast
    to single precision of the value that the session without a mask gives
    at that voxel. *)
Theorem masked_prediction_scatter {V Obj GTab Opt : Type}
  `{E : External V Obj GTab Opt}
  (st : BaseModel.t V Obj) (gradient : gradient_like V)
  (kw : kwargs (option (ndarray V))) (out : list string) (g : GTab) :
  _rasb2dipy gradient = (out, Ok g) ->
  (forall (mask : ndarray bool) (vals : list V),
      BaseModel._mask st = Some mask ->
      wf_nd mask ->
      BaseModel.predict_voxels st g kw = Ok (mk_nd [length vals] vals) ->
      length vals = count_true (elems mask) ->
      exists r : ndarray V,
        BaseModel.predict st gradient kw = (out, Ok r)
        /\ shape r = shape mask
        /\ forall i : nat,
             i < length (elems mask) ->
             nth i (elems r) zero
             = if nth i (elems mask) false
               then as_float32 (nth (rank (elems mask) i) vals zero)
               else zero)
  /\ (forall (sh : list nat) (p : ndarray V),
         BaseModel._mask st = None ->
         BaseModel._datashape st = Some sh ->
         BaseModel.predict_voxels st g kw = Ok p ->
         length (elems p) = size_of (but_last sh) ->
         BaseModel.predict st gradient kw
         = (out, Ok (mk_nd (but_last sh) (elems p))))
  /\ (forall (m : Obj) (train : ndarray V -> Obj)
             (F : GTab -> list V -> option V -> V)
             (self : BaseModel.t V Obj) (mask : ndarray bool)
             (data : ndarray V) (whole : option (ndarray V)) (w : nat) (n : Z),
         voxelwise m train F ->
         (1 <= n)%Z ->
         BaseModel._model self = Some m ->
         BaseModel._mask self = Some mask ->
         restricted mask (BaseModel._S0 self) whole ->
         wf_nd mask ->
         wf_nd data ->
         shape data = shape mask ++ [w] ->
         0 < w ->
         let unmasked :=
           BaseModel.mk (Some m) None whole (BaseModel._models self)
                        (BaseModel._datashape self) in
         exists rm ru : ndarray V,
           BaseModel.predict (fst (BaseModel.fit self data (Some n)))
                             gradient []
           = (out, Ok rm)
           /\ BaseModel.predict (fst (BaseModel.fit unmasked data (Some n)))
                                gradient []
              = (out, Ok ru)
           /\ shape rm = shape mask
           /\ shape ru = but_last (shape data)
           /\ forall i : nat,
                i < length (elems mask) ->
                nth i (elems rm) zero
                = if nth i (elems mask) false
                  then as_float32 (nth i (elems ru) zero)
                  else zero).
Proof.
  intros Hg. split; [|split].
  - intros mask vals Hmask Hwf Hp Hlen.
    exact (predict_scatters st gradient kw Hmask Hwf Hg Hp Hlen).
  - intros sh p Hmask Hsh Hp Hlen.
    exact (predict_reshapes st gradient kw Hmask Hsh Hg Hp Hlen).
  - intros m train F self mask data whole w n HV Hn Hm Hmask Hres Hwfm Hwfd
           Hsh Hw unmasked.
    exact (@masked_session_agrees V Obj GTab Opt E m train F self mask data
             whole w n gradient out g HV Hn Hm Hmask Hres Hwfm Hwfd Hsh Hw Hg).
Qed.

Lemma masked_prediction_scatter_witness :
  let E := Toy.library false in
  let self :=
    BaseModel.mk (Some Toy.Untrained) (Some Toy.mask)
                 (Some (mk_nd [3] (map Toy.z [0; 100; 200]%Z))) None None in
  let unmasked :=
    BaseModel.mk (Some Toy.Untrained) None
                 (Some (mk_nd [6] (elems Toy.baseline))) None None in
  exists rm ru : ndarray Q,
    BaseModel.predict (E := E)
      (fst (BaseModel.fit (E := E) self Toy.volume (Some 2%Z)))
      Toy.one_gradient []
    = ([], Ok rm)
    /\ BaseModel.predict (E := E)
         (fst (BaseModel.fit (E := E) unmasked Toy.volume (Some 2%Z)))
         Toy.one_gradient []
       = ([], Ok ru)
    /\ shape rm = shape Toy.mask
    /\ shape ru = but_last (shape Toy.volume)
    /\ forall i : nat,
         i < length (elems Toy.mask) ->
         nth i (elems rm) 0%Q
         = if nth i (elems Toy.mask) false
           then float32 (nth i (elems ru) 0%Q)
           else 0%Q.
Proof.
  intros E0 self unmasked.
  destruct (@masked_prediction_scatter Q Toy.obj Toy.gtab Toy.opt
              (Toy.library false) self Toy.one_gradient []
              [] (map Toy.z [1000%Z], mk_mat 1 3 [map Toy.z [1; 0; 0]%Z])
              eq_refl) as [_ [_ H]].
  apply (H Toy.Untrained Toy.train (fun _ row s0 => Toy.value row s0)
           self Toy.mask Toy.volume
           (Some (mk_nd [6] (elems Toy.baseline))) 2 2%Z).
  - exact toy_voxelwise.
  - lia.
  - reflexivity.
  - reflexivity.
  - repeat split.
  - reflexivity.
  - reflexivity.
  - reflexivity.
  - lia.
Defined.

(** C3, as stated, fails.  Two voxels with two samples each, the first of
    them under the mask; the model predicts the sum of the samples of a
    voxel, 16777217 at the first.  Without a mask [predict] returns that
    value; under the mask it is cast to single precision, and the array
    holds 16777216. *)
Lemma masked_prediction_is_rounded :
  let E := Toy.library false in
  let data := mk_nd [1; 1; 2; 2] (map Toy.z [16777216; 1; 1; 2]%Z) in
  let masked :=
    BaseModel.mk (Some Toy.Untrained) (Some (mk_nd [1; 1; 2] [true; false]))
                 None None None in
  BaseModel.predict (E := E)
    (fst (BaseModel.fit (E := E) Toy.fresh data (Some 1%Z)))
    Toy.one_gradient []
  = ([], Ok (mk_nd [1; 1; 2] (map Toy.z [16777217; 3]%Z)))
  /\ BaseModel.predict (E := E)
       (fst (BaseModel.fit (E := E) masked data (Some 1%Z)))
       Toy.one_gradient []
     = ([], Ok (mk_nd [1; 1; 2] (map Toy.z [16777216; 0]%Z))).
Proof.
  split; vm_compute; reflexivity.
Qed.

(** * Further properties of the module *)

(** ** What [fit] keeps and what it refuses *)

Lemma exec_fit_is_model_fit {V Obj GTab Opt B : Type}
  `{E : External V Obj GTab Opt} (model : option Obj) (data : ndarray V)
  (block : B) :
  _exec_fit model data block
  = (let* retval := _model_fit model data in Ok (retval, block)).
Proof.
  unfold _exec_fit, _model_fit. destruct model; reflexivity.
Qed.

(** X1.  Whether it returns or raises, [fit] leaves the mask and the
    baseline as they were and records the shape of the data it was given. *)
Theorem fit_keeps_mask_and_baseline {V Obj GTab Opt : Type}
  `{E : External V Obj GTab Opt}
  (self : BaseModel.t V Obj) (data : ndarray V) (n_jobs : option Z) :
  let st := fst (BaseModel.fit self data n_jobs) in
  BaseModel._mask st = BaseModel._mask self
  /\ BaseModel._S0 st = BaseModel._S0 self
  /\ BaseModel._datashape st = Some (shape data).
Proof.
  unfold BaseModel.fit.
  destruct (BaseModel.select_voxels _ data) as [vox|e]; [|repeat split].
  destruct (BaseModel.jobs_or_1 n_jobs =? 1)%Z.
  - destruct (_exec_fit _ vox None) as [[retval b]|e]; repeat split.
  - destruct (array_split vox _) as [chunks|e]; [|repeat split].
    destruct (parallel _ (enumerate chunks)) as [results|e]; repeat split.
Qed.

(** X2.  A negative number of jobs is not read as "all the processors": the
    split refuses it with a [ValueError], after the shape has been recorded
    and before the list of models is touched. *)
Theorem fit_negative_jobs {V Obj GTab Opt : Type} `{E : External V Obj GTab Opt}
  (self : BaseModel.t V Obj) (data vox : ndarray V) (n : Z) :
  (n < 0)%Z ->
  BaseModel.select_voxels self data = Ok vox ->
  BaseModel.fit self data (Some n)
  = (BaseModel.set_datashape self (shape data),
     Err (ValueError "number sections must be larger than 0.")).
Proof.
  intros Hn Hsel. unfold BaseModel.fit.
  change (BaseModel.select_voxels
            (BaseModel.set_datashape self (shape data)) data)
    with (BaseModel.select_voxels self data).
  rewrite Hsel.
  assert (Hj : BaseModel.jobs_or_1 (Some n) = n) by (destruct n; reflexivity || lia).
  rewrite Hj.
  destruct (Z.eqb_spec n 1); [lia|].
  unfold array_split.
  destruct (shape vox) as [|N rest] eqn:Hsh.
  - exfalso. exact (select_voxels_shape self data Hsel Hsh).
  - destruct (Z.leb_spec n 0); [reflexivity | lia].
Qed.

Lemma fit_negative_jobs_witness :
  BaseModel.fit (E := Toy.library false) Toy.fresh Toy.volume (Some (-1)%Z)
  = (BaseModel.set_datashape Toy.fresh (shape Toy.volume),
     Err (ValueError "number sections must be larger than 0.")).
Proof.
  apply (fit_negative_jobs (E := Toy.library false) Toy.fresh Toy.volume
           (vox := mk_nd [6; 2] (elems Toy.volume))).
  - reflexivity.
  - reflexivity.
Defined.

Lemma enumerate_cons {A : Type} (x : A) (xs : list A) :
  enumerate (x :: xs) = (0, x) :: combine (seq 1 (length xs)) xs.
Proof. reflexivity. Qed.

(** A fit on an object whose single model is [None] raises, with one job or
    with several. *)
Lemma fit_without_model {V Obj GTab Opt : Type} `{E : External V Obj GTab Opt}
  (self : BaseModel.t V Obj) (data vox : ndarray V) (n_jobs : option Z) :
  BaseModel._model self = None ->
  BaseModel.select_voxels self data = Ok vox ->
  (1 <= BaseModel.jobs_or_1 n_jobs)%Z ->
  snd (BaseModel.fit self data n_jobs)
  = Err (AttributeError "'NoneType' object has no attribute 'fit'").
Proof.
  intros Hm Hsel Hn.
  pose proof (select_voxels_shape self data Hsel) as Hsh.
  unfold BaseModel.fit.
  change (BaseModel.select_voxels
            (BaseModel.set_datashape self (shape data)) data)
    with (BaseModel.select_voxels self data).
  rewrite Hsel.
  destruct (Z.eqb_spec (BaseModel.jobs_or_1 n_jobs) 1) as [H1|H1].
  - cbn [BaseModel.set_datashape BaseModel._model]. rewrite Hm. reflexivity.
  - rewrite array_split_spec by (assumption || lia).
    cbn [BaseModel.set_datashape BaseModel.set_models BaseModel._model].
    rewrite Hm. unfold spec_blocks.
    destruct (Z.to_nat (BaseModel.jobs_or_1 n_jobs)) as [|k] eqn:Hk; [lia|].
    reflexivity.
Qed.

(** X3.  A model fitted with several jobs cannot be fitted again: the fit
    set the single model to [None], and every later [fit], with one job or
    with several, raises [AttributeError]. *)
Theorem refit_after_chunked_fit_raises {V Obj GTab Opt : Type}
  `{E : External V Obj GTab Opt}
  (self : BaseModel.t V Obj) (data data' vox' : ndarray V) (n : Z)
  (n_jobs' : option Z) :
  (1 < n)%Z ->
  snd (BaseModel.fit self data (Some n)) = Ok tt ->
  BaseModel.select_voxels (fst (BaseModel.fit self data (Some n))) data'
  = Ok vox' ->
  (1 <= BaseModel.jobs_or_1 n_jobs')%Z ->
  snd (BaseModel.fit (fst (BaseModel.fit self data (Some n))) data' n_jobs')
  = Err (AttributeError "'NoneType' object has no attribute 'fit'").
Proof.
  intros Hn Hok Hsel Hn'.
  apply fit_without_model with (vox := vox'); [|exact Hsel|exact Hn'].
  clear Hsel. revert Hok. unfold BaseModel.fit.
  rewrite jobs_or_1_many by exact Hn.
  destruct (BaseModel.select_voxels _ data) as [vox|e]; [|discriminate].
  destruct (Z.eqb_spec n 1); [lia|].
  destruct (array_split vox n) as [chunks|e]; [|discriminate].
  destruct (parallel _ (enumerate chunks)) as [results|e]; [|discriminate].
  reflexivity.
Qed.

Lemma refit_after_chunked_fit_raises_witness :
  let st := fst (BaseModel.fit (E := Toy.library false) Toy.fresh Toy.volume
                               (Some 3%Z)) in
  snd (BaseModel.fit (E := Toy.library false) st Toy.volume (Some 1%Z))
  = Err (AttributeError "'NoneType' object has no attribute 'fit'").
Proof.
  apply (refit_after_chunked_fit_raises (E := Toy.library false) Toy.fresh
           Toy.volume Toy.volume (vox' := mk_nd [6; 2] (elems Toy.volume))
           (n := 3%Z) (Some 1%Z)).
  - lia.
  - reflexivity.
  - reflexivity.
  - simpl. lia.
Defined.

(** ** Keyword arguments at [predict] *)

Lemma among_spec (k : string) (names : list string) :
  among k names = true <-> In k names.
Proof.
  unfold among. rewrite existsb_exists. split.
  - intros [x [Hin Hx]]. apply String.eqb_eq in Hx. subst x. exact Hin.
  - intros Hin. exists k. split; [exact Hin | apply String.eqb_refl].
Qed.

Lemma harmless_cons {A : Type} (k : string) (x : A) (kw : kwargs A) :
  harmless ((k, x) :: kw) = true ->
  ~ In k ["S0"; "model"; "gradient"; "block"] /\ harmless kw = true.
Proof.
  unfold harmless. cbn [forallb fst]. intros H.
  apply andb_true_iff in H. destruct H as [Hk Hh]. split; [|exact Hh].
  apply negb_true_iff in Hk. intros Hin. apply among_spec in Hin. congruence.
Qed.

Lemma harmless_no_S0 {A : Type} (v : A) (kw : kwargs A) :
  harmless kw = true ->
  existsb (fun kv => kw_has (fst kv) [("S0", v)]) kw = false.
Proof.
  induction kw as [|[k x] kw IH]; intros Hh; [reflexivity|].
  apply harmless_cons in Hh. destruct Hh as [Hk Hh].
  cbn [existsb fst]. rewrite (IH Hh), orb_false_r.
  unfold kw_has, kw_get.
  destruct (String.eqb k "S0") eqn:Ek; [|reflexivity].
  apply String.eqb_eq in Ek. subst k. exfalso. apply Hk. left. reflexivity.
Qed.

Lemma harmless_no_parameter {A : Type} (kw : kwargs A) (params : list string) :
  harmless kw = true ->
  incl params ["model"; "gradient"; "block"] ->
  existsb (fun kv => existsb (String.eqb (fst kv)) params) kw = false.
Proof.
  intros Hh Hp. induction kw as [|[k x] kw IH]; [reflexivity|].
  apply harmless_cons in Hh. destruct Hh as [Hk Hh].
  cbn [existsb fst]. rewrite (IH Hh), orb_false_r.
  destruct (existsb (String.eqb k) params) eqn:Ek; [|reflexivity].
  apply (among_spec k params) in Ek. apply Hp in Ek.
  exfalso. apply Hk. right. exact Ek.
Qed.

Lemma call_with_harmless {A : Type} (v : A) (kw : kwargs A)
  (params : list string) :
  harmless kw = true ->
  incl params ["model"; "gradient"; "block"] ->
  call_with params [("S0", v)] kw = Ok (("S0", v) :: kw).
Proof.
  intros Hh Hp. unfold call_with.
  rewrite (harmless_no_S0 v kw Hh), (harmless_no_parameter kw Hh Hp).
  reflexivity.
Qed.

Lemma harmless_no_explicit {A : Type} (kw : kwargs A) (explicit : list string) :
  harmless kw = true ->
  incl explicit ["S0"; "model"; "gradient"; "block"] ->
  find (fun kv => existsb (String.eqb (fst kv)) explicit) kw = None.
Proof.
  intros Hh He. induction kw as [|[k x] kw IH]; [reflexivity|].
  apply harmless_cons in Hh. destruct Hh as [Hk Hh].
  cbn [find fst].
  destruct (existsb (String.eqb k) explicit) eqn:Ek; [|exact (IH Hh)].
  apply (among_spec k explicit) in Ek. apply He in Ek. contradiction.
Qed.

Lemma delayed_with_harmless {A : Type} (duplicate : string -> exn) (v : A)
  (kw : kwargs A) :
  harmless kw = true ->
  delayed_with duplicate ["model"; "gradient"] ["S0"; "block"] [("S0", v)] kw
  = Ok (("S0", v) :: kw).
Proof.
  intros Hh. unfold delayed_with.
  rewrite (harmless_no_explicit kw Hh (explicit := ["S0"; "block"]))
    by (intros p Hp; simpl in Hp; simpl; tauto).
  rewrite (harmless_no_parameter kw Hh (params := ["model"; "gradient"]))
    by (intros p Hp; simpl in Hp; simpl; tauto).
  reflexivity.
Qed.

Lemma kw_remove_harmless {A : Type} (kw : kwargs A) :
  harmless kw = true -> kw_remove "block" kw = kw.
Proof.
  unfold kw_remove.
  induction kw as [|[k x] kw IH]; [reflexivity|].
  intros Hh. apply harmless_cons in Hh. destruct Hh as [Hk Hh].
  cbn [filter fst]. rewrite (IH Hh).
  destruct (String.eqb "block" k) eqn:Ek; [|reflexivity].
  apply String.eqb_eq in Ek. subst k. exfalso. apply Hk.
  right. right. right. left. reflexivity.
Qed.

Lemma exec_predict_S0_first {V Obj GTab Opt B : Type}
  `{E : External V Obj GTab Opt}
  (model : option Obj) (g : GTab) (b : B) (v : option (ndarray V))
  (kw : kwargs (option (ndarray V))) :
  _exec_predict model g b (("S0", v) :: kw) = _exec_predict model g b [("S0", v)].
Proof. reflexivity. Qed.

Lemma predict_harmless_keywords {V Obj GTab Opt : Type}
  `{E : External V Obj GTab Opt}
  (st : BaseModel.t V Obj) (gradient : gradient_like V)
  (kw : kwargs (option (ndarray V))) :
  harmless kw = true ->
  BaseModel.predict st gradient kw = BaseModel.predict st gradient [].
Proof.
  intros Hh. unfold BaseModel.predict.
  destruct (_rasb2dipy gradient) as [out [g|e]]; [|reflexivity].
  f_equal. cbn [bind]. f_equal.
  unfold BaseModel.predict_voxels.
  destruct (BaseModel.n_models st =? 1).
  - rewrite (call_with_harmless _ kw (params := ["model"; "gradient"]) Hh)
      by (intros p Hp; simpl in Hp; simpl; tauto).
    cbn [bind]. cbn [kw_remove filter fst negb].
    change (negb (String.eqb "block" "S0")) with true. cbv iota.
    fold (kw_remove "block" kw). rewrite (kw_remove_harmless kw Hh).
    rewrite exec_predict_S0_first. reflexivity.
  - assert (Htask : forall S0 : list (option (ndarray V)),
               parallel
                 (fun im : nat * option Obj =>
                    let i := fst im in
                    let* kw' := delayed_with duplicate_keyword
                                  ["model"; "gradient"] ["S0"; "block"]
                                  [("S0", nth i S0 None)] kw in
                    let* r := _exec_predict (snd im) g i kw' in
                    Ok (Some (fst r), snd r))
                 (enumerate match BaseModel._models st with
                            | Some ms => ms
                            | None => []
                            end)
               = parallel
                   (fun im : nat * option Obj =>
                      let i := fst im in
                      let* kw' := delayed_with duplicate_keyword
                                    ["model"; "gradient"] ["S0"; "block"]
                                    [("S0", nth i S0 None)] [] in
                      let* r := _exec_predict (snd im) g i kw' in
                      Ok (Some (fst r), snd r))
                   (enumerate match BaseModel._models st with
                              | Some ms => ms
                              | None => []
                              end)).
    { intros S0. unfold parallel. apply map_result_ext. intros im. cbv zeta.
      rewrite (delayed_with_harmless duplicate_keyword _ kw Hh).
      cbn [bind]. rewrite exec_predict_S0_first. reflexivity. }
    destruct (BaseModel._S0 st) as [s0|].
    + destruct (array_split s0 _) as [parts|e]; [|reflexivity].
      cbn [bind]. rewrite Htask. reflexivity.
    + cbn [bind]. rewrite Htask. reflexivity.
Qed.

(** X4.  Keyword arguments other than [S0], [model], [gradient] and [block]
    never reach the wrapped model: [predict] gives the same outcome with
    them as without any. *)
Theorem predict_ignores_other_keywords {V Obj GTab Opt : Type}
  `{E : External V Obj GTab Opt}
  (st : BaseModel.t V Obj) (gradient : gradient_like V)
  (kw : kwargs (option (ndarray V))) :
  harmless kw = true ->
  BaseModel.predict st gradient kw = BaseModel.predict st gradient [].
Proof.
  apply predict_harmless_keywords.
Qed.

Lemma predict_ignores_other_keywords_witness :
  let st := fst (BaseModel.fit (E := Toy.library false) Toy.fresh Toy.volume
                               (Some 3%Z)) in
  BaseModel.predict (E := Toy.library false) st Toy.one_gradient
    [("step", None); ("S0_hat", Some Toy.volume)]
  = BaseModel.predict (E := Toy.library false) st Toy.one_gradient [].
Proof.
  apply (predict_ignores_other_keywords (E := Toy.library false)).
  reflexivity.
Defined.

Lemma kw_has_collides {A : Type} (v : A) (kw : kwargs A) :
  kw_has "S0" kw = true ->
  existsb (fun kv => kw_has (fst kv) [("S0", v)]) kw = true.
Proof.
  unfold kw_has at 1.
  induction kw as [|[k x] kw IH]; cbn [kw_get]; [discriminate|].
  intros H. cbn [existsb fst].
  destruct (String.eqb "S0" k) eqn:Ek.
  - apply String.eqb_eq in Ek. subst k. reflexivity.
  - rewrite (IH H). apply orb_true_r.
Qed.

Lemma kw_has_found {A : Type} (kw : kwargs A) :
  kw_has "S0" kw = true ->
  exists kv : string * A,
    find (fun kv => existsb (String.eqb (fst kv)) ["S0"; "block"]) kw = Some kv
    /\ In (fst kv) ["S0"; "block"].
Proof.
  unfold kw_has.
  induction kw as [|[k x] kw IH]; cbn [kw_get]; [discriminate|].
  intros H. cbn [find fst].
  destruct (existsb (String.eqb k) ["S0"; "block"]) eqn:Ek.
  - exists (k, x). split; [reflexivity|].
    apply (among_spec k ["S0"; "block"]). exact Ek.
  - destruct (String.eqb "S0" k) eqn:E0.
    + apply String.eqb_eq in E0. subst k. discriminate Ek.
    + exact (IH H).
Qed.

(** X5.  A baseline cannot be passed to [predict] by keyword, for the engine
    passes its own [S0] in the same call.  On an object that holds a model
    (after a fit with one job) the call of [_exec_predict] raises
    [TypeError].  After a fit with several jobs the tasks cannot be made: the
    exception is the one the interpreter has for a keyword given twice, for
    the first key of the call that repeats [S0] or [block]. *)
Theorem predict_rejects_S0_keyword {V Obj GTab Opt : Type}
  `{E : External V Obj GTab Opt}
  (st : BaseModel.t V Obj) (gradient : gradient_like V)
  (kw : kwargs (option (ndarray V))) (out : list string) (g : GTab) :
  kw_has "S0" kw = true ->
  _rasb2dipy gradient = (out, Ok g) ->
  (forall m : Obj,
      BaseModel._model st = Some m ->
      BaseModel.predict st gradient kw
      = (out, Err (TypeError "got multiple values for keyword argument")))
  /\ (forall (m0 m1 : option Obj) (ms : list (option Obj)),
         BaseModel._model st = None ->
         BaseModel._models st = Some (m0 :: m1 :: ms) ->
         (forall s0, BaseModel._S0 st = Some s0 -> shape s0 <> []) ->
         exists k : string,
           In k ["S0"; "block"]
           /\ BaseModel.predict st gradient kw
              = (out, Err (duplicate_keyword k))).
Proof.
  intros Hkw Hg. split.
  - intros m Hm. unfold BaseModel.predict. rewrite Hg. f_equal.
    cbn [bind]. unfold BaseModel.predict_voxels.
    rewrite (n_models_serial st Hm). cbn [Nat.eqb].
    unfold call_with. rewrite (kw_has_collides _ kw Hkw). reflexivity.
  - intros m0 m1 ms Hm Hms HS0.
    destruct (kw_has_found kw Hkw) as [kv [Hfind Hin]].
    exists (fst kv). split; [exact Hin|].
    unfold BaseModel.predict. rewrite Hg. f_equal.
    cbn [bind]. unfold BaseModel.predict_voxels, BaseModel.n_models.
    rewrite Hm, Hms. cbn [length Nat.eqb].
    assert (HS : exists S0 : list (option (ndarray V)),
               match BaseModel._S0 st with
               | Some s0 =>
                   let* parts := array_split s0 (Z.of_nat (S (S (length ms)))) in
                   Ok (map Some parts)
               | None => Ok (repeat None (S (S (length ms))))
               end = Ok S0).
    { destruct (BaseModel._S0 st) as [s0|] eqn:ES0.
      - rewrite array_split_spec by (eauto || lia).
        eexists. reflexivity.
      - eexists. reflexivity. }
    destruct HS as [S0 HS]. rewrite HS. cbn [bind].
    rewrite enumerate_cons. unfold parallel. cbn [map_result fst snd].
    unfold delayed_with. rewrite Hfind. reflexivity.
Qed.

Lemma predict_rejects_S0_keyword_witness :
  let st := fst (BaseModel.fit (E := Toy.library false) Toy.fresh Toy.volume
                               (Some 1%Z)) in
  BaseModel.predict (E := Toy.library false) st Toy.one_gradient
    [("S0", Some Toy.baseline)]
  = ([], Err (TypeError "got multiple values for keyword argument")).
Proof.
  intros st.
  apply (proj1 (@predict_rejects_S0_keyword Q Toy.obj Toy.gtab Toy.opt
                  (Toy.library false) st Toy.one_gradient
                  [("S0", Some Toy.baseline)] []
                  (map Toy.z [1000%Z], mk_mat 1 3 [map Toy.z [1; 0; 0]%Z])
                  eq_refl eq_refl)
               (Toy.train (mk_nd [6; 2] (elems Toy.volume)))).
  reflexivity.
Defined.

(** X6.  [predict] on an object that was never fitted raises
    [AttributeError]: there is no model to ask, and no list of models
    either, so the serial path is taken with [None]. *)
Theorem predict_before_fit_raises {V Obj GTab Opt : Type}
  `{E : External V Obj GTab Opt}
  (gradient : gradient_like V) (kw : kwargs (option (ndarray V)))
  (out : list string) (g : GTab) :
  harmless kw = true ->
  _rasb2dipy gradient = (out, Ok g) ->
  BaseModel.predict BaseModel.init gradient kw
  = (out, Err (AttributeError "'NoneType' object has no attribute 'predict'")).
Proof.
  intros Hh Hg. rewrite (predict_harmless_keywords _ _ kw Hh).
  unfold BaseModel.predict. rewrite Hg. reflexivity.
Qed.

Lemma predict_before_fit_raises_witness :
  BaseModel.predict (E := Toy.library false) BaseModel.init Toy.one_gradient []
  = ([], Err (AttributeError "'NoneType' object has no attribute 'predict'")).
Proof.
  apply (predict_before_fit_raises (E := Toy.library false) _ _
           (g := (map Toy.z [1000%Z], mk_mat 1 3 [map Toy.z [1; 0; 0]%Z])));
    reflexivity.
Defined.

(** ** The blocks of [array_split] *)

Lemma block_size_bounds (N n i : nat) :
  N / n <= block_size N n i <= N / n + 1.
Proof.
  unfold block_size. destruct (i <? N mod n); lia.
Qed.

Lemma block_size_decreasing (N n i j : nat) :
  i <= j -> block_size N n j <= block_size N n i.
Proof.
  intros H. unfold block_size.
  destruct (Nat.ltb_spec i (N mod n)); destruct (Nat.ltb_spec j (N mod n)); lia.
Qed.

Lemma spec_block_wf {A : Type} (ary : ndarray A) (n i : nat) :
  0 < n -> i < n -> wf_nd ary -> shape ary <> [] ->
  wf_nd (spec_block ary n i).
Proof.
  intros Hn Hi Hwf Hsh. unfold wf_nd, spec_block in *. cbn [shape elems].
  destruct (shape ary) as [|N rest] eqn:E; [contradiction|].
  cbn [hd tl]. set (w := size_of rest).
  pose proof (block_size_fits N Hn Hi) as Hb.
  unfold slice. rewrite length_firstn, length_skipn, Hwf.
  change (size_of (N :: rest)) with (N * w).
  change (size_of (block_size N n i :: rest)) with (block_size N n i * w).
  nia.
Qed.

(** X7.  The blocks of [array_split] are balanced: there are as many as
    asked for, no block has more rows than an earlier one, two blocks differ
    by one row at most, their rows add up to the rows of the array, and
    every block of a well-formed array is well formed. *)
Theorem array_split_balanced {A : Type} (ary : ndarray A) (n : Z)
  (N : nat) (rest : list nat) (blocks : list (ndarray A)) :
  shape ary = N :: rest ->
  array_split ary n = Ok blocks ->
  let rows (b : ndarray A) := hd 0 (shape b) in
  length blocks = Z.to_nat n
  /\ (forall (i j : nat) (d : ndarray A),
         i <= j -> j < length blocks ->
         rows (nth j blocks d) <= rows (nth i blocks d)
         /\ rows (nth i blocks d) <= rows (nth j blocks d) + 1)
  /\ list_sum (map rows blocks) = N
  /\ (wf_nd ary -> Forall wf_nd blocks).
Proof.
  intros Hsh Hsplit rows.
  assert (Hn : (0 < n)%Z).
  { unfold array_split in Hsplit. rewrite Hsh in Hsplit.
    destruct (Z.leb_spec n 0); [discriminate | assumption]. }
  rewrite array_split_spec in Hsplit by (rewrite ?Hsh; (discriminate || lia)).
  injection Hsplit as <-.
  assert (Hpos : 0 < Z.to_nat n) by lia.
  assert (Hrows : forall i, i < Z.to_nat n ->
            forall d, rows (nth i (spec_blocks ary (Z.to_nat n)) d)
                      = block_size N (Z.to_nat n) i).
  { intros i Hi d. unfold spec_blocks.
    rewrite (nth_indep _ d (spec_block ary (Z.to_nat n) 0))
      by (rewrite length_map, length_seq; exact Hi).
    rewrite (map_nth (spec_block ary (Z.to_nat n))), seq_nth by exact Hi.
    unfold rows, spec_block. rewrite Hsh. reflexivity. }
  rewrite spec_blocks_length. split; [reflexivity|]. split; [|split].
  - intros i j d Hij Hj. rewrite !Hrows by lia.
    pose proof (block_size_bounds N (Z.to_nat n) i).
    pose proof (block_size_bounds N (Z.to_nat n) j).
    pose proof (block_size_decreasing N (Z.to_nat n) Hij). lia.
  - unfold spec_blocks. rewrite map_map.
    rewrite (map_ext _ (block_size N (Z.to_nat n))).
    + rewrite list_sum_block_sizes. apply block_start_full. exact Hpos.
    + intros i. unfold rows, spec_block. rewrite Hsh. reflexivity.
  - intros Hwf. unfold spec_blocks. apply Forall_map, Forall_forall.
    intros i Hi. apply in_seq in Hi.
    apply spec_block_wf; [lia | lia | exact Hwf | rewrite Hsh; discriminate].
Qed.

Lemma array_split_balanced_witness :
  exists blocks : list (ndarray nat),
    array_split (mk_nd [10] (seq 0 10)) 3 = Ok blocks
    /\ length blocks = 3
    /\ list_sum (map (fun b => hd 0 (shape b)) blocks) = 10
    /\ Forall wf_nd blocks.
Proof.
  eexists. split; [reflexivity|].
  destruct (@array_split_balanced nat (mk_nd [10] (seq 0 10)) 3 10 [] _
              eq_refl eq_refl) as [H1 [_ [H3 H4]]].
  split; [exact H1|]. split; [exact H3|]. apply H4. reflexivity.
Defined.

(** ** The gradient adapter *)

(** X8.  A vector of four entries is converted as a single gradient: nothing
    is printed, its last entry is the b-value and its first three the
    direction. *)
Theorem rasb2dipy_single_gradient {V Obj GTab Opt : Type}
  `{E : External V Obj GTab Opt} (v : list V) (d : V) :
  length v = 4 ->
  _rasb2dipy (Vec v)
  = ([], gradient_table [nth 3 v d] (mk_mat 1 3 [firstn 3 v])).
Proof.
  intros Hv.
  destruct v as [|a [|b [|c [|e [|? ?]]]]]; try discriminate Hv.
  reflexivity.
Qed.

Lemma rasb2dipy_single_gradient_witness :
  _rasb2dipy (E := Toy.library false) Toy.one_gradient
  = ([], Ok ([Toy.z 1000], mk_mat 1 3 [map Toy.z [1; 0; 0]%Z])).
Proof.
  exact (@rasb2dipy_single_gradient Q Toy.obj Toy.gtab Toy.opt (Toy.library false)
           (map Toy.z [1; 0; 0; 1000]%Z) (Toy.z 0) eq_refl).
Defined.

Lemma transpose_row {A : Type} (m : matrix A) (j : nat) :
  j < ncols m ->
  nth_error (mrows (transpose m)) j = Some (column j (mrows m)).
Proof.
  intros Hj. unfold transpose. cbn [mrows].
  rewrite nth_error_map, nth_error_seq.
  destruct (Nat.ltb_spec j (ncols m)); [reflexivity | lia].
Qed.

(** X9.  A table whose number of rows is not 4 is read by columns.  With
    fewer than four columns the conversion raises [IndexError]; with four or
    more, the fourth column holds the b-values and the first three the
    directions, and the columns after the fourth are never read. *)
Theorem rasb2dipy_table_columns {V Obj GTab Opt : Type}
  `{E : External V Obj GTab Opt} (m : matrix V) :
  nrows m <> 4 ->
  (ncols m < 4 ->
   _rasb2dipy (Mat m)
   = ([], Err (IndexError "index is out of bounds for axis 0")))
  /\ (4 <= ncols m ->
      _rasb2dipy (Mat m)
      = ([], gradient_table (column 3 (mrows m))
               (transpose (mk_mat 3 (nrows m)
                             [column 0 (mrows m); column 1 (mrows m);
                              column 2 (mrows m)])))).
Proof.
  intros Hr. unfold _rasb2dipy.
  destruct (Nat.eqb_spec (nrows m) 4) as [|_]; [contradiction|].
  cbn [negb]. split; intros Hc.
  - unfold row_at.
    replace (nth_error (mrows (transpose m)) 3) with (@None (list V));
      [reflexivity|].
    symmetry. apply nth_error_None. unfold transpose. cbn [mrows].
    rewrite length_map, length_seq. lia.
  - unfold row_at. rewrite transpose_row by lia. cbn [bind].
    f_equal. f_equal. f_equal.
    unfold first_rows, transpose. cbn [nrows ncols mrows].
    destruct (ncols m) as [|[|[|[|c]]]]; try lia.
    reflexivity.
Qed.

Lemma rasb2dipy_table_columns_witness :
  _rasb2dipy (E := Toy.library false)
    (Mat (mk_mat 2 3 [map Toy.z [1; 0; 0]; map Toy.z [0; 1; 0]]%Z))
  = ([], Err (IndexError "index is out of bounds for axis 0"))
  /\ _rasb2dipy (E := Toy.library false)
       (Mat (mk_mat 2 5 [map Toy.z [1; 0; 0; 1000; 7];
                         map Toy.z [0; 1; 0; 2000; 8]]%Z))
     = ([], Ok (map Toy.z [1000; 2000]%Z,
                mk_mat 2 3 [map Toy.z [1; 0; 0]; map Toy.z [0; 1; 0]]%Z)).
Proof.
  split.
  - assert (Hr : nrows (mk_mat 2 3 [map Toy.z [1; 0; 0]%Z;
                                     map Toy.z [0; 1; 0]%Z]) <> 4)
      by (simpl; lia).
    apply (proj1 (rasb2dipy_table_columns (E := Toy.library false) _ Hr)).
    simpl. lia.
  - assert (Hr : nrows (mk_mat 2 5 [map Toy.z [1; 0; 0; 1000; 7]%Z;
                                     map Toy.z [0; 1; 0; 2000; 8]%Z]) <> 4)
      by (simpl; lia).
    rewrite (proj2 (rasb2dipy_table_columns (E := Toy.library false) _ Hr))
      by (simpl; lia).
    reflexivity.
Defined.

(** ** The constructors of the wrapped models *)

(** X10.  A mask given without a baseline: the tensor model accepts it and
    keeps the mask, whereas the kurtosis and the sparse fascicle model raise
    [TypeError] before the library is called, for they index the absent
    baseline. *)
Theorem mask_without_baseline {Obj GTab Opt : Type}
  `{E : External Q Obj GTab Opt} `{R : Reconst Obj GTab Opt}
  (gtab : GTab) (mask : ndarray bool) (kw : kwargs Opt) :
  DTIModel.init gtab None (Some mask) kw
  = (let* model := TensorModel gtab (kw_only allowed_options kw) in
     Ok (BaseModel.mk (Some model) (Some mask) None None None))
  /\ DKIModel.init gtab None (Some mask) kw
     = Err (TypeError "'NoneType' object is not subscriptable")
  /\ SparseFascicleModel.init gtab None (Some mask) kw
     = Err (TypeError "'NoneType' object is not subscriptable").
Proof.
  repeat split.
Qed.

Lemma sfm_init_solver {Obj GTab Opt : Type}
  `{E : External Q Obj GTab Opt} `{R : Reconst Obj GTab Opt}
  (gtab : GTab) (S0 : option (ndarray Q)) (mask : option (ndarray bool))
  (kw : kwargs Opt) :
  SparseFascicleModel.init gtab S0 mask kw
  = (let* m := SparseFascicleModel.init gtab S0 mask [] in
     Ok (SparseFascicleModel.mk (SparseFascicleModel.base m)
           (match kw_get "solver" kw with
            | Some s => if is_none s then of_string "ElasticNet" else s
            | None => of_string "ElasticNet"
            end))).
Proof.
  unfold SparseFascicleModel.init. rewrite kw_only_removed.
  cbn [kw_remove kw_only kw_get filter].
  destruct (match S0 with
            | Some s => let* s' := normalize_S0 s in Ok (Some s')
            | None => Ok None
            end) as [s0|e]; [|reflexivity].
  cbn [bind].
  match goal with
  | |- (let* _ := ?r in _) = _ => destruct r as [s1|e]; [|reflexivity]
  end.
  cbn [bind].
  destruct (DipySparseFascicleModel gtab []) as [model|e]; reflexivity.
Qed.

(** X11.  No keyword of the sparse fascicle model reaches the library: the
    wrapped model is the one constructed without any option, and [solver]
    only sets the slot [_solver], [ElasticNet] when it is not given or is
    [None]. *)
Theorem sfm_options_dropped {Obj GTab Opt : Type}
  `{E : External Q Obj GTab Opt} `{R : Reconst Obj GTab Opt}
  (gtab : GTab) (S0 : option (ndarray Q)) (mask : option (ndarray bool))
  (kw : kwargs Opt) :
  SparseFascicleModel.init gtab S0 mask kw
  = (let* m := SparseFascicleModel.init gtab S0 mask [] in
     Ok (SparseFascicleModel.mk (SparseFascicleModel.base m)
           (match kw_get "solver" kw with
            | Some s => if is_none s then of_string "ElasticNet" else s
            | None => of_string "ElasticNet"
            end))).
Proof.
  apply sfm_init_solver.
Qed.

(** ** The factory *)

(** X12.  For the names [s0] and [b0], in any case of letters, the factory
    never converts the gradient table: it raises [KeyError] when no [S0]
    keyword is given, [ValueError] when [S0] is [None], and otherwise returns
    the model of that baseline. *)
Theorem factory_baseline_model {Obj GTab Opt : Type}
  `{E : External Q Obj GTab Opt} `{R : Reconst Obj GTab Opt}
  (gtab : gradient_like Q) (name : string) (kw : @ModelFactory.keywords Opt) :
  among (lower name) ["s0"; "b0"] = true ->
  ModelFactory.init gtab name kw
  = ([], match ModelFactory.kw_S0 kw with
         | None => ModelFactory.Raises (ModelFactory.KeyError "S0")
         | Some None =>
             ModelFactory.Raises
               (ModelFactory.Raised (ValueError "S0 must be provided"))
         | Some (Some s) =>
             ModelFactory.Returns (ModelFactory.Trivial (TrivialB0Model.mk s))
         end).
Proof.
  intros H. unfold ModelFactory.init. rewrite H.
  destruct (ModelFactory.kw_S0 kw) as [[s|]|]; reflexivity.
Qed.

Lemma factory_baseline_model_witness :
  ModelFactory.init (E := Toy.library false) (R := toy_reconst)
    (Vec []) "B0"
    (ModelFactory.mk_keywords None None
       (AverageDWModel.mk_options None None None None) [])
  = ([], ModelFactory.Raises (ModelFactory.KeyError "S0")).
Proof.
  exact (@factory_baseline_model Toy.obj Toy.gtab Toy.opt (Toy.library false)
           toy_reconst (Vec []) "B0"
           (ModelFactory.mk_keywords None None
              (AverageDWModel.mk_options None None None None) [])
           eq_refl).
Defined.

(** X13.  The name of the model is read without regard to the case of its
    letters: two names that agree up to case give the same outcome, except
    that the message of [NotImplementedError] quotes the name as given. *)
Theorem factory_case_insensitive {Obj GTab Opt : Type}
  `{E : External Q Obj GTab Opt} `{R : Reconst Obj GTab Opt}
  (gtab : gradient_like Q) (n1 n2 : string)
  (kw : @ModelFactory.keywords Opt) :
  lower n1 = lower n2 ->
  ModelFactory.init gtab n1 kw = ModelFactory.init gtab n2 kw
  \/ exists out : list string,
       ModelFactory.init gtab n1 kw
       = (out, ModelFactory.Raises
                 (ModelFactory.NotImplementedError
                    ("Unsupported model <" ++ n1 ++ ">.")))
       /\ ModelFactory.init gtab n2 kw
          = (out, ModelFactory.Raises
                    (ModelFactory.NotImplementedError
                       ("Unsupported model <" ++ n2 ++ ">."))).
Proof.
  intros H. unfold ModelFactory.init. rewrite H.
  destruct (among (lower n2) ["s0"; "b0"]); [left; reflexivity|].
  destruct (among (lower n2) ["avg"; "average"; "mean"]); [left; reflexivity|].
  destruct (_rasb2dipy gtab) as [out [g|e]]; [|left; reflexivity].
  destruct (String.prefix "3dshore" (lower n2)); [left; reflexivity|].
  destruct (among (lower n2) ["sfm"; "gp"]); [left; reflexivity|].
  destruct (among (lower n2) ["dti"; "dki"]); [left; reflexivity|].
  right. exists out. split; reflexivity.
Qed.

Lemma factory_case_insensitive_witness :
  let kw := ModelFactory.mk_keywords None None
              (AverageDWModel.mk_options None None None None) [] in
  ModelFactory.init (E := Toy.library false) (R := toy_reconst)
    Toy.one_gradient "DTI" kw
  = ModelFactory.init (E := Toy.library false) (R := toy_reconst)
      Toy.one_gradient "dti" kw
  \/ exists out : list string,
       ModelFactory.init (E := Toy.library false) (R := toy_reconst)
         Toy.one_gradient "DTI" kw
       = (out, ModelFactory.Raises
                 (ModelFactory.NotImplementedError
                    ("Unsupported model <" ++ "DTI" ++ ">.")))
       /\ ModelFactory.init (E := Toy.library false) (R := toy_reconst)
            Toy.one_gradient "dti" kw
          = (out, ModelFactory.Raises
                    (ModelFactory.NotImplementedError
                       ("Unsupported model <" ++ "dti" ++ ">."))).
Proof.
  intros kw.
  exact (@factory_case_insensitive Toy.obj Toy.gtab Toy.opt (Toy.library false)
           toy_reconst Toy.one_gradient "DTI" "dti" kw eq_refl).
Defined.

(** X14.  A name that the factory does not know is reported only once the
    gradient table has been converted: when the conversion raises, its
    exception comes first; otherwise [NotImplementedError] quotes the
    name. *)
Theorem factory_unsupported_name {Obj GTab Opt : Type}
  `{E : External Q Obj GTab Opt} `{R : Reconst Obj GTab Opt}
  (gtab : gradient_like Q) (name : string) (kw : @ModelFactory.keywords Opt) :
  supported name = false ->
  ModelFactory.init gtab name kw
  = (fst (_rasb2dipy gtab),
     match snd (_rasb2dipy gtab) with
     | Err e => ModelFactory.Raises (ModelFactory.Raised e)
     | Ok _ =>
         ModelFactory.Raises
           (ModelFactory.NotImplementedError
              ("Unsupported model <" ++ name ++ ">."))
     end).
Proof.
  unfold supported, among. cbn [existsb]. intros H.
  apply orb_false_iff in H. destruct H as [H Hp].
  repeat (apply orb_false_iff in H; let Hk := fresh "Hk" in destruct H as [Hk H]).
  unfold ModelFactory.init, among. cbn [existsb].
  rewrite Hk, Hk0, Hk1, Hk2, Hk3, Hk4, Hk5, Hk6, Hk7, Hp. cbn [orb].
  destruct (_rasb2dipy gtab) as [out [g|e]]; reflexivity.
Qed.

(** The Kelvin sign is read as the letter [k]: the name is that of the
    kurtosis model. *)
Lemma lower_kelvin_sign :
  lower ("D" ++ String (Ascii.ascii_of_nat 226)
                  (String (Ascii.ascii_of_nat 132)
                     (String (Ascii.ascii_of_nat 170) "I")))%string
  = "dki".
Proof. reflexivity. Qed.

Lemma factory_unsupported_name_witness :
  ModelFactory.init (E := Toy.library false) (R := toy_reconst)
    Toy.one_gradient "AverageDW"
    (ModelFactory.mk_keywords None None
       (AverageDWModel.mk_options None None None None) [])
  = ([], ModelFactory.Raises
           (ModelFactory.NotImplementedError "Unsupported model <AverageDW>.")).
Proof.
  exact (@factory_unsupported_name Toy.obj Toy.gtab Toy.opt (Toy.library false)
           toy_reconst Toy.one_gradient "AverageDW"
           (ModelFactory.mk_keywords None None
              (AverageDWModel.mk_options None None None None) [])
           eq_refl).
Defined.

Lemma average_name_not_baseline (s : string) :
  among s ["avg"; "average"; "mean"] = true ->
  among s ["s0"; "b0"] = false.
Proof.
  intros H. apply among_spec in H.
  destruct H as [<-|[<-|[<-|[]]]]; reflexivity.
Qed.

(** X15.  For the names [avg], [average] and [mean] the factory reads the
    four options of the average model and nothing else: the gradient table
    is not converted, so that any table is accepted, the other keywords are
    dropped, and the model returned holds no map yet. *)
Theorem factory_average_model {Obj GTab Opt : Type}
  `{E : External Q Obj GTab Opt} `{R : Reconst Obj GTab Opt}
  (gtab1 gtab2 : gradient_like Q) (name : string)
  (kw1 kw2 : @ModelFactory.keywords Opt) :
  among (lower name) ["avg"; "average"; "mean"] = true ->
  ModelFactory.kw_average kw1 = ModelFactory.kw_average kw2 ->
  kw_has "self" (ModelFactory.kw_other kw1) = false ->
  kw_has "self" (ModelFactory.kw_other kw2) = false ->
  ModelFactory.init gtab1 name kw1 = ModelFactory.init gtab2 name kw2
  /\ exists m : AverageDWModel.t,
       ModelFactory.init gtab1 name kw1
       = ([], ModelFactory.Returns (ModelFactory.Average m))
       /\ AverageDWModel._data m = None.
Proof.
  intros Hn Ha H1 H2. unfold ModelFactory.init, ModelFactory.construct.
  rewrite (average_name_not_baseline _ Hn), Hn, H1, H2, Ha.
  split; [reflexivity|].
  eexists. split; reflexivity.
Qed.

Lemma factory_average_model_witness :
  let options := AverageDWModel.mk_options (Some (Toy.z 100)) None None None in
  ModelFactory.init (E := Toy.library false) (R := toy_reconst)
    (Vec []) "Mean" (ModelFactory.mk_keywords None None options [])
  = ModelFactory.init (E := Toy.library false) (R := toy_reconst)
      Toy.one_gradient "Mean"
      (ModelFactory.mk_keywords (Some None) None options [("zeta", Toy.ONumber (Toy.z 650))]).
Proof.
  intros options.
  exact (proj1 (@factory_average_model Toy.obj Toy.gtab Toy.opt
                  (Toy.library false) toy_reconst (Vec []) Toy.one_gradient
                  "Mean"
                  (ModelFactory.mk_keywords None None options [])
                  (ModelFactory.mk_keywords (Some None) None options
                     [("zeta", Toy.ONumber (Toy.z 650))])
                  eq_refl eq_refl eq_refl eq_refl)).
Defined.

(** ** More on the engine *)

(** X16.  A [fit] that raises on an object that holds a model leaves the
    object able to predict as before: only the recorded extent of the data
    has changed. *)
Theorem failed_fit_keeps_model {V Obj GTab Opt : Type}
  `{E : External V Obj GTab Opt}
  (self self' : BaseModel.t V Obj) (data : ndarray V) (n_jobs : option Z)
  (e : exn) (m : Obj) (gradient : gradient_like V)
  (kw : kwargs (option (ndarray V))) :
  BaseModel.fit self data n_jobs = (self', Err e) ->
  BaseModel._model self = Some m ->
  BaseModel._model self' = Some m
  /\ BaseModel.predict self' gradient kw
     = BaseModel.predict (BaseModel.set_datashape self (shape data))
                         gradient kw.
Proof.
  intros Hfit Hm. unfold BaseModel.fit in Hfit.
  assert (Hcase :
            self' = BaseModel.set_datashape self (shape data)
            \/ exists blank,
                self' = BaseModel.set_models
                          (BaseModel.set_datashape self (shape data))
                          (Some blank)).
  { destruct (BaseModel.select_voxels _ data) as [vox|e0];
      [|injection Hfit as <- _; left; reflexivity].
    destruct (BaseModel.jobs_or_1 n_jobs =? 1)%Z.
    - destruct (_exec_fit _ vox None) as [[retval b]|e0];
        [discriminate | injection Hfit as <- _; left; reflexivity].
    - destruct (array_split vox _) as [chunks|e0];
        [|injection Hfit as <- _; left; reflexivity].
      destruct (parallel _ _) as [results|e0]; [discriminate|].
      injection Hfit as <- _. right. eexists. reflexivity. }
  destruct Hcase as [->|[blank ->]].
  - split; [exact Hm | reflexivity].
  - split; [exact Hm|].
    unfold BaseModel.predict, BaseModel.predict_voxels, BaseModel.n_models,
      BaseModel.reassemble.
    cbn [BaseModel.set_models BaseModel.set_datashape BaseModel._model
         BaseModel._models BaseModel._mask BaseModel._S0 BaseModel._datashape].
    rewrite Hm. reflexivity.
Qed.

Lemma failed_fit_keeps_model_witness :
  let data := mk_nd [1; 1; 1; 2] (map Toy.z [1; 2]%Z) in
  exists (self' : BaseModel.t Q Toy.obj) (e : exn),
    BaseModel.fit (E := Toy.library true) Toy.fresh data (Some 2%Z)
    = (self', Err e)
    /\ BaseModel._model self' = Some Toy.Untrained.
Proof.
  intros data. eexists. eexists.
  assert (Hfit : BaseModel.fit (E := Toy.library true) Toy.fresh data
                   (Some 2%Z)
                 = (BaseModel.set_models
                      (BaseModel.set_datashape Toy.fresh (shape data))
                      (Some [None; None]),
                    Err (ExternalError "singular fit")))
    by reflexivity.
  split; [exact Hfit|].
  exact (proj1 (@failed_fit_keeps_model Q Toy.obj Toy.gtab Toy.opt
                  (Toy.library true) Toy.fresh _ data (Some 2%Z) _
                  Toy.Untrained Toy.one_gradient [] Hfit eq_refl)).
Defined.

Lemma pick_scatter {A : Type} (flags : list bool) (old vals : list A) :
  length old = length flags ->
  length vals = count_true flags ->
  AverageDWModel.pick flags (scatter flags old vals) = vals.
Proof.
  unfold AverageDWModel.pick, count_true.
  revert old vals. induction flags as [|f flags IH]; intros old vals Ho Hv.
  - destruct vals; [reflexivity | discriminate Hv].
  - destruct old as [|o old]; [discriminate Ho|].
    injection Ho as Ho. destruct f.
    + destruct vals as [|v vals]; [discriminate Hv|].
      cbn [filter length] in Hv. injection Hv as Hv.
      cbn [scatter combine filter fst map snd]. rewrite (IH old vals Ho Hv).
      reflexivity.
    + cbn [filter] in Hv.
      cbn [scatter combine filter fst map snd]. exact (IH old vals Ho Hv).
Qed.

Lemma scatter_length {A : Type} (flags : list bool) (old vals : list A) :
  length (scatter flags old vals) = length old.
Proof.
  revert old vals. induction flags as [|f flags IH]; intros old vals.
  - reflexivity.
  - destruct old as [|o old]; [reflexivity|].
    destruct f; [destruct vals|]; cbn [scatter length]; rewrite IH; reflexivity.
Qed.

(** X17.  Under a mask, putting the predictions of the voxels back in the
    volume loses nothing but the precision of the cast: the volume is
    produced whenever there is one prediction for each voxel of the mask, it
    has the extent of the mask, and indexing it with the mask gives the
    predictions back, cast to single precision. *)
Theorem masked_volume_round_trip {V Obj GTab Opt : Type}
  `{E : External V Obj GTab Opt}
  (self : BaseModel.t V Obj) (mask : ndarray bool) (predicted : ndarray V) :
  BaseModel._mask self = Some mask ->
  wf_nd mask ->
  shape predicted = [count_true (elems mask)] ->
  wf_nd predicted ->
  exists volume : ndarray V,
    BaseModel.reassemble self predicted = Ok volume
    /\ shape volume = shape mask
    /\ bool_index volume mask
       = Ok (mk_nd (shape predicted) (map as_float32 (elems predicted))).
Proof.
  intros Hmask Hwf Hsh Hwfp.
  destruct predicted as [psh vals]. cbn [shape] in Hsh. subst psh.
  unfold wf_nd in Hwfp. cbn [shape elems size_of fold_right] in Hwfp.
  rewrite Nat.mul_1_r in Hwfp.
  unfold BaseModel.reassemble. rewrite Hmask. cbn [shape elems].
  rewrite <- Hwfp, <- (length_map as_float32 vals).
  rewrite mask_assign_vector by (rewrite length_map; symmetry; exact Hwfp).
  cbn [shape elems]. eexists. split; [reflexivity|].
  split; [reflexivity|].
  rewrite bool_index_entries by reflexivity.
  cbn [elems]. rewrite pick_scatter.
  - rewrite length_map, Hwfp. reflexivity.
  - rewrite repeat_length. symmetry. exact Hwf.
  - rewrite length_map. exact Hwfp.
Qed.

Lemma masked_volume_round_trip_witness :
  let self := BaseModel.mk (Some Toy.Untrained) (Some Toy.mask) None None None in
  let predicted := mk_nd [3] (map Toy.z [7; 16777217; 9]%Z) in
  exists volume : ndarray Q,
    BaseModel.reassemble (E := Toy.library false) self predicted = Ok volume
    /\ shape volume = shape Toy.mask
    /\ bool_index volume Toy.mask
       = Ok (mk_nd [3] (map Toy.z [7; 16777216; 9]%Z)).
Proof.
  intros self predicted.
  exact (@masked_volume_round_trip Q Toy.obj Toy.gtab Toy.opt (Toy.library false)
           self Toy.mask predicted eq_refl eq_refl eq_refl eq_refl).
Defined.

Lemma spec_blocks_1d {A : Type} (v : ndarray A) (n N : nat) :
  shape v = [N] ->
  map atleast_1d (spec_blocks v n) = spec_blocks v n
  /\ forallb (fun a : ndarray A => ndim a =? 1) (spec_blocks v n) = true
  /\ map (fun a : ndarray A => hd 0 (shape a)) (spec_blocks v n)
     = map (block_size N n) (seq 0 n).
Proof.
  intros Hsh. unfold spec_blocks. rewrite !map_map. split; [|split].
  - apply map_ext. intros i. unfold atleast_1d, spec_block. reflexivity.
  - apply forallb_forall. intros a Ha. apply in_map_iff in Ha.
    destruct Ha as [i [<- _]]. unfold spec_block, ndim. cbn [shape].
    rewrite Hsh. reflexivity.
  - apply map_ext. intros i. unfold spec_block. cbn [shape hd].
    rewrite Hsh. reflexivity.
Qed.

(** X18.  A vector cut into blocks by [array_split] and joined again by
    [hstack] is the vector itself, for every positive number of blocks, also
    when some blocks are empty. *)
Theorem split_then_stack {A : Type} (v : ndarray A) (n : Z) (N : nat) :
  shape v = [N] -> wf_nd v -> (0 < n)%Z ->
  exists blocks : list (ndarray A),
    array_split v n = Ok blocks /\ hstack blocks = Ok v.
Proof.
  intros Hsh Hwf Hn.
  exists (spec_blocks v (Z.to_nat n)). split.
  - apply array_split_spec; [rewrite Hsh; discriminate | exact Hn].
  - assert (Hpos : 0 < Z.to_nat n) by lia.
    destruct (spec_blocks_1d v (Z.to_nat n) Hsh) as [H1 [H2 H3]].
    unfold hstack. rewrite H1.
    destruct (spec_blocks v (Z.to_nat n)) as [|a0 rest] eqn:Eb.
    { pose proof (spec_blocks_length v (Z.to_nat n)) as Hl.
      rewrite Eb in Hl. simpl in Hl. lia. }
    assert (H0 : (ndim a0 =? 1) = true).
    { cbn [forallb] in H2. apply andb_true_iff in H2. exact (proj1 H2). }
    rewrite H0, H2, H3, list_sum_block_sizes, block_start_full by exact Hpos.
    rewrite <- Eb, spec_blocks_concat;
      [| exact Hpos | exact Hwf | rewrite Hsh; discriminate].
    destruct v as [sh els]. cbn [shape] in Hsh. subst sh. reflexivity.
Qed.

Lemma split_then_stack_witness :
  exists blocks : list (ndarray nat),
    array_split (mk_nd [2] [5; 6]) 3 = Ok blocks
    /\ hstack blocks = Ok (mk_nd [2] [5; 6]).
Proof.
  exact (@split_then_stack nat (mk_nd [2] [5; 6]) 3 2 eq_refl eq_refl eq_refl).
Defined.

(** ** More on the shell average *)

(** X19.  [fit] reads the b-values in the fourth row of the table.  A table
    with one gradient in each row, four entries a row, is therefore rejected
    with [IndexError], and the object is left as it was, unless the data
    hold exactly four samples for each voxel. *)
Theorem average_fit_table_by_rows (self : AverageDWModel.t)
  (data : ndarray Q) (gtab : matrix Q) (n : nat) :
  last_dim (shape data) = Some n ->
  Forall (fun r : list Q => length r = 4) (mrows gtab) ->
  n <> 4 ->
  exists msg : string,
    AverageDWModel.fit self data (Some gtab) = (self, Err (IndexError msg)).
Proof.
  intros Hn Hrows Hneq.
  unfold AverageDWModel.fit, AverageDWModel.average_map, AverageDWModel.b_mask,
    row_at.
  destruct (nth_error (mrows gtab) 3) as [b|] eqn:Eb.
  - cbn [bind]. unfold AverageDWModel.select_last. rewrite Hn.
    rewrite length_map.
    assert (Hb : length b = 4).
    { apply nth_error_In in Eb. rewrite Forall_forall in Hrows.
      exact (Hrows b Eb). }
    rewrite Hb. destruct (Nat.eqb_spec 4 n) as [<-|_]; [contradiction|].
    eexists. reflexivity.
  - eexists. reflexivity.
Qed.

Lemma average_fit_table_by_rows_witness :
  let self := AverageDWModel.init tt
                (AverageDWModel.mk_options None None None None) in
  let rows := mk_mat 3 4 [map Toy.z [0; 0; 0; 0]; map Toy.z [1; 0; 0; 1000];
                          map Toy.z [0; 1; 0; 2000]]%Z in
  exists msg : string,
    AverageDWModel.fit self Toy.dwi (Some rows) = (self, Err (IndexError msg)).
Proof.
  intros self rows.
  apply (@average_fit_table_by_rows self Toy.dwi rows 3).
  - reflexivity.
  - repeat constructor.
  - lia.
Defined.




(** ** The default mask *)

Lemma insert_sorted_in (x y : Q) (l : list Q) :
  In y (insert_sorted x l) -> y = x \/ In y l.
Proof.
  induction l as [|z l IH]; cbn [insert_sorted].
  - intros [<-|[]]. left. reflexivity.
  - destruct (Qle_bool x z).
    + intros [<-|H]; [left; reflexivity | right; exact H].
    + intros [<-|H]; [right; left; reflexivity|].
      destruct (IH H) as [->|H']; [left; reflexivity | right; right; exact H'].
Qed.

Lemma insert_sorted_length (x : Q) (l : list Q) :
  length (insert_sorted x l) = S (length l).
Proof.
  induction l as [|z l IH]; cbn [insert_sorted]; [reflexivity|].
  destruct (Qle_bool x z); cbn [length]; [reflexivity|].
  rewrite IH. reflexivity.
Qed.

Lemma sort_in (y : Q) (l : list Q) : In y (sort l) -> In y l.
Proof.
  induction l as [|x l IH]; [intros []|].
  unfold sort. cbn [fold_right]. intros H.
  apply insert_sorted_in in H. destruct H as [->|H].
  - left. reflexivity.
  - right. apply IH. exact H.
Qed.

Lemma sort_length (l : list Q) : length (sort l) = length l.
Proof.
  induction l as [|x l IH]; [reflexivity|].
  unfold sort. cbn [fold_right]. rewrite insert_sorted_length.
  cbn [length]. f_equal. exact IH.
Qed.

Lemma of_nat_nonneg (k : nat) : (0 <= of_nat k)%Q.
Proof.
  unfold of_nat. change 0%Q with (inject_Z 0). rewrite <- Zle_Qle. lia.
Qed.

(** A percentile is a value between two entries. *)
Lemma np_percentile_convex (l : list Q) (q p : Q) :
  (0 <= q)%Q -> (q <= 100)%Q ->
  np_percentile l q = Ok p ->
  exists a c g : Q,
    In a l /\ In c l /\ (0 <= g)%Q /\ (g <= 1)%Q /\ p = (a + g * (c - a))%Q.
Proof.
  intros Hq0 Hq1 Hp.
  destruct l as [|x0 l']; [discriminate Hp|].
  unfold np_percentile in Hp. injection Hp as Hp.
  set (l := x0 :: l') in *. set (n := length l) in *.
  set (pos := (q / 100 * of_nat (n - 1))%Q) in *.
  assert (Hk := of_nat_nonneg (n - 1)).
  assert (Hpos0 : (0 <= pos)%Q).
  { unfold pos. apply Qmult_le_0_compat; [|exact Hk].
    apply Qle_shift_div_l; [reflexivity | lra]. }
  assert (Hpos1 : (pos <= of_nat (n - 1))%Q).
  { unfold pos. assert (Hc : (q / 100 <= 1)%Q).
    { apply Qle_shift_div_r; [reflexivity | lra]. }
    nra. }
  assert (Hf0 : (0 <= Qfloor pos)%Z).
  { rewrite <- (Qfloor_Z 0). apply Qfloor_resp_le. exact Hpos0. }
  assert (Hf1 : (Qfloor pos <= Z.of_nat (n - 1))%Z).
  { rewrite <- (Qfloor_Z (Z.of_nat (n - 1))). apply Qfloor_resp_le.
    exact Hpos1. }
  set (i := Z.to_nat (Qfloor pos)) in *.
  assert (Hi : i <= n - 1) by (unfold i; lia).
  assert (Hn : 0 < n) by (unfold n, l; cbn [length]; lia).
  assert (Hio : of_nat i = inject_Z (Qfloor pos)).
  { unfold of_nat, i. rewrite Z2Nat.id by exact Hf0. reflexivity. }
  assert (Hin : forall j, j < n -> In (nth j (sort l) 0%Q) l).
  { intros j Hj. apply sort_in, nth_In. rewrite sort_length. exact Hj. }
  exists (nth i (sort l) 0%Q), (nth (Nat.min (i + 1) (n - 1)) (sort l) 0%Q),
    (pos - of_nat i)%Q.
  split; [apply Hin; lia|]. split; [apply Hin; lia|].
  split; [|split].
  - rewrite Hio. pose proof (Qfloor_le pos). lra.
  - rewrite Hio. pose proof (Qlt_floor pos) as H.
    rewrite inject_Z_plus in H. change (inject_Z 1) with 1%Q in H. lra.
  - symmetry. exact Hp.
Qed.

Lemma np_percentile_lower (l : list Q) (q p lo : Q) :
  (0 <= q)%Q -> (q <= 100)%Q ->
  (forall x, In x l -> (lo <= x)%Q) ->
  np_percentile l q = Ok p ->
  (lo <= p)%Q.
Proof.
  intros Hq0 Hq1 Hb Hp.
  destruct (@np_percentile_convex l q p Hq0 Hq1 Hp)
    as [a [c [g [Ha [Hc [Hg0 [Hg1 ->]]]]]]].
  pose proof (Hb a Ha). pose proof (Hb c Hc). nra.
Qed.

Lemma least_entry (l : list Q) :
  l <> [] -> exists m : Q, In m l /\ forall x, In x l -> (m <= x)%Q.
Proof.
  induction l as [|x l IH]; [contradiction|]. intros _.
  destruct l as [|y l].
  - exists x. split; [left; reflexivity|].
    intros z [<-|[]]. apply Qle_refl.
  - destruct (IH ltac:(discriminate)) as [m [Hm Hle]].
    destruct (Qlt_le_dec x m) as [Hx|Hx].
    + exists x. split; [left; reflexivity|].
      intros z [<-|Hz]; [apply Qle_refl|].
      apply Qle_trans with m; [apply Qlt_le_weak; exact Hx | apply Hle; exact Hz].
    + exists m. split; [right; exact Hm|].
      intros z [<-|Hz]; [exact Hx | apply Hle; exact Hz].
Qed.

Lemma count_true_lt (flags : list bool) :
  In false flags -> count_true flags < length flags.
Proof.
  unfold count_true. induction flags as [|f flags IH]; [intros []|].
  intros [->|H].
  - cbn [filter length].
    pose proof (filter_length_le (fun b : bool => b) flags). lia.
  - specialize (IH H). destruct f; cbn [filter length]; lia.
Qed.

Lemma percentile_mask_proper (S0 : ndarray float) :
  elems S0 <> [] ->
  shape (percentile_mask S0) = shape S0
  /\ length (elems (percentile_mask S0)) = length (elems S0)
  /\ count_true (elems (percentile_mask S0))
     < length (elems (percentile_mask S0)).
Proof.
  intros Hne.
  assert (Hnone : count_true (map (fun _ : float => false) (elems S0))
                  < length (map (fun _ : float => false) (elems S0))).
  { apply count_true_lt. destruct (elems S0) as [|x l]; [contradiction|].
    left. reflexivity. }
  unfold percentile_mask. cbn [shape elems]. split; [reflexivity|].
  destruct (finite_entries (elems S0)) as [values|] eqn:Ev;
    [|split; [apply length_map | exact Hnone]].
  apply finite_entries_some in Ev.
  destruct (np_percentile values (inject_Z 35)) as [p|e] eqn:Ep;
    [|split; [apply length_map | exact Hnone]].
  split; [rewrite Ev, !length_map; reflexivity|].
  assert (Hv : values <> []).
  { intros Hnil. rewrite Hnil in Ep. discriminate Ep. }
  destruct (least_entry Hv) as [mn [Hin Hle]].
  assert (Hp : (mn <= p)%Q).
  { apply (@np_percentile_lower values (inject_Z 35) p mn);
      [discriminate | discriminate | exact Hle | exact Ep]. }
  apply count_true_lt. apply in_map_iff. exists mn. split; [|exact Hin].
  unfold Qlt_bool. apply negb_false_iff. apply Qle_bool_iff. exact Hp.
Qed.

Lemma normalize_S0_shape (S0 : ndarray Q) (s : ndarray float) :
  normalize_S0 S0 = Ok s ->
  shape s = shape S0 /\ length (elems s) = length (elems S0)
  /\ elems s <> [].
Proof.
  unfold normalize_S0. intros H.
  destruct (np_max (elems S0)) as [top|e] eqn:Et; [|discriminate H].
  cbn [bind] in H. injection H as <-. cbn [shape elems].
  split; [reflexivity|]. split; [apply length_map|].
  destruct (elems S0); [discriminate Et | discriminate].
Qed.

(** X21.  The mask that the tensor, the kurtosis and the sparse fascicle
    model derive from the baseline, when none is given, has the extent of the
    baseline and never covers it all: one voxel at least, one of the least
    baseline, is left out. *)
Theorem default_mask_leaves_a_voxel_out {Obj GTab Opt : Type}
  `{E : External Q Obj GTab Opt} `{R : Reconst Obj GTab Opt}
  (gtab : GTab) (S0 : ndarray Q) (kw : kwargs Opt) :
  let proper (st : BaseModel.t Q Obj) :=
    exists mask : ndarray bool,
      BaseModel._mask st = Some mask
      /\ shape mask = shape S0
      /\ length (elems mask) = length (elems S0)
      /\ count_true (elems mask) < length (elems mask) in
  (forall st, DTIModel.init gtab (Some S0) None kw = Ok st -> proper st)
  /\ (forall st, DKIModel.init gtab (Some S0) None kw = Ok st -> proper st)
  /\ (forall m, SparseFascicleModel.init gtab (Some S0) None kw = Ok m ->
                proper (SparseFascicleModel.base m)).
Proof.
  intros proper.
  assert (Hmask : forall (s : ndarray float) (st : BaseModel.t Q Obj),
             normalize_S0 S0 = Ok s ->
             BaseModel._mask st = Some (percentile_mask s) -> proper st).
  { intros s st Hs Hst. exists (percentile_mask s).
    destruct (@normalize_S0_shape S0 s Hs) as [Hsh [Hlen Hne]].
    destruct (@percentile_mask_proper s Hne) as [Hsh' [Hlen' Hlt]].
    split; [exact Hst|]. split; [congruence|]. split; [congruence | exact Hlt]. }
  split; [|split].
  - intros st H. unfold DTIModel.init in H.
    destruct (normalize_S0 S0) as [s|e] eqn:Es; [|discriminate H].
    cbn [bind] in H.
    destruct (bool_index s (percentile_mask s)) as [s'|e]; [|discriminate H].
    cbn [bind] in H.
    destruct (finite_array s') as [s''|e]; [|discriminate H].
    cbn [bind] in H.
    destruct (TensorModel gtab _) as [model|e]; [|discriminate H].
    cbn [bind] in H. injection H as <-.
    apply (Hmask s); reflexivity.
  - intros st H. unfold DKIModel.init in H.
    destruct (normalize_S0 S0) as [s|e] eqn:Es; [|discriminate H].
    cbn [bind] in H.
    destruct (bool_index s (percentile_mask s)) as [s'|e]; [|discriminate H].
    cbn [bind] in H.
    destruct (finite_array s') as [s''|e]; [|discriminate H].
    cbn [bind] in H.
    destruct (DiffusionKurtosisModel gtab _) as [model|e]; [|discriminate H].
    cbn [bind] in H. injection H as <-.
    apply (Hmask s); reflexivity.
  - intros sfm H. unfold SparseFascicleModel.init in H.
    destruct (normalize_S0 S0) as [s|e] eqn:Es; [|discriminate H].
    cbn [bind] in H.
    destruct (bool_index s (percentile_mask s)) as [s'|e]; [|discriminate H].
    cbn [bind] in H.
    destruct (finite_array s') as [s''|e]; [|discriminate H].
    cbn [bind] in H.
    destruct (DipySparseFascicleModel gtab _) as [model|e]; [|discriminate H].
    cbn [bind] in H. injection H as <-.
    apply (Hmask s); reflexivity.
Qed.

Lemma default_mask_leaves_a_voxel_out_witness :
  let g : Toy.gtab := ([], mk_mat 0 3 []) in
  let st := match DTIModel.init (E := Toy.library false) g (Some Toy.baseline)
                    None [] with
            | Ok st => st
            | Err _ => Toy.fresh
            end in
  DTIModel.init (E := Toy.library false) g (Some Toy.baseline) None [] = Ok st
  /\ exists mask : ndarray bool,
       BaseModel._mask st = Some mask
       /\ shape mask = shape Toy.baseline
       /\ length (elems mask) = length (elems Toy.baseline)
       /\ count_true (elems mask) < length (elems mask).
Proof.
  intros g st.
  assert (H : DTIModel.init (E := Toy.library false) g (Some Toy.baseline)
                None [] = Ok st)
    by (vm_compute; reflexivity).
  split; [exact H|].
  exact (proj1 (@default_mask_leaves_a_voxel_out Toy.obj Toy.gtab Toy.opt
                  (Toy.library false) toy_reconst g Toy.baseline []) st H).
Defined.

(** ** What the bias correction achieves *)

Lemma map_result_nth {A B : Type} (f : A -> result B) (xs : list A)
  (ys : list B) (i : nat) (d : A) (d' : B) :
  map_result f xs = Ok ys -> i < length xs ->
  f (nth i xs d) = Ok (nth i ys d').
Proof.
  revert ys i. induction xs as [|x xs IH]; intros ys i H Hi;
    [simpl in Hi; lia|].
  cbn [map_result] in H.
  destruct (f x) as [y|e] eqn:Ex; [|discriminate H]. cbn [bind] in H.
  destruct (map_result f xs) as [ys'|e]; [|discriminate H]. cbn [bind] in H.
  injection H as <-. destruct i as [|i]; [exact Ex|].
  cbn [nth]. apply IH; [reflexivity | simpl in Hi; lia].
Qed.

Lemma Qle_bool_scaled (x y d : Q) :
  (0 < d)%Q -> Qle_bool (x * d) (y * d) = Qle_bool x y.
Proof.
  intros Hd. destruct (Qle_bool x y) eqn:E.
  - apply Qle_bool_iff. apply Qle_bool_iff in E.
    apply Qmult_le_r; assumption.
  - destruct (Qle_bool (x * d) (y * d)) eqn:E'; [|reflexivity].
    apply Qle_bool_iff in E'. apply Qmult_le_r in E'; [|exact Hd].
    apply Qle_bool_iff in E'. congruence.
Qed.

Lemma insert_sorted_scaled (x d : Q) (l : list Q) :
  (0 < d)%Q ->
  insert_sorted (x * d) (map (fun v => v * d)%Q l)
  = map (fun v => v * d)%Q (insert_sorted x l).
Proof.
  intros Hd. induction l as [|y l IH]; [reflexivity|].
  cbn [map insert_sorted]. rewrite Qle_bool_scaled by exact Hd.
  destruct (Qle_bool x y); cbn [map]; [reflexivity|].
  rewrite IH. reflexivity.
Qed.

Lemma sort_scaled (d : Q) (l : list Q) :
  (0 < d)%Q ->
  sort (map (fun v => v * d)%Q l) = map (fun v => v * d)%Q (sort l).
Proof.
  intros Hd. induction l as [|x l IH]; [reflexivity|].
  unfold sort in *. cbn [map fold_right]. rewrite IH.
  apply insert_sorted_scaled. exact Hd.
Qed.

Lemma np_median_nonempty (l : list Q) :
  l <> [] ->
  np_median l
  = if Nat.even (length l)
    then Ok ((nth (length l / 2 - 1) (sort l) 0
              + nth (length l / 2) (sort l) 0) / 2)%Q
    else Ok (nth (length l / 2) (sort l) 0%Q).
Proof.
  destruct l; [contradiction | reflexivity].
Qed.

(** The median of a sample scaled by a positive factor is the median scaled
    by this factor. *)
Lemma np_median_scaled (l : list Q) (d m : Q) :
  (0 < d)%Q -> np_median l = Ok m ->
  exists m' : Q,
    np_median (map (fun v => v * d)%Q l) = Ok m' /\ (m' == m * d)%Q.
Proof.
  intros Hd Hm.
  assert (Hne : l <> []) by (intros ->; discriminate Hm).
  assert (Hne' : map (fun v => v * d)%Q l <> []).
  { destruct l; [contradiction | discriminate]. }
  assert (Hn : 0 < length l) by (destruct l; [contradiction | simpl; lia]).
  rewrite (np_median_nonempty Hne) in Hm.
  rewrite (np_median_nonempty Hne'), length_map, (sort_scaled l Hd).
  assert (Hh : length l / 2 < length (sort l)).
  { rewrite sort_length. apply Nat.div_lt; lia. }
  assert (Hh' : length l / 2 - 1 < length (sort l)) by lia.
  rewrite (nth_map_in (fun v => v * d)%Q (sort l) 0%Q 0%Q Hh).
  rewrite (nth_map_in (fun v => v * d)%Q (sort l) 0%Q 0%Q Hh').
  destruct (Nat.even (length l)); injection Hm as <-; eexists;
    (split; [reflexivity|]).
  - change (fst (Nat.divmod (length l) 1 0 1)) with (length l / 2).
    unfold Qdiv. ring.
  - reflexivity.
Qed.

Lemma column_scaled (rows : list (list Q)) (drift : list Q) (k j : nat) :
  Forall (fun r => length r = k) rows -> length drift = k -> j < k ->
  column j (map (fun r => AverageDWModel.scale r drift) rows)
  = map (fun v => v * nth j drift 0)%Q (column j rows).
Proof.
  intros Hrows Hd Hj. unfold column.
  induction Hrows as [|r rows Hr _ IH]; [reflexivity|].
  cbn [map flat_map]. rewrite IH, map_app. f_equal.
  assert (Hs : nth_error (AverageDWModel.scale r drift) j
               = Some (nth j r 0 * nth j drift 0)%Q).
  { unfold AverageDWModel.scale.
    rewrite nth_error_map.
    assert (Hc : nth_error (combine r drift) j
                 = Some (nth j r 0%Q, nth j drift 0%Q)).
    { rewrite (nth_error_nth' _ (0%Q, 0%Q))
        by (rewrite length_combine; lia).
      rewrite combine_nth by lia. reflexivity. }
    rewrite Hc. reflexivity. }
  rewrite Hs, (nth_error_nth' r 0%Q) by lia. reflexivity.
Qed.

(** X22.  What the bias correction achieves on a volume of four axes: the
    reference is at least 1; after the correction every sample whose median
    over the volume was at least 1 has the reference for its median, and a
    sample whose median was below 1 keeps its median (it is multiplied by
    [reference / reference]).  Medians are compared as numbers. *)
Theorem bias_correction_aligns_medians (rows : list (list Q)) (x y z k : nat)
  (out : ndarray Q) :
  length rows = size_of [x; y; z] ->
  Forall (fun r => length r = k) rows ->
  AverageDWModel.regress_out (mk_nd [x; y; z; k] (concat rows)) = Ok out ->
  exists (centers : list Q) (reference : Q),
    map_result (fun j => np_median (column j rows)) (seq 0 k) = Ok centers
    /\ np_percentile (filter (fun c => Qle_bool 1 c) centers) (inject_Z 75)
       = Ok reference
    /\ (1 <= reference)%Q
    /\ shape out = [x; y; z; k]
    /\ forall j : nat, j < k ->
         exists m : Q,
           np_median (column j (rows_of k (length rows) (elems out))) = Ok m
           /\ (m == if Qlt_bool (nth j centers 0) 1
                    then nth j centers 0 else reference)%Q.
Proof.
  intros Hlen Hrows Hout.
  rewrite (@regress_out_4d rows x y z k Hlen Hrows) in Hout.
  destruct (map_result (fun j => np_median (column j rows)) (seq 0 k))
    as [centers|e] eqn:Ec; [|discriminate Hout].
  cbn [bind] in Hout.
  destruct (np_percentile (filter (fun c => Qle_bool 1 c) centers)
              (inject_Z 75)) as [reference|e] eqn:Er; [|discriminate Hout].
  cbn [bind] in Hout. injection Hout as <-.
  exists centers, reference.
  assert (Href : (1 <= reference)%Q).
  { apply (@np_percentile_lower (filter (fun c => Qle_bool 1 c) centers)
             (inject_Z 75) reference 1);
      [discriminate | discriminate | | exact Er].
    intros c Hc. apply filter_In in Hc. apply Qle_bool_iff. exact (proj2 Hc). }
  assert (Hck : length centers = k).
  { rewrite (@map_result_length _ _ _ (seq 0 k) centers Ec).
    apply length_seq. }
  set (drift := drift_of centers reference).
  assert (Hdk : length drift = k).
  { unfold drift, drift_of. rewrite length_map. exact Hck. }
  split; [reflexivity|]. split; [exact Er|]. split; [exact Href|].
  split; [reflexivity|].
  intros j Hj. cbn [elems].
  rewrite <- (length_map (fun r => AverageDWModel.scale r drift) rows).
  rewrite rows_of_concat.
  2:{ apply Forall_map. eapply Forall_impl; [|exact Hrows].
      intros r Hr. cbv beta. apply scale_width; [exact Hr | exact Hdk]. }
  rewrite (@column_scaled rows drift k j Hrows Hdk Hj).
  pose proof (@map_result_nth _ _ (fun j => np_median (column j rows))
                (seq 0 k) centers j 0 0%Q Ec) as Hc.
  rewrite length_seq, seq_nth in Hc by exact Hj. specialize (Hc Hj).
  cbn [Nat.add] in Hc.
  set (c := nth j centers 0%Q) in *.
  assert (Hd : nth j drift 0%Q
               = (reference / (if Qlt_bool c 1 then reference else c))%Q).
  { unfold drift, drift_of.
    rewrite (@nth_map_in _ _
               (fun c => (reference / (if Qlt_bool c 1 then reference else c))%Q)
               centers 0%Q 0%Q j) by lia.
    reflexivity. }
  assert (Hc1 : Qlt_bool c 1 = false -> (1 <= c)%Q).
  { intros Hf. apply Qnot_lt_le. intros Hlt. apply Qlt_bool_iff in Hlt.
    congruence. }
  assert (Hpos : (0 < nth j drift 0)%Q).
  { rewrite Hd. apply Qlt_shift_div_l.
    - destruct (Qlt_bool c 1) eqn:Eb; [lra | specialize (Hc1 eq_refl); lra].
    - destruct (Qlt_bool c 1) eqn:Eb; [lra | specialize (Hc1 eq_refl); lra]. }
  destruct (@np_median_scaled (column j rows) (nth j drift 0%Q) c Hpos Hc)
    as [m [Hm Hmq]].
  exists m. split; [exact Hm|].
  rewrite Hmq, Hd.
  destruct (Qlt_bool c 1) eqn:Eb.
  - field. lra.
  - specialize (Hc1 eq_refl). field. lra.
Qed.

Lemma bias_correction_aligns_medians_witness :
  let rows := [map Toy.z [100; 20; 30]; map Toy.z [200; 50; 60]]%Z in
  let out := match AverageDWModel.regress_out
                     (mk_nd [1; 1; 2; 3] (concat rows)) with
             | Ok o => o
             | Err _ => Toy.dwi
             end in
  AverageDWModel.regress_out (mk_nd [1; 1; 2; 3] (concat rows)) = Ok out
  /\ exists (centers : list Q) (reference : Q),
       map_result (fun j => np_median (column j rows)) (seq 0 3) = Ok centers
       /\ np_percentile (filter (fun c => Qle_bool 1 c) centers) (inject_Z 75)
          = Ok reference
       /\ (1 <= reference)%Q
       /\ shape out = [1; 1; 2; 3]
       /\ forall j : nat, j < 3 ->
            exists m : Q,
              np_median (column j (rows_of 3 (length rows) (elems out))) = Ok m
              /\ (m == if Qlt_bool (nth j centers 0) 1
                       then nth j centers 0 else reference)%Q.
Proof.
  intros rows out.
  assert (H : AverageDWModel.regress_out (mk_nd [1; 1; 2; 3] (concat rows))
              = Ok out)
    by (vm_compute; reflexivity).
  split; [exact H|].
  apply (@bias_correction_aligns_medians rows 1 1 2 3 out).
  - reflexivity.
  - repeat constructor.
  - exact H.
Defined.

(** ** Predictions of several gradients *)

(** X23.  The volume can only be put together from one value for each
    voxel: predictions that hold more than one gradient for each voxel,
    [k] voxels by [g] gradients, make [predict] raise [ValueError], under a
    mask as well as without. *)
Theorem multi_gradient_prediction_rejected {V Obj GTab Opt : Type}
  `{E : External V Obj GTab Opt}
  (self : BaseModel.t V Obj) (predicted : ndarray V) (k g : nat) :
  shape predicted = [k; g] -> wf_nd predicted -> 0 < k -> 1 < g ->
  match BaseModel._mask self with
  | Some mask => count_true (elems mask) = k
  | None => exists sh : list nat,
              BaseModel._datashape self = Some sh
              /\ size_of (but_last sh) = k
  end ->
  exists msg : string,
    BaseModel.reassemble self predicted = Err (ValueError msg).
Proof.
  intros Hsh Hwf Hk Hg Hself. unfold BaseModel.reassemble.
  destruct (BaseModel._mask self) as [mask|].
  - unfold mask_assign. rewrite Hsh, Hself.
    destruct k as [|[|k]]; [lia| |].
    + cbn [drop_leading_ones].
      destruct g as [|[|g]]; [lia | lia |].
      cbn [drop_leading_ones Nat.eqb]. eexists. reflexivity.
    + cbn [drop_leading_ones]. eexists. reflexivity.
  - destruct Hself as [sh [-> Hsize]]. cbn [not_none bind].
    unfold reshape. unfold wf_nd in Hwf. rewrite Hwf, Hsh, Hsize.
    cbn [size_of fold_right].
    destruct (Nat.eqb_spec (k * (g * 1)) k) as [Heq|_]; [nia|].
    eexists. reflexivity.
Qed.

Lemma multi_gradient_prediction_rejected_witness :
  let self := BaseModel.mk (Some Toy.Untrained) (Some Toy.mask) None None None in
  exists msg : string,
    BaseModel.reassemble (E := Toy.library false) self
      (mk_nd [3; 2] (map Toy.z [1; 2; 3; 4; 5; 6]%Z))
    = Err (ValueError msg).
Proof.
  intros self.
  apply (@multi_gradient_prediction_rejected Q Toy.obj Toy.gtab Toy.opt
           (Toy.library false) self
           (mk_nd [3; 2] (map Toy.z [1; 2; 3; 4; 5; 6]%Z)) 3 2).
  - reflexivity.
  - reflexivity.
  - lia.
  - lia.
  - reflexivity.
Defined.

(** ** More on the factory *)

(** X24.  For every name other than those of the baseline and of the average
    model the gradient table is converted before anything else: when the
    conversion raises, the factory raises the same exception, whatever the
    name and the keywords. *)
Theorem factory_converts_gradient_first {Obj GTab Opt : Type}
  `{E : External Q Obj GTab Opt} `{R : Reconst Obj GTab Opt}
  (gtab : gradient_like Q) (name : string) (kw : @ModelFactory.keywords Opt)
  (e : exn) :
  among (lower name) ["s0"; "b0"; "avg"; "average"; "mean"] = false ->
  snd (_rasb2dipy gtab) = Err e ->
  ModelFactory.init gtab name kw
  = (fst (_rasb2dipy gtab), ModelFactory.Raises (ModelFactory.Raised e)).
Proof.
  unfold among. cbn [existsb]. intros H Hg.
  repeat (apply orb_false_iff in H; let Hk := fresh "Hk" in destruct H as [Hk H]).
  unfold ModelFactory.init, among. cbn [existsb].
  rewrite Hk, Hk0, Hk1, Hk2, Hk3. cbn [orb].
  destruct (_rasb2dipy gtab) as [out [g|e']]; cbn [snd fst] in *;
    [discriminate Hg|].
  injection Hg as ->. reflexivity.
Qed.

Lemma factory_converts_gradient_first_witness :
  ModelFactory.init (E := Toy.library false) (R := toy_reconst)
    (Vec (map Toy.z [1; 0; 0]%Z)) "DTI"
    (ModelFactory.mk_keywords None None
       (AverageDWModel.mk_options None None None None) [])
  = ([], ModelFactory.Raises
           (ModelFactory.Raised (ValueError "Missing gradient information."))).
Proof.
  exact (@factory_converts_gradient_first Toy.obj Toy.gtab Toy.opt
           (Toy.library false) toy_reconst (Vec (map Toy.z [1; 0; 0]%Z)) "DTI"
           (ModelFactory.mk_keywords None None
              (AverageDWModel.mk_options None None None None) [])
           (ValueError "Missing gradient information.") eq_refl eq_refl).
Defined.

Lemma kw_get_set {A : Type} (k k' : string) (v : A) (d : kwargs A) :
  kw_get k (kw_set k' v d) = if String.eqb k k' then Some v else kw_get k d.
Proof.
  induction d as [|[k0 v0] d IH]; [reflexivity|].
  cbn [kw_set]. destruct (String.eqb_spec k' k0) as [->|Hne].
  - cbn [kw_get]. destruct (String.eqb k k0); reflexivity.
  - cbn [kw_get]. rewrite IH.
    destruct (String.eqb_spec k k0) as [->|_]; [|reflexivity].
    destruct (String.eqb_spec k0 k') as [->|_]; [contradiction | reflexivity].
Qed.

Lemma kw_get_app {A : Type} (k : string) (a b : kwargs A) :
  kw_get k (a ++ b)
  = match kw_get k a with
    | Some v => Some v
    | None => kw_get k b
    end.
Proof.
  induction a as [|[k0 v0] a IH]; [reflexivity|].
  cbn [app kw_get]. destruct (String.eqb k k0); [reflexivity | exact IH].
Qed.

Lemma kw_get_absent {A : Type} (k : string) (o : kwargs A) :
  ~ In k (map fst o) -> kw_get k o = None.
Proof.
  induction o as [|[k0 v0] o IH]; [reflexivity|].
  cbn [map fst kw_get]. intros Hin.
  destruct (String.eqb_spec k k0) as [->|_].
  - exfalso. apply Hin. left. reflexivity.
  - apply IH. intros H. apply Hin. right. exact H.
Qed.

(** [d.update(other)] when the keys of [other] are distinct: the entries of
    [other] come first. *)
Lemma kw_get_update {A : Type} (k : string) (d o : kwargs A) :
  NoDup (map fst o) ->
  kw_get k (kw_update d o)
  = match kw_get k o with
    | Some v => Some v
    | None => kw_get k d
    end.
Proof.
  unfold kw_update. revert d.
  induction o as [|[k0 v0] o IH]; intros d Hnd; [reflexivity|].
  cbn [map fst] in Hnd. inversion Hnd as [|? ? Hnotin Hnd']. subst.
  cbn [fold_left fst snd kw_get]. rewrite (IH _ Hnd'), kw_get_set.
  destruct (String.eqb_spec k k0) as [->|_]; [|reflexivity].
  rewrite (kw_get_absent _ o Hnotin). reflexivity.
Qed.

Lemma shore_name_not_other (s : string) :
  String.prefix "3dshore" s = true ->
  among s ["s0"; "b0"] = false /\ among s ["avg"; "average"; "mean"] = false.
Proof.
  intros H. split.
  - destruct (among s ["s0"; "b0"]) eqn:Ea; [|reflexivity].
    apply among_spec in Ea.
    destruct Ea as [<-|[<-|[]]]; discriminate H.
  - destruct (among s ["avg"; "average"; "mean"]) eqn:Ea; [|reflexivity].
    apply among_spec in Ea.
    destruct Ea as [<-|[<-|[<-|[]]]]; discriminate H.
Qed.

(** X25.  Every name that begins with [3dshore], in any case of letters,
    selects DIPY's [ShoreModel] on the converted table.  Its options are the
    keywords of the call, [S0] and [mask] included, over the four defaults of
    the factory: a keyword of the call takes precedence over the default of
    the same name. *)
Theorem factory_shore_options {Obj GTab Opt : Type}
  `{E : External Q Obj GTab Opt} `{R : Reconst Obj GTab Opt}
  (gtab : gradient_like Q) (name : string) (kw : @ModelFactory.keywords Opt)
  (out : list string) (g : GTab) :
  String.prefix "3dshore" (lower name) = true ->
  _rasb2dipy gtab = (out, Ok g) ->
  NoDup (map fst (ModelFactory.as_dict kw)) ->
  exists options : kwargs Opt,
    ModelFactory.init gtab name kw
    = (out, ModelFactory.wrap ModelFactory.Shore (ShoreModel g options))
    /\ forall k : string,
         kw_get k options
         = match kw_get k (ModelFactory.as_dict kw) with
           | Some v => Some v
           | None =>
               kw_get k [("radial_order", of_number (inject_Z 6));
                         ("zeta", of_number (inject_Z 700));
                         ("lambdaN", of_number (1 # 100000000));
                         ("lambdaL", of_number (1 # 100000000))]
           end.
Proof.
  intros Hn Hg Hnd. unfold ModelFactory.init.
  destruct (shore_name_not_other _ Hn) as [H1 H2].
  rewrite H1, H2, Hg, Hn.
  eexists. split; [reflexivity|].
  intros k. apply kw_get_update. exact Hnd.
Qed.

Lemma factory_shore_options_witness :
  let kw := ModelFactory.mk_keywords None None
              (AverageDWModel.mk_options None None None None)
              [("zeta", Toy.ONumber (Toy.z 650))] in
  exists options : kwargs Toy.opt,
    ModelFactory.init (E := Toy.library false) (R := toy_reconst)
      Toy.one_gradient "3DSHORE-like" kw
    = ([], ModelFactory.wrap ModelFactory.Shore
             (ShoreModel (Reconst := toy_reconst)
                ([Toy.z 1000], mk_mat 1 3 [map Toy.z [1; 0; 0]%Z]) options))
    /\ kw_get "zeta" options = Some (Toy.ONumber (Toy.z 650)).
Proof.
  intros kw.
  destruct (@factory_shore_options Toy.obj Toy.gtab Toy.opt (Toy.library false)
              toy_reconst Toy.one_gradient "3DSHORE-like" kw []
              ([Toy.z 1000], mk_mat 1 3 [map Toy.z [1; 0; 0]%Z])
              eq_refl eq_refl)
    as [options [Hinit Hget]].
  - repeat constructor. intros [].
  - exists options. split; [exact Hinit|]. rewrite Hget. reflexivity.
Defined.

Lemma sparse_name_not_other (s : string) :
  among s ["sfm"; "gp"] = true ->
  among s ["s0"; "b0"] = false
  /\ among s ["avg"; "average"; "mean"] = false
  /\ String.prefix "3dshore" s = false.
Proof.
  intros H. apply among_spec in H.
  destruct H as [<-|[<-|[]]]; repeat split.
Qed.

(** X26.  For the names [sfm] and [gp] the factory builds the sparse
    fascicle model on the converted table, with the baseline and the mask of
    the call.  Whether the table is multi-shell makes no difference, for the
    isotropic model that the factory then adds is dropped with the other
    keywords; the two names differ in the slot [_solver] alone, and only when
    the call gives no solver.  A solver that is [None] is replaced by
    [ElasticNet]. *)
Theorem factory_sparse_model {Obj GTab Opt : Type}
  `{E : External Q Obj GTab Opt} `{R : Reconst Obj GTab Opt}
  (gtab : gradient_like Q) (name : string) (kw : @ModelFactory.keywords Opt)
  (out : list string) (g : GTab) :
  among (lower name) ["sfm"; "gp"] = true ->
  _rasb2dipy gtab = (out, Ok g) ->
  kw_has "self" (ModelFactory.kw_other kw) = false ->
  NoDup (map fst (ModelFactory.unbound kw)) ->
  let chosen :=
    match kw_get "solver" (ModelFactory.unbound kw) with
    | Some s => s
    | None =>
        if String.eqb (lower name) "gp"
        then GaussianProcessRegressor
        else of_string "ElasticNet"
    end in
  ModelFactory.init gtab name kw
  = (out,
     ModelFactory.wrap ModelFactory.Sparse
       (let* m := SparseFascicleModel.init g
                    (ModelFactory.bound (ModelFactory.kw_S0 kw))
                    (ModelFactory.bound (ModelFactory.kw_mask kw)) [] in
        Ok (SparseFascicleModel.mk (SparseFascicleModel.base m)
              (if is_none chosen then of_string "ElasticNet" else chosen)))).
Proof.
  intros Hn Hg Hself Hnd chosen.
  unfold ModelFactory.init, ModelFactory.construct.
  destruct (sparse_name_not_other _ Hn) as [H1 [H2 H3]].
  rewrite H1, H2, Hg, H3, Hn, Hself.
  f_equal. f_equal. rewrite sfm_init_solver. f_equal.
  rewrite (@kw_get_update _ "solver" _ _ Hnd). unfold chosen.
  destruct (kw_get "solver" (ModelFactory.unbound kw)); [reflexivity|].
  destruct (String.eqb (lower name) "gp"), (check_multi_b g); reflexivity.
Qed.

Lemma factory_sparse_model_witness :
  let kw := ModelFactory.mk_keywords None None
              (AverageDWModel.mk_options None None None None)
              [("solver", Toy.ONone)] in
  ModelFactory.init (E := Toy.library false) (R := toy_reconst)
    Toy.one_gradient "GP" kw
  = ([], ModelFactory.Returns
           (ModelFactory.Sparse
              (SparseFascicleModel.mk
                 (BaseModel.mk
                    (Some (Toy.Configured "SparseFascicleModel" []))
                    None None None None)
                 (Toy.OString "ElasticNet")))).
Proof.
  intros kw.
  rewrite (@factory_sparse_model Toy.obj Toy.gtab Toy.opt (Toy.library false)
             toy_reconst Toy.one_gradient "GP" kw []
             ([Toy.z 1000], mk_mat 1 3 [map Toy.z [1; 0; 0]%Z])
             eq_refl eq_refl eq_refl).
  - reflexivity.
  - repeat constructor. intros [].
Defined.
